(** * ODIN mobility ETL: a shallow embedding of the transform / validate / load chain

    The development follows the Python sources module by module:

    - [Text]        Python [str] values as sequences of Unicode code points,
                    with the handful of [str] methods the sources call;
    - [Md5]         [hashlib.md5(...).hexdigest()];
    - [Frames]      the part of a pandas [DataFrame] the sources rely on;
    - [Transformer] [src/transformer.py];
    - [Parser]      [src/parser.py];
    - [Validator]   [src/validator.py];
    - [Loader]      [src/loader.py];
    - [Etl]         [src/etl.py].

    Exceptions are values of type [exn]; a call that may raise returns a
    [result]. *)

From Stdlib Require Import String Ascii.
From Stdlib Require Import List NArith ZArith Bool Lia Arith.
Import ListNotations.

Set Implicit Arguments.

(* ================================================================== *)
(** * Exceptions and results *)

Definition char := N.
Definition str := list char.

(** The exceptions the sources can raise or let through. *)
Inductive exn : Type :=
| KeyError (k : str)              (* dict or column lookup of a missing label *)
| AmbiguousLabel (k : str)        (* a column label carried by several columns *)
| AttributeError (name : str)     (* an attribute the object does not have *)
| SchemaError (column rule : str) (* pandera.errors.SchemaError *)
| FileNotFoundError
| ReadError (msg : str)           (* pandas.read_csv failures *)
| DatabaseError (msg : str).      (* failures of the SQL engine *)

Inductive result (A : Type) : Type :=
| Ok (a : A)
| Raise (e : exn).
Arguments Ok {A} a.
Arguments Raise {A} e.

Definition bind {A B} (r : result A) (k : A -> result B) : result B :=
  match r with
  | Ok a => k a
  | Raise e => Raise e
  end.

Declare Scope result_scope.
Delimit Scope result_scope with result.
Notation "x <- r ;; k" := (bind r (fun x => k))
  (at level 61, r at next level, right associativity) : result_scope.
Notation "r ;;; k" := (bind r (fun _ => k))
  (at level 61, right associativity) : result_scope.

Definition is_ok {A} (r : result A) : bool :=
  match r with Ok _ => true | Raise _ => false end.

(* ================================================================== *)
(** * Python strings *)

Module Text.

(** A literal of the sources: each character of the Rocq string is one
    code point (the literals of the sources are ASCII). *)
Definition u (s : string) : str := map N_of_ascii (list_ascii_of_string s).

Definition str_eqb (a b : str) : bool :=
  if list_eq_dec N.eq_dec a b then true else false.

Definition mem (x : str) (l : list str) : bool := existsb (str_eqb x) l.

(** [str.isspace] on one character, which is also what [\s] matches in a
    [str] pattern: the code points Python classifies as whitespace. *)
Definition whitespace : list char :=
  [9; 10; 11; 12; 13; 28; 29; 30; 31; 32; 133; 160; 5760;
   8192; 8193; 8194; 8195; 8196; 8197; 8198; 8199; 8200; 8201; 8202;
   8232; 8233; 8239; 8287; 12288]%N.

Definition isspace (c : char) : bool := existsb (N.eqb c) whitespace.

(** [str.strip()] with no argument. *)
Fixpoint lstrip (s : str) : str :=
  match s with
  | [] => []
  | c :: t => if isspace c then lstrip t else s
  end.

Definition rstrip (s : str) : str := rev (lstrip (rev s)).

Definition strip (s : str) : str := rstrip (lstrip s).

(** [sep.join(parts)]. *)
Fixpoint join (sep : str) (parts : list str) : str :=
  match parts with
  | [] => []
  | [p] => p
  | p :: rest => p ++ sep ++ join sep rest
  end.

Fixpoint starts_with (p s : str) : bool :=
  match p, s with
  | [], _ => true
  | _ :: _, [] => false
  | a :: p', b :: s' => N.eqb a b && starts_with p' s'
  end.

(** [s.find(p)]: the lowest index where [p] occurs in [s], [-1] if none. *)
Fixpoint find_from (i : Z) (s p : str) : Z :=
  if starts_with p s then i
  else match s with
       | [] => (-1)%Z
       | _ :: t => find_from (i + 1)%Z t p
       end.

Definition find (s p : str) : Z := find_from 0%Z s p.

(** [s[a:b]] for integers [a], [b]: a negative bound counts from the end,
    both bounds are clamped to [0 .. len(s)]. *)
Definition clamp (len i : Z) : Z :=
  if (i <? 0)%Z then Z.max 0 (len + i) else Z.min i len.

Definition slice (s : str) (a b : Z) : str :=
  let len := Z.of_nat (length s) in
  let lo := clamp len a in
  let hi := clamp len b in
  firstn (Z.to_nat (hi - lo)) (skipn (Z.to_nat lo) s).

(** [s.encode()]: UTF-8. *)
Definition utf8_char (c : char) : list N :=
  (if c <? 0x80 then [c]
   else if c <? 0x800 then [0xC0 + c / 64; 0x80 + c mod 64]
   else if c <? 0x10000 then
     [0xE0 + c / 4096; 0x80 + (c / 64) mod 64; 0x80 + c mod 64]
   else
     [0xF0 + (c / 262144) mod 8; 0x80 + (c / 4096) mod 64;
      0x80 + (c / 64) mod 64; 0x80 + c mod 64])%N.

Definition encode (s : str) : list N := flat_map utf8_char s.

(** [str(z)] for an integer. *)
Fixpoint digits (fuel : nat) (n : N) (acc : str) : str :=
  match fuel with
  | O => acc
  | S f =>
      let acc' := (48 + n mod 10)%N :: acc in
      if (n / 10 =? 0)%N then acc' else digits f (n / 10)%N acc'
  end.

Definition str_of_N (n : N) : str := digits (S (N.to_nat (N.log2 n))) n [].

Definition str_of_Z (z : Z) : str :=
  if (z <? 0)%Z then 45%N :: str_of_N (Z.abs_N z) else str_of_N (Z.abs_N z).

End Text.

(* ================================================================== *)
(** * MD5 (RFC 1321), as computed by [hashlib.md5(data).hexdigest()] *)

Module Md5.
Local Open Scope N_scope.

Definition add32 (x y : N) : N := (x + y) mod 2 ^ 32.
Definition not32 (x : N) : N := N.lxor x 0xFFFFFFFF.
Definition rotl32 (x n : N) : N :=
  N.lor (N.shiftl x n mod 2 ^ 32) (N.shiftr x (32 - n)).

Definition shifts : list N :=
  [7; 12; 17; 22; 7; 12; 17; 22; 7; 12; 17; 22; 7; 12; 17; 22;
   5;  9; 14; 20; 5;  9; 14; 20; 5;  9; 14; 20; 5;  9; 14; 20;
   4; 11; 16; 23; 4; 11; 16; 23; 4; 11; 16; 23; 4; 11; 16; 23;
   6; 10; 15; 21; 6; 10; 15; 21; 6; 10; 15; 21; 6; 10; 15; 21].

Definition sines : list N :=
  [ 0xd76aa478; 0xe8c7b756; 0x242070db; 0xc1bdceee;
    0xf57c0faf; 0x4787c62a; 0xa8304613; 0xfd469501;
    0x698098d8; 0x8b44f7af; 0xffff5bb1; 0x895cd7be;
    0x6b901122; 0xfd987193; 0xa679438e; 0x49b40821;
    0xf61e2562; 0xc040b340; 0x265e5a51; 0xe9b6c7aa;
    0xd62f105d; 0x02441453; 0xd8a1e681; 0xe7d3fbc8;
    0x21e1cde6; 0xc33707d6; 0xf4d50d87; 0x455a14ed;
    0xa9e3e905; 0xfcefa3f8; 0x676f02d9; 0x8d2a4c8a;
    0xfffa3942; 0x8771f681; 0x6d9d6122; 0xfde5380c;
    0xa4beea44; 0x4bdecfa9; 0xf6bb4b60; 0xbebfbc70;
    0x289b7ec6; 0xeaa127fa; 0xd4ef3085; 0x04881d05;
    0xd9d4d039; 0xe6db99e5; 0x1fa27cf8; 0xc4ac5665;
    0xf4292244; 0x432aff97; 0xab9423a7; 0xfc93a039;
    0x655b59c3; 0x8f0ccc92; 0xffeff47d; 0x85845dd1;
    0x6fa87e4f; 0xfe2ce6e0; 0xa3014314; 0x4e0811a1;
    0xf7537e82; 0xbd3af235; 0x2ad7d2bb; 0xeb86d391 ].

(** [n] bytes of [x], least significant first. *)
Fixpoint le_bytes (n : nat) (x : N) : list N :=
  match n with
  | O => []
  | S k => x mod 256 :: le_bytes k (x / 256)
  end.

Fixpoint le_word (bs : list N) : N :=
  match bs with
  | [] => 0
  | b :: t => b + 256 * le_word t
  end.

(** Padding: a 1 bit, zeros up to 56 modulo 64 bytes, then the bit length
    on 64 bits. *)
Definition pad (msg : list N) : list N :=
  let len := length msg in
  let zeros := ((119 - len mod 64) mod 64)%nat in
  msg ++ [0x80] ++ repeat 0 zeros ++ le_bytes 8 ((8 * N.of_nat len) mod 2 ^ 64).

(** The list cut into pieces of [n] elements. *)
Fixpoint pieces {A} (fuel n : nat) (l : list A) : list (list A) :=
  match fuel, l with
  | O, _ => []
  | _, [] => []
  | S f, _ => firstn n l :: pieces f n (skipn n l)
  end.

Definition blocks (bytes : list N) : list (list N) :=
  map (fun blk => map le_word (pieces 16 4 blk))
      (pieces (length bytes) 64 bytes).

Record state := State { sa : N; sb : N; sc : N; sd : N }.

Definition init : state :=
  State 0x67452301 0xefcdab89 0x98badcfe 0x10325476.

Definition step (m : list N) (st : state) (i : N) : state :=
  let '(State a b c d) := st in
  let '(f, g) :=
    if i <? 16 then (N.lor (N.land b c) (N.land (not32 b) d), i)
    else if i <? 32 then
      (N.lor (N.land d b) (N.land (not32 d) c), (5 * i + 1) mod 16)
    else if i <? 48 then (N.lxor (N.lxor b c) d, (3 * i + 5) mod 16)
    else (N.lxor c (N.lor b (not32 d)), (7 * i) mod 16) in
  let f' := add32 (add32 (add32 f a) (nth (N.to_nat i) sines 0))
                  (nth (N.to_nat g) m 0) in
  State d (add32 b (rotl32 f' (nth (N.to_nat i) shifts 0))) b c.

Definition rounds : list N := map N.of_nat (seq 0 64).

Definition compress (st : state) (m : list N) : state :=
  let '(State a b c d) := fold_left (step m) rounds st in
  State (add32 (sa st) a) (add32 (sb st) b) (add32 (sc st) c) (add32 (sd st) d).

Definition digest (data : list N) : list N :=
  let '(State a b c d) := fold_left compress (blocks (pad data)) init in
  le_bytes 4 a ++ le_bytes 4 b ++ le_bytes 4 c ++ le_bytes 4 d.

Definition hex_digit (d : N) : char := if d <? 10 then 48 + d else 87 + d.

Definition hex_byte (b : N) : str := [hex_digit ((b / 16) mod 16); hex_digit (b mod 16)].

(** [hashlib.md5(data).hexdigest()]. *)
Definition hexdigest (data : list N) : str := flat_map hex_byte (digest data).

(** A character of a lowercase hexadecimal numeral: [0-9a-f]. *)
Definition is_lower_hex (c : char) : bool :=
  (48 <=? c) && (c <=? 57) || (97 <=? c) && (c <=? 102).

End Md5.

(* ================================================================== *)
(** * Data frames *)

Module Frames.
Import Text.

(** A float64 other than NaN: plus or minus infinity, or a finite value
    written as a sign, a decimal coefficient and a power of ten.  The
    sources never compute with floats: they are read, tested for
    missingness, printed and stored. *)
Inductive float64 : Type :=
| Finite (neg : bool) (coef : N) (exp10 : Z)
| Inf (neg : bool).

(** The scalars a cell of a frame can hold. *)
Inductive cell : Type :=
| VStr (s : str)
| VInt (z : Z)
| VFloat (f : float64)
| VNaN                 (* float('nan'), the missing-value marker of pandas *)
| VNone                (* Python None *)
| VTime (iso : str).   (* a tz-aware pandas Timestamp, written as its ISO text *)

(** [pd.isna] / [pd.isnull] on a scalar. *)
Definition isna (c : cell) : bool :=
  match c with
  | VNaN | VNone => true
  | _ => false
  end.

Definition notnull (c : cell) : bool := negb (isna c).

Definition cell_eqb (a b : cell) : bool :=
  match a, b with
  | VStr s, VStr t => str_eqb s t
  | VInt x, VInt y => Z.eqb x y
  | VFloat (Finite n c e), VFloat (Finite n' c' e') =>
      Bool.eqb n n' && N.eqb c c' && Z.eqb e e'
  | VFloat (Inf n), VFloat (Inf n') => Bool.eqb n n'
  | VNaN, VNaN => true
  | VNone, VNone => true
  | VTime s, VTime t => str_eqb s t
  | _, _ => false
  end.

(** ** Printing: [str(x)], which is what [astype(str)] applies to each cell *)

Definition zeros (n : nat) : str := repeat 48%N n.

(** [repr] of a finite float given by its decimal digits [ds] (no leading
    zero) and the position [p] of the decimal point after the first [p]
    digits; fixed notation when [-4 < p <= 16], scientific otherwise. *)
Definition float_digits_str (ds : str) (p : Z) : str :=
  let k := Z.of_nat (length ds) in
  if ((-4 <? p) && (p <=? 16))%Z then
    if (p <=? 0)%Z then u "0." ++ zeros (Z.to_nat (- p)) ++ ds
    else if (k <=? p)%Z then ds ++ zeros (Z.to_nat (p - k)) ++ u ".0"
    else firstn (Z.to_nat p) ds ++ u "." ++ skipn (Z.to_nat p) ds
  else
    let e := (p - 1)%Z in
    let mant := match ds with
                | [] => []
                | [d] => [d]
                | d :: rest => d :: 46%N :: rest
                end in
    let ed := str_of_N (Z.abs_N e) in
    let ed' := match ed with [_] => 48%N :: ed | _ => ed end in
    mant ++ u "e" ++ (if (e <? 0)%Z then u "-" else u "+") ++ ed'.

(** Trailing zeros of the coefficient are moved into the exponent. *)
Fixpoint normalize (fuel : nat) (c : N) (e : Z) : N * Z :=
  match fuel with
  | O => (c, e)
  | S f => if ((c mod 10 =? 0) && negb (c =? 0))%N
           then normalize f (c / 10)%N (e + 1)%Z else (c, e)
  end.

Definition float_str (f : float64) : str :=
  match f with
  | Inf neg => if neg then u "-inf" else u "inf"
  | Finite neg c e =>
      let sign := if neg then u "-" else [] in
      if (c =? 0)%N then sign ++ u "0.0"
      else
        let '(c', e') := normalize (S (N.to_nat (N.log2 c))) c e in
        let ds := str_of_N c' in
        sign ++ float_digits_str ds (Z.of_nat (length ds) + e')
  end.

Definition py_str (c : cell) : str :=
  match c with
  | VStr s => s
  | VInt z => str_of_Z z
  | VFloat f => float_str f
  | VNaN => u "nan"
  | VNone => u "None"
  | VTime iso => iso
  end.

(** ** Reading numbers: [pd.to_numeric(series, errors="coerce")] *)

Definition is_digit (c : char) : bool := ((48 <=? c) && (c <=? 57))%N.

Fixpoint take_digits (s : str) : str * str :=
  match s with
  | c :: t => if is_digit c
              then let '(d, r) := take_digits t in (c :: d, r)
              else ([], s)
  | [] => ([], [])
  end.

Definition N_of_digits (ds : str) : N :=
  fold_left (fun acc d => (10 * acc + (d - 48))%N) ds 0%N.

Definition lower (c : char) : char :=
  if ((65 <=? c) && (c <=? 90))%N then (c + 32)%N else c.

Definition take_sign (s : str) : bool * str :=
  match s with
  | 45%N :: t => (true, t)
  | 43%N :: t => (false, t)
  | _ => (false, s)
  end.

(** The exponent part: empty, or [e] / [E], an optional sign and digits. *)
Definition parse_exponent (s : str) : option (option Z) :=
  match s with
  | [] => Some None
  | c :: t =>
      if (lower c =? 101)%N then
        let '(neg, t') := take_sign t in
        match take_digits t' with
        | ((_ :: _) as ds, []) =>
            let e := Z.of_N (N_of_digits ds) in
            Some (Some (if neg then (- e)%Z else e))
        | _ => None
        end
      else None
  end.

(** One token read as a number: surrounding ASCII blanks are skipped; the
    token is an optionally signed decimal numeral, with an optional
    fraction and exponent, or one of [inf], [infinity], [nan] in any
    case.  An integer numeral gives an integer, [nan] gives NaN, anything
    else numeric gives a float; [None] when the token is not a number. *)
Definition parse_number (s : str) : option cell :=
  let '(neg, body) := take_sign (strip s) in
  let low := map lower body in
  if str_eqb low (u "inf") || str_eqb low (u "infinity") then
    Some (VFloat (Inf neg))
  else if str_eqb low (u "nan") then Some VNaN
  else
    let '(ip, r1) := take_digits body in
    match r1 with
    | [] =>
        match ip with
        | [] => None
        | _ => let n := Z.of_N (N_of_digits ip) in
               Some (VInt (if neg then (- n)%Z else n))
        end
    | 46%N :: r2 =>
        let '(fp, r3) := take_digits r2 in
        match ip ++ fp, parse_exponent r3 with
        | _ :: _, Some ex =>
            let e := match ex with Some e => e | None => 0%Z end in
            Some (VFloat (Finite neg (N_of_digits (ip ++ fp))
                                 (e - Z.of_nat (length fp))))
        | _, _ => None
        end
    | _ =>
        match ip, parse_exponent r1 with
        | _ :: _, Some (Some e) =>
            Some (VFloat (Finite neg (N_of_digits ip) e))
        | _, _ => None
        end
    end.

(** With [errors="coerce"] whatever is not a number becomes NaN. *)
Definition coerce_cell (c : cell) : cell :=
  match c with
  | VStr s => match parse_number s with Some v => v | None => VNaN end
  | VInt z => VInt z
  | VFloat f => VFloat f
  | VNaN | VNone | VTime _ => VNaN
  end.

Definition is_int (c : cell) : bool :=
  match c with VInt _ => true | _ => false end.

Definition to_float (c : cell) : cell :=
  match c with
  | VInt z => VFloat (Finite (z <? 0)%Z (Z.abs_N z) 0)
  | _ => c
  end.

(** The column stays an integer column when every value is an integer;
    otherwise it is a float column. *)
Definition to_numeric (col : list cell) : list cell :=
  let cs := map coerce_cell col in
  if forallb is_int cs then cs else map to_float cs.

(** ** Frames

    A frame is its ordered column labels and its rows; a row binds each
    label to a cell, in column order (the records of
    [df.to_dict(orient="records")]). *)

Definition row := list (str * cell).

Record frame : Type := Frame { columns : list str; rows : list row }.

(** Missing labels read as NaN; only reached on rows that do not carry
    the columns of their frame. *)
Fixpoint row_get (c : str) (r : row) : cell :=
  match r with
  | [] => VNaN
  | (k, v) :: t => if str_eqb k c then v else row_get c t
  end.

Definition has_label (c : str) (r : row) : bool := mem c (map fst r).

(** Assignment to a label: the cells under that label are replaced; a
    new label is added at the end. *)
Definition row_set (c : str) (v : cell) (r : row) : row :=
  if has_label c r
  then map (fun kv => if str_eqb (fst kv) c then (fst kv, v) else kv) r
  else r ++ [(c, v)].

Definition count_label (c : str) (l : list str) : nat :=
  List.length (filter (str_eqb c) l).

(** [df[c]] read as one Series.  When several columns carry the label
    pandas hands back a frame, on which the Series operations of the
    sources fail; the model raises at the lookup. *)
Definition getitem (df : frame) (c : str) : result (list cell) :=
  match count_label c (columns df) with
  | O => Raise (KeyError c)
  | S O => Ok (map (row_get c) (rows df))
  | _ => Raise (AmbiguousLabel c)
  end.

(** [df[c] = values], one value per row. *)
Definition setitem (df : frame) (c : str) (vals : list cell) : frame :=
  Frame (if mem c (columns df) then columns df else columns df ++ [c])
        (map (fun rv => row_set c (snd rv) (fst rv)) (combine (rows df) vals)).

(** [df[c] = scalar]. *)
Definition setitem_scalar (df : frame) (c : str) (v : cell) : frame :=
  Frame (if mem c (columns df) then columns df else columns df ++ [c])
        (map (row_set c v) (rows df)).

(** The bindings of a row under one label. *)
Definition group (c : str) (r : row) : row :=
  filter (fun kv => str_eqb (fst kv) c) r.

(** [df[[c1, ..., cn]]] for labels that are columns of [df]: the columns
    carrying each label, in the order of the labels. *)
Definition select (df : frame) (cs : list str) : frame :=
  Frame (flat_map (fun c => filter (str_eqb c) (columns df)) cs)
        (map (fun r => flat_map (fun c => group c r) cs) (rows df)).

(** [df.rename(columns=mapping)]. *)
Fixpoint lookup {A} (k : str) (m : list (str * A)) : option A :=
  match m with
  | [] => None
  | (k', v) :: t => if str_eqb k' k then Some v else lookup k t
  end.

Definition rename_label (mapping : list (str * str)) (c : str) : str :=
  match lookup c mapping with Some c' => c' | None => c end.

Definition rename (mapping : list (str * str)) (df : frame) : frame :=
  Frame (map (rename_label mapping) (columns df))
        (map (map (fun kv => (rename_label mapping (fst kv), snd kv))) (rows df)).

(** A function applied to every cell of the frame. *)
Definition map_cells (f : cell -> cell) (df : frame) : frame :=
  Frame (columns df) (map (map (fun kv => (fst kv, f (snd kv)))) (rows df)).

(** [obj.replace({token: None, ...})]: string cells equal to one of the
    tokens become None. *)
Definition replace_with_none (tokens : list str) (c : cell) : cell :=
  match c with
  | VStr s => if mem s tokens then VNone else c
  | _ => c
  end.

End Frames.

(** A loop whose body may raise: [for x in xs: s = body(s, x)]. *)
Fixpoint for_each {A S : Type} (body : S -> A -> result S) (xs : list A) (s : S)
  : result S :=
  match xs with
  | [] => Ok s
  | x :: rest => bind (body s x) (for_each body rest)
  end.

(* ================================================================== *)
(** * [src/transformer.py] *)

Module Transformer.
Import Text Frames.
Local Open Scope result_scope.

(** ** [DimensionTransformer] *)
Module Dimension.

Definition COLUMN_MAPPING : list (str * str) :=
  [(u "Key", u "key"); (u "Title", u "title"); (u "Description", u "description")].

Definition rename_columns (df : frame) : frame := rename COLUMN_MAPPING df.

(** [.astype(str).str.strip()] on one cell. *)
Definition strip_cell (c : cell) : cell := VStr (strip (py_str c)).

Definition clean_column (df : frame) (col : str) : result frame :=
  if mem col (columns df) then
    vals <- getitem df col ;;
    let df1 := setitem df col (map strip_cell vals) in
    vals1 <- getitem df1 col ;;
    Ok (setitem df1 col (map (replace_with_none [u "nan"; u "None"]) vals1))
  else Ok df.

Definition clean_strings (df : frame) : result frame :=
  for_each clean_column [u "key"; u "title"; u "description"] df.

Definition handle_nulls (df : frame) : frame :=
  map_cells (replace_with_none [[]; u " "]) df.

(** [now] is the reading of the clock, [pd.Timestamp.now(tz="UTC")]. *)
Definition add_audit_columns (now : str) (df : frame) : frame :=
  setitem_scalar df (u "ingested_at") (VTime now).

Definition transform (now : str) (df : frame) : result frame :=
  df1 <- clean_strings (rename_columns df) ;;
  Ok (add_audit_columns now (handle_nulls df1)).

End Dimension.

(** ** [FactTransformer] *)
Module Fact.

Definition COLUMN_MAPPING : list (str * str) :=
  [(u "TravelMotives", u "travel_motive_key");
   (u "Population", u "population_key");
   (u "TravelModes", u "travel_mode_key");
   (u "Margins", u "margin_key");
   (u "RegionCharacteristics", u "region_key");
   (u "Periods", u "period_key");
   (u "Trips_1", u "trips_daily");
   (u "DistanceTravelled_2", u "distance_daily");
   (u "TimeTravelled_3", u "time_daily");
   (u "Trips_4", u "trips_yearly");
   (u "DistanceTravelled_5", u "distance_yearly");
   (u "TimeTravelled_6", u "time_yearly")].

Definition FK_COLUMNS : list str :=
  [u "travel_motive_key"; u "population_key"; u "travel_mode_key";
   u "margin_key"; u "region_key"; u "period_key"].

Definition METRIC_COLUMNS : list str :=
  [u "trips_daily"; u "distance_daily"; u "time_daily";
   u "trips_yearly"; u "distance_yearly"; u "time_yearly"].

Definition rename_columns (df : frame) : frame := rename COLUMN_MAPPING df.

Definition drop_unused_columns (df : frame) : frame :=
  let keep := [u "fact_id"] ++ FK_COLUMNS ++ METRIC_COLUMNS in
  select df (filter (fun c => mem c (columns df)) keep).

Definition _hash_row (r : row) : str :=
  let key_string := join (u "|") (map (fun col => py_str (row_get col r)) FK_COLUMNS) in
  Md5.hexdigest (encode key_string).

(** [row[col]] raises for a label that is not a column, so the hash is
    only computed on frames that have the six foreign keys. *)
Definition compute_fact_id (df : frame) : result frame :=
  for_each (fun (_ : unit) col => getitem df col ;;; Ok tt) FK_COLUMNS tt ;;;
  Ok (setitem df (u "fact_id") (map (fun r => VStr (_hash_row r)) (rows df))).

Definition strip_column (df : frame) (col : str) : result frame :=
  vals <- getitem df col ;;
  Ok (setitem df col (map Dimension.strip_cell vals)).

Definition numeric_column (df : frame) (col : str) : result frame :=
  vals <- getitem df col ;;
  Ok (setitem df col (to_numeric vals)).

Definition cast_types (df : frame) : result frame :=
  df1 <- for_each strip_column FK_COLUMNS df ;;
  for_each numeric_column METRIC_COLUMNS df1.

(** [replace({".": float("nan")})] on one cell. *)
Definition replace_dot (c : cell) : cell :=
  match c with
  | VStr s => if str_eqb s (u ".") then VNaN else c
  | _ => c
  end.

(** [df.where(pd.notnull(df), None)] on one cell. *)
Definition where_notnull (c : cell) : cell := if notnull c then c else VNone.

Definition handle_nulls (df : frame) : result frame :=
  for_each (fun (_ : unit) col => getitem df col ;;; Ok tt) METRIC_COLUMNS tt ;;;
  let df1 :=
    Frame (columns df)
          (map (map (fun kv => if mem (fst kv) METRIC_COLUMNS
                               then (fst kv, replace_dot (snd kv)) else kv))
               (rows df)) in
  Ok (map_cells where_notnull df1).

Definition add_audit_columns (now : str) (df : frame) : frame :=
  setitem_scalar df (u "ingested_at") (VTime now).

Definition column_order : list str :=
  [u "fact_id"] ++ FK_COLUMNS ++ METRIC_COLUMNS ++ [u "ingested_at"].

Definition reorder_columns (df : frame) : frame :=
  select df (filter (fun c => mem c (columns df)) column_order).

(** The methods of the class, and what calling one does to [self.df]. *)
Inductive method : Type :=
| RenameColumns | DropUnusedColumns | ComputeFactId | CastTypes
| HandleNulls | AddAuditColumns | ReorderColumns.

Definition call (now : str) (df : frame) (m : method) : result frame :=
  match m with
  | RenameColumns => Ok (rename_columns df)
  | DropUnusedColumns => Ok (drop_unused_columns df)
  | ComputeFactId => compute_fact_id df
  | CastTypes => cast_types df
  | HandleNulls => handle_nulls df
  | AddAuditColumns => Ok (add_audit_columns now df)
  | ReorderColumns => Ok (reorder_columns df)
  end.

(** The chain of calls in the body of [transform]. *)
Definition transform_chain : list method :=
  [RenameColumns; CastTypes; HandleNulls; ComputeFactId;
   AddAuditColumns; ReorderColumns].

Definition run_chain (now : str) (ms : list method) (df : frame) : result frame :=
  for_each (call now) ms df.

Definition transform (now : str) (df : frame) : result frame :=
  run_chain now transform_chain df.

End Fact.

End Transformer.

(* ================================================================== *)
(** * Python dictionaries

    Insertion-ordered: assigning to a key that is present keeps its
    place, a new key goes to the end. *)

Module Dict.
Import Text.

Definition dict (V : Type) := list (str * V).

Definition get {V} (k : str) (d : dict V) : option V := Frames.lookup k d.

Definition has_key {V} (k : str) (d : dict V) : bool := mem k (map fst d).

Fixpoint set {V} (k : str) (v : V) (d : dict V) : dict V :=
  match d with
  | [] => [(k, v)]
  | (k', v') :: t => if str_eqb k' k then (k', v) :: t else (k', v') :: set k v t
  end.

Definition keys {V} (d : dict V) : list str := map fst d.

(** [d[k]]. *)
Definition item {V} (d : dict V) (k : str) : result V :=
  match get k d with
  | Some v => Ok v
  | None => Raise (KeyError k)
  end.

End Dict.

(* ================================================================== *)
(** * [src/parser.py] *)

Module Parser.
Import Text Frames.

(** ** The regular expression of [_find_sections]

    A backtracking matcher for the constructs the pattern uses: line
    anchors in MULTILINE mode, single characters, optional characters,
    greedy repetition of a character class, and one capturing group. *)

Inductive item : Type :=
| Bol                                   (* ^ *)
| Eol                                   (* $ *)
| One (cls : char -> bool)              (* one character of the class *)
| Opt (cls : char -> bool)              (* x? *)
| Many (cls : char -> bool) (least : nat) (* x* (least 0) and x+ (least 1) *)
| GroupOpen                             (* opening parenthesis *)
| GroupClose.                           (* closing parenthesis *)

Definition NL : char := 10%N.
Definition QUOTE : char := 34%N.
Definition BOM : char := 0xFEFF%N.

(** The pattern of the source: BOL, any whitespace, an optional U+FEFF,
    a double quote, a group of one or more characters other than the
    double quote, a double quote, any whitespace, EOL. *)
Definition header_pattern : list item :=
  [Bol; Many isspace 0; Opt (N.eqb BOM); One (N.eqb QUOTE);
   GroupOpen; Many (fun c => negb (N.eqb c QUOTE)) 1; GroupClose;
   One (N.eqb QUOTE); Many isspace 0; Eol].

(** The matcher's position: the text before it (last character first),
    the text after it, where the group was opened and what it captured. *)
Record mstate : Type := MState {
  before : str;
  after : str;
  gstart : nat;
  gtext : str
}.

Definition pos (st : mstate) : nat := List.length (before st).

Definition at_bol (st : mstate) : bool :=
  match before st with [] => true | c :: _ => N.eqb c NL end.

Definition at_eol (st : mstate) : bool :=
  match after st with [] => true | c :: _ => N.eqb c NL end.

Definition with_cursor (st : mstate) (bef aft : str) : mstate :=
  MState bef aft (gstart st) (gtext st).

Definition or_else {A} (x : option A) (y : unit -> option A) : option A :=
  match x with Some r => Some r | None => y tt end.

Fixpoint run (p : list item) (st : mstate) {struct p} : option mstate :=
  match p with
  | [] => Some st
  | Bol :: p' => if at_bol st then run p' st else None
  | Eol :: p' => if at_eol st then run p' st else None
  | One cls :: p' =>
      match after st with
      | c :: t => if cls c then run p' (with_cursor st (c :: before st) t) else None
      | [] => None
      end
  | Opt cls :: p' =>
      match after st with
      | c :: t =>
          if cls c
          then or_else (run p' (with_cursor st (c :: before st) t))
                       (fun _ => run p' st)
          else run p' st
      | [] => run p' st
      end
  | Many cls least :: p' =>
      (fix many (bef aft : str) (n : nat) {struct aft} : option mstate :=
         let stop := fun _ : unit =>
           if (least <=? n)%nat then run p' (with_cursor st bef aft) else None in
         match aft with
         | c :: t =>
             if cls c then or_else (many (c :: bef) t (S n)) stop else stop tt
         | [] => stop tt
         end) (before st) (after st) O
  | GroupOpen :: p' => run p' (MState (before st) (after st) (pos st) (gtext st))
  | GroupClose :: p' =>
      run p' (MState (before st) (after st) (gstart st)
                     (rev (firstn (pos st - gstart st) (before st))))
  end.

(** [re.findall(pattern, text, re.MULTILINE)] for a pattern with one
    group: the captures of the successive non-overlapping matches, the
    search for the next one starting where the previous match ended. *)
Fixpoint scan (p : list item) (bef aft : str) (skip : nat) {struct aft} : list str :=
  match skip with
  | S k =>
      match aft with
      | [] => []
      | c :: t => scan p (c :: bef) t k
      end
  | O =>
      match run p (MState bef aft 0 []) with
      | Some st' =>
          gtext st' ::
          match aft with
          | [] => []
          | c :: t => scan p (c :: bef) t (pos st' - List.length bef - 1)
          end
      | None =>
          match aft with
          | [] => []
          | c :: t => scan p (c :: bef) t 0
          end
      end
  end.

Definition findall (p : list item) (text : str) : list str := scan p [] text 0.

Definition _find_sections (content : str) : list str :=
  findall header_pattern content.

(** ** [MetadataParser.parse] *)

Definition exn_str (e : exn) : str :=
  match e with
  | KeyError k => u "'" ++ k ++ u "'"
  | AmbiguousLabel k => k
  | AttributeError n => n
  | SchemaError c r => c ++ u ": " ++ r
  | FileNotFoundError => u "No such file or directory"
  | ReadError m => m
  | DatabaseError m => m
  end.

Section WithReader.

(** [pd.read_csv(io.StringIO(text), sep=..., skiprows=..., quotechar=...)]:
    the reader of pandas, which either returns a frame or raises. *)
Variable read_csv : str -> forall (sep : str) (skiprows : nat) (quotechar : char), result frame.

(** What a parser object holds while [parse] runs: the mapping being
    built and the lines printed so far. *)
Record pstate : Type := PState {
  dataframes : Dict.dict frame;
  printed : list str
}.

Definition full_marker (marker : str) : str := [QUOTE] ++ marker ++ [QUOTE].

(** [start] and [end] of the loop body, for the section [marker] followed
    by the sections [rest]. *)
Definition block_start (content marker : str) : Z :=
  find content (full_marker marker ++ [NL]).

Definition block_end (content : str) (rest : list str) : Z :=
  match rest with
  | next :: _ => find content (full_marker next ++ [NL])
  | [] => Z.of_nat (List.length content)
  end.

Definition block_text (content marker : str) (rest : list str) : str :=
  strip (slice content (block_start content marker) (block_end content rest)).

(** One turn of the loop over [enumerate(sections)]. *)
Definition parse_section (sep content marker : str) (rest : list str)
           (st : pstate) : pstate :=
  if (block_start content marker =? -1)%Z then st
  else
    match read_csv (block_text content marker rest) sep 1 QUOTE with
    | Ok df => PState (Dict.set marker df (dataframes st)) (printed st)
    | Raise e =>
        PState (dataframes st)
               (printed st ++
                [u "Error while parsing section '" ++ marker ++ u "': " ++ exn_str e])
    end.

Fixpoint parse_sections (sep content : str) (sections : list str) (st : pstate)
  : pstate :=
  match sections with
  | [] => st
  | marker :: rest =>
      parse_sections sep content rest (parse_section sep content marker rest st)
  end.

(** [parse] on a fresh parser; [file] is the text of the file at
    [filepath], [None] when there is no such file. *)
Definition parse (file : option str) (sep : str) : result pstate :=
  match file with
  | None => Raise FileNotFoundError
  | Some content =>
      Ok (parse_sections sep content (_find_sections content) (PState [] []))
  end.

End WithReader.

End Parser.

(* ================================================================== *)
(** * [src/validator.py] *)

Module Validator.
Import Text Frames.
Local Open Scope result_scope.

(** ** The part of pandera the schemas use

    A [Column] has an optional data type, the flags [unique] and
    [nullable] and an optional [Check.isin]; a [DataFrameSchema] with
    [strict=False] lists required columns and ignores the others.  A
    column has a data type when each of its cells is of that type or
    missing. *)

Inductive dtype : Type := DStr | DFloat.

Record Column : Type := MkColumn {
  col_dtype : option dtype;
  col_isin : option (list cell);
  col_unique : bool;
  col_nullable : bool
}.

Definition DataFrameSchema := list (str * Column).

Definition has_dtype (t : dtype) (c : cell) : bool :=
  match t, c with
  | _, VNaN | _, VNone => true
  | DStr, VStr _ => true
  | DFloat, VFloat _ => true
  | _, _ => false
  end.

Fixpoint has_duplicates (vals : list cell) : bool :=
  match vals with
  | [] => false
  | v :: rest => existsb (cell_eqb v) rest || has_duplicates rest
  end.

Definition check_nullable (name : str) (c : Column) (vals : list cell) : result unit :=
  if negb (col_nullable c) && existsb isna vals
  then Raise (SchemaError name (u "non-nullable series contains null values"))
  else Ok tt.

Definition check_unique (name : str) (c : Column) (vals : list cell) : result unit :=
  if col_unique c && has_duplicates vals
  then Raise (SchemaError name (u "series contains duplicate values"))
  else Ok tt.

Definition check_dtype (name : str) (c : Column) (vals : list cell) : result unit :=
  match col_dtype c with
  | Some t =>
      if forallb (has_dtype t) vals then Ok tt
      else Raise (SchemaError name (u "series has the wrong data type"))
  | None => Ok tt
  end.

(** Checks skip missing values. *)
Definition run_checks (name : str) (c : Column) (vals : list cell) : result unit :=
  match col_isin c with
  | Some allowed =>
      if forallb (fun v => isna v || existsb (cell_eqb v) allowed) vals then Ok tt
      else Raise (SchemaError name (u "isin"))
  | None => Ok tt
  end.

Definition validate_column (df : frame) (_ : unit) (nc : str * Column) : result unit :=
  let '(name, c) := nc in
  vals <- getitem df name ;;
  check_nullable name c vals ;;;
  check_unique name c vals ;;;
  check_dtype name c vals ;;;
  run_checks name c vals.

Definition check_presence (df : frame) (_ : unit) (nc : str * Column) : result unit :=
  if mem (fst nc) (columns df) then Ok tt
  else Raise (SchemaError (fst nc) (u "column not in dataframe")).

(** [schema.validate(df)]: the frame itself when every check passes. *)
Definition validate (schema : DataFrameSchema) (df : frame) : result frame :=
  for_each (check_presence df) schema tt ;;;
  for_each (validate_column df) schema tt ;;;
  Ok df.

(** ** The schemas of the module *)

Definition dimension_schema : DataFrameSchema :=
  [(u "key", MkColumn (Some DStr) None true false);
   (u "title", MkColumn (Some DStr) None false false);
   (u "description", MkColumn (Some DStr) None false true);
   (u "ingested_at", MkColumn None None false false)].

(** [dimensions[name]["key"]] *)
Definition dimension_keys (dimensions : Dict.dict frame) (name : str)
  : result (list cell) :=
  df <- Dict.item dimensions name ;;
  getitem df (u "key").

Definition fk_column (allowed : list cell) : Column :=
  MkColumn (Some DStr) (Some allowed) false false.

Definition metric_column : Column := MkColumn (Some DFloat) None false true.

Definition fact_schema (dimensions : Dict.dict frame) : result DataFrameSchema :=
  tm <- dimension_keys dimensions (u "TravelMotives") ;;
  po <- dimension_keys dimensions (u "Population") ;;
  mo <- dimension_keys dimensions (u "TravelModes") ;;
  ma <- dimension_keys dimensions (u "Margins") ;;
  re <- dimension_keys dimensions (u "RegionCharacteristics") ;;
  pe <- dimension_keys dimensions (u "Periods") ;;
  Ok [(u "fact_id", MkColumn (Some DStr) None false false);
      (u "travel_motive_key", fk_column tm);
      (u "population_key", fk_column po);
      (u "travel_mode_key", fk_column mo);
      (u "margin_key", fk_column ma);
      (u "region_key", fk_column re);
      (u "period_key", fk_column pe);
      (u "trips_daily", metric_column);
      (u "distance_daily", metric_column);
      (u "time_daily", metric_column);
      (u "trips_yearly", metric_column);
      (u "distance_yearly", metric_column);
      (u "time_yearly", metric_column);
      (u "ingested_at", MkColumn None None false false)].

(** ** [DataValidator] (the progress lines it prints are left out) *)

Definition validate_dimensions (dimensions : Dict.dict frame)
  : result (Dict.dict frame) :=
  for_each (fun validated (item : str * frame) =>
              df <- validate dimension_schema (snd item) ;;
              Ok (Dict.set (fst item) df validated))
           dimensions [].

Definition validate_fact (dimensions : Dict.dict frame) (fact : frame)
  : result frame :=
  schema <- fact_schema dimensions ;;
  validate schema fact.

Definition validate_all (dimensions : Dict.dict frame) (fact : frame)
  : result bool :=
  validate_dimensions dimensions ;;;
  validate_fact dimensions fact ;;;
  Ok true.

End Validator.

(* ================================================================== *)
(** * [src/loader.py] *)

Module Loader.
Import Text Frames.
Local Open Scope result_scope.

(** ** The statement built by [_build_upsert_query]

    The parts the f-string is assembled from, and the text itself. *)
Record statement : Type := Statement {
  target : str;             (* schema prefix and table name *)
  insert_columns : list str;
  conflict_column : str;
  update_columns : list str
}.

(** [SCHEMA] is the schema of the database configuration. *)
Definition _build_upsert_query (SCHEMA table_name : str) (columns : list str)
           (conflict : str) (updates : option (list str)) : statement :=
  let schema_prefix := match SCHEMA with [] => [] | _ => SCHEMA ++ u "." end in
  let update_columns :=
    match updates with
    | Some cs => cs
    | None => filter (fun c => negb (str_eqb c conflict)) columns
    end in
  Statement (schema_prefix ++ table_name) columns conflict update_columns.

Definition sql_text (q : statement) : str :=
  let indent := u "            " in
  let cols_str := join (u ", ") (insert_columns q) in
  let placeholders := join (u ", ") (map (fun c => u ":" ++ c) (insert_columns q)) in
  let updates :=
    join (u ", ") (map (fun c => c ++ u " = EXCLUDED." ++ c) (update_columns q)) in
  [Parser.NL] ++ indent ++ u "INSERT INTO " ++ target q ++ u " (" ++ cols_str ++ u ")" ++
  [Parser.NL] ++ indent ++ u "VALUES (" ++ placeholders ++ u ")" ++
  [Parser.NL] ++ indent ++ u "ON CONFLICT (" ++ conflict_column q ++
     u ") DO UPDATE SET " ++ updates ++
  [Parser.NL] ++ u "        ".

(** ** The target store

    A table is the list of its rows; the database maps qualified table
    names to tables.  The statement is run once per record: the record
    supplies one value per inserted column; when a stored row has the
    same non-null value in the conflict column, its update columns take
    the values of the proposed row, otherwise the proposed row is
    added. *)
Definition table := list row.
Definition database := Dict.dict table.

Definition proposed (q : statement) (rec : row) : row :=
  map (fun c => (c, row_get c rec)) (insert_columns q).

Definition conflicts (q : statement) (new old : row) : bool :=
  notnull (row_get (conflict_column q) new) &&
  cell_eqb (row_get (conflict_column q) old) (row_get (conflict_column q) new).

Definition do_update (q : statement) (new old : row) : row :=
  fold_left (fun r c => row_set c (row_get c new) r) (update_columns q) old.

Fixpoint upsert_row (q : statement) (new : row) (t : table) : table :=
  match t with
  | [] => [new]
  | old :: rest =>
      if conflicts q new old then do_update q new old :: rest
      else old :: upsert_row q new rest
  end.

Definition execute_one (q : statement) (t : table) (rec : row) : result table :=
  if forallb (fun c => has_label c rec) (insert_columns q)
  then Ok (upsert_row q (proposed q rec) t)
  else Raise (DatabaseError (u "a value is required for a bind parameter")).

(** [with engine.begin() as conn: conn.execute(text(query), records)]:
    one transaction; when a record fails nothing of the batch is kept. *)
Definition execute (q : statement) (records : list row) (db : database)
  : result database :=
  match Dict.get (target q) db with
  | None => Raise (DatabaseError (u "relation does not exist"))
  | Some t =>
      t' <- for_each (execute_one q) records t ;;
      Ok (Dict.set (target q) t' db)
  end.

(** ** [DimensionsLoader] *)

Definition TABLE_MAPPING : list (str * str) :=
  [(u "Population", u "dim_population");
   (u "TravelMotives", u "dim_travel_motives");
   (u "TravelModes", u "dim_travel_modes");
   (u "Margins", u "dim_margins");
   (u "RegionCharacteristics", u "dim_regions");
   (u "Periods", u "dim_periods")].

Definition DIMENSION_COLUMNS : list str :=
  [u "key"; u "title"; u "description"; u "ingested_at"].

Definition dimension_query (SCHEMA table_name : str) : statement :=
  _build_upsert_query SCHEMA table_name DIMENSION_COLUMNS (u "key")
    (Some [u "title"; u "description"; u "ingested_at"]).

(** The number of records written and the database afterwards. *)
Definition _upsert_table (SCHEMA : str) (df : frame) (table_name : str)
           (db : database) : result (nat * database) :=
  let records := rows df in
  db' <- execute (dimension_query SCHEMA table_name) records db ;;
  Ok (List.length records, db').

(** The tables are written one transaction after the other: when one
    fails, the earlier ones stay written.  The database handed back is
    the one reached, whether or not the load raised. *)
Fixpoint load_dimensions (SCHEMA : str) (dimensions : Dict.dict frame)
         (results : Dict.dict nat) (db : database)
  : result (Dict.dict nat) * database :=
  match dimensions with
  | [] => (Ok results, db)
  | (source_name, df) :: rest =>
      match lookup source_name TABLE_MAPPING with
      | None => load_dimensions SCHEMA rest results db
      | Some table_name =>
          match _upsert_table SCHEMA df table_name db with
          | Ok (n, db') =>
              load_dimensions SCHEMA rest (Dict.set table_name n results) db'
          | Raise e => (Raise e, db)
          end
      end
  end.

(** ** [FactLoader] *)

Definition TABLE_NAME : str := u "fact_mobility".

Definition FACT_COLUMNS : list str :=
  [u "fact_id"; u "travel_motive_key"; u "population_key"; u "travel_mode_key";
   u "margin_key"; u "region_key"; u "period_key"; u "trips_daily";
   u "distance_daily"; u "time_daily"; u "trips_yearly"; u "distance_yearly";
   u "time_yearly"; u "ingested_at"].

Definition METRIC_COLUMNS : list str :=
  [u "trips_daily"; u "distance_daily"; u "time_daily"; u "trips_yearly";
   u "distance_yearly"; u "time_yearly"; u "ingested_at"].

Definition fact_query (SCHEMA : str) : statement :=
  _build_upsert_query SCHEMA TABLE_NAME FACT_COLUMNS (u "fact_id")
    (Some METRIC_COLUMNS).

Definition load_fact (SCHEMA : str) (df : frame) (db : database)
  : result (nat * database) :=
  let records := rows df in
  db' <- execute (fact_query SCHEMA) records db ;;
  Ok (List.length records, db').

End Loader.

(* ================================================================== *)
(** * [src/etl.py] *)

Module Etl.
Import Text Frames.

Inductive stage : Type := Extract | Transform | Validate | Load.

(** [SourceConfig] and [DatabaseConfig], as far as the pipeline reads
    them; a path is given by what it holds ([None]: no such file). *)
Record config : Type := Config {
  METADATA_PATH : option str;
  DATA_PATH : option str;
  SEPARATOR : str;
  SCHEMA : str
}.

Record ETLResult : Type := MkResult {
  dimensions_loaded : Dict.dict nat;
  facts_loaded : nat
}.

Definition total_dimensions (r : ETLResult) : nat :=
  fold_right Nat.add O (map snd (dimensions_loaded r)).

(** The pipeline object together with what it acts on: the target
    store, the clock (its successive readings) and the stages it has
    logged entering. *)
Record pipeline : Type := Pipeline {
  raw_dimensions : Dict.dict frame;
  raw_facts : option frame;
  transformed_dimensions : Dict.dict frame;
  transformed_facts : option frame;
  store : Loader.database;
  clock : nat -> str;
  ticks : nat;
  entered : list stage
}.

Definition initial (db : Loader.database) (clk : nat -> str) : pipeline :=
  Pipeline [] None [] None db clk O [].

(** A method of the pipeline either returns or raises, and leaves the
    pipeline in some state in both cases. *)
Definition M (A : Type) : Type := pipeline -> result A * pipeline.

Definition ret {A} (a : A) : M A := fun p => (Ok a, p).

Definition raise {A} (e : exn) : M A := fun p => (Raise e, p).

Definition bindM {A B} (m : M A) (k : A -> M B) : M B :=
  fun p => match m p with
           | (Ok a, p') => k a p'
           | (Raise e, p') => (Raise e, p')
           end.

Definition lift {A} (r : result A) : M A := fun p => (r, p).

Declare Scope pipeline_scope.
Delimit Scope pipeline_scope with pipeline.
Notation "x <-- m ;; k" := (bindM m (fun x => k))
  (at level 61, m at next level, right associativity) : pipeline_scope.
Notation "m >> k" := (bindM m (fun _ => k))
  (at level 61, right associativity) : pipeline_scope.
Local Open Scope pipeline_scope.

Definition log_stage (s : stage) : M unit :=
  fun p => (Ok tt, Pipeline (raw_dimensions p) (raw_facts p)
                            (transformed_dimensions p) (transformed_facts p)
                            (store p) (clock p) (ticks p) (entered p ++ [s])).

(** [pd.Timestamp.now(tz="UTC")] *)
Definition read_clock : M str :=
  fun p => (Ok (clock p (ticks p)),
            Pipeline (raw_dimensions p) (raw_facts p)
                     (transformed_dimensions p) (transformed_facts p)
                     (store p) (clock p) (S (ticks p)) (entered p)).

Definition set_raw (dims : Dict.dict frame) (facts : frame) : M unit :=
  fun p => (Ok tt, Pipeline dims (Some facts)
                            (transformed_dimensions p) (transformed_facts p)
                            (store p) (clock p) (ticks p) (entered p)).

Definition set_transformed_dimension (name : str) (df : frame) : M unit :=
  fun p => (Ok tt, Pipeline (raw_dimensions p) (raw_facts p)
                            (Dict.set name df (transformed_dimensions p))
                            (transformed_facts p)
                            (store p) (clock p) (ticks p) (entered p)).

Definition set_transformed_facts (df : frame) : M unit :=
  fun p => (Ok tt, Pipeline (raw_dimensions p) (raw_facts p)
                            (transformed_dimensions p) (Some df)
                            (store p) (clock p) (ticks p) (entered p)).

Definition set_store (db : Loader.database) : M unit :=
  fun p => (Ok tt, Pipeline (raw_dimensions p) (raw_facts p)
                            (transformed_dimensions p) (transformed_facts p)
                            db (clock p) (ticks p) (entered p)).

Definition get {A} (f : pipeline -> A) : M A := fun p => (Ok (f p), p).

Definition DIMENSION_NAMES : list str :=
  [u "TravelMotives"; u "Population"; u "TravelModes"; u "Margins";
   u "RegionCharacteristics"; u "Periods"].

Section WithReader.

Variable read_csv : str -> forall (sep : str) (skiprows : nat) (quotechar : char), result frame.

(** [DataSource(config).read()] *)
Definition datasource_read (cfg : config) : result frame :=
  match DATA_PATH cfg with
  | None => Raise FileNotFoundError
  | Some content => read_csv content (SEPARATOR cfg) 0 Parser.QUOTE
  end.

(** The parser is built with its default separator. *)
Definition extract (cfg : config) : M unit :=
  log_stage Extract >>
  parsed <-- lift (Parser.parse read_csv (METADATA_PATH cfg) (u ";")) ;;
  facts <-- lift (datasource_read cfg) ;;
  set_raw (Parser.dataframes parsed) facts.

Fixpoint transform_dimensions (dims : Dict.dict frame) : M unit :=
  match dims with
  | [] => ret tt
  | (name, df) :: rest =>
      if mem name DIMENSION_NAMES then
        now <-- read_clock ;;
        out <-- lift (Transformer.Dimension.transform now df) ;;
        set_transformed_dimension name out >>
        transform_dimensions rest
      else transform_dimensions rest
  end.

(** A pipeline that has not extracted holds [None] for the facts, which
    the transformer cannot copy. *)
Definition need_frame (f : option frame) : M frame :=
  match f with
  | Some df => ret df
  | None => raise (AttributeError (u "copy"))
  end.

Definition transform : M unit :=
  log_stage Transform >>
  dims <-- get raw_dimensions ;;
  transform_dimensions dims >>
  raw <-- get raw_facts ;;
  facts <-- need_frame raw ;;
  now <-- read_clock ;;
  out <-- lift (Transformer.Fact.transform now facts) ;;
  set_transformed_facts out.

Definition validate : M unit :=
  log_stage Validate >>
  dims <-- get transformed_dimensions ;;
  tf <-- get transformed_facts ;;
  facts <-- need_frame tf ;;
  lift (Validator.validate_all dims facts) >>
  ret tt.

Definition load (cfg : config) : M ETLResult :=
  log_stage Load >>
  dims <-- get transformed_dimensions ;;
  db <-- get store ;;
  let '(r, db1) := Loader.load_dimensions (SCHEMA cfg) dims [] db in
  set_store db1 >>
  dim_results <-- lift r ;;
  tf <-- get transformed_facts ;;
  facts <-- need_frame tf ;;
  written <-- lift (Loader.load_fact (SCHEMA cfg) facts db1) ;;
  set_store (snd written) >>
  ret (MkResult dim_results (fst written)).

Definition run (cfg : config) : M ETLResult :=
  extract cfg >> transform >> validate >> load cfg.

End WithReader.

End Etl.

(* ================================================================== *)
(** * A reader for delimited text

    An executable stand-in for [pandas.read_csv] with the options the
    sources pass, used to run the parser and the pipeline on concrete
    documents.  It follows the tokenizer of pandas: rows end at a line
    feed outside quotes, fields at the separator outside quotes, a quote
    is written twice inside a quoted field; the first [skiprows] lines
    are dropped, then blank lines; the first line left names the
    columns; a later row may be shorter than the one before it (it is
    filled with missing values) but not longer, except the first one,
    whose extra leading fields become the row labels. *)

Module Csv.
Import Text Frames.

(** The fields of the rows of [text]; [inq] says whether the position is
    inside quotes, [field] and [fields] are what has been read of the
    current field and row (last first). *)
Fixpoint tokenize (sep quote : char) (text : str) (inq : bool)
         (field : str) (fields : list str) : list (list str) :=
  match text with
  | [] =>
      match field, fields with
      | [], [] => []
      | _, _ => [rev (rev field :: fields)]
      end
  | c :: t =>
      if inq then
        if N.eqb c quote then
          match t with
          | c' :: t' =>
              if N.eqb c' quote then tokenize sep quote t' true (c :: field) fields
              else tokenize sep quote t false field fields
          | [] => tokenize sep quote t false field fields
          end
        else tokenize sep quote t true (c :: field) fields
      else if N.eqb c quote then
        match field with
        | [] => tokenize sep quote t true field fields
        | _ => tokenize sep quote t false (c :: field) fields
        end
      else if N.eqb c sep then tokenize sep quote t false [] (rev field :: fields)
      else if N.eqb c Parser.NL then
        rev (rev field :: fields) :: tokenize sep quote t false [] []
      else tokenize sep quote t false (c :: field) fields
  end.

Definition is_blank (fields : list str) : bool :=
  match fields with
  | [] => true
  | [f] => forallb (fun c => N.eqb c 32 || N.eqb c 9) f
  | _ => false
  end.

Definition NA_VALUES : list str :=
  [] :: map u ["#N/A"; "#N/A N/A"; "#NA"; "-1.#IND"; "-1.#QNAN"; "-NaN"; "-nan";
         "1.#IND"; "1.#QNAN"; "<NA>"; "N/A"; "NA"; "NULL"; "NaN"; "None";
         "n/a"; "nan"; "null"]%string.

Definition token_cell (tok : str) : cell :=
  if mem tok NA_VALUES then VNaN else VStr tok.

Definition is_number (c : cell) : bool :=
  match c with
  | VStr s => match parse_number s with Some _ => true | None => false end
  | _ => true
  end.

(** A column whose tokens all read as numbers is numeric, otherwise its
    tokens stay text. *)
Definition infer_column (toks : list str) : list cell :=
  let cs := map token_cell toks in
  if forallb is_number cs then to_numeric cs else cs.

(** Rows filled up to the width of the row before them; [None] when a
    row after the first is longer than the one before it. *)
Fixpoint shape_rows (first : bool) (width : nat) (rs : list (list str))
  : option (list (list str)) :=
  match rs with
  | [] => Some []
  | r :: rest =>
      if negb first && (width <? List.length r)%nat then None
      else
        let w := Nat.max width (List.length r) in
        match shape_rows false w rest with
        | Some out => Some ((r ++ repeat [] (w - List.length r)) :: out)
        | None => None
        end
  end.

(** The first [n] columns of a list of rows (and back). *)
Fixpoint transpose {A} (d : A) (n : nat) (rs : list (list A)) : list (list A) :=
  match n with
  | O => []
  | S k => map (fun r => hd d r) rs :: transpose d k (map (fun r => tl r) rs)
  end.

(** Repeated names get a numeric suffix, empty ones a placeholder. *)
Fixpoint mangle (seen names : list str) (i : nat) : list str :=
  match names with
  | [] => []
  | n :: rest =>
      let n0 := match n with
                | [] => u "Unnamed: " ++ str_of_N (N.of_nat i)
                | _ => n
                end in
      let k := count_label n0 seen in
      let n1 := match k with
                | O => n0
                | _ => n0 ++ u "." ++ str_of_N (N.of_nat k)
                end in
      n1 :: mangle (n0 :: seen) rest (S i)
  end.

Definition read_csv (text : str) (sep : str) (skiprows : nat) (quotechar : char)
  : result frame :=
  match sep with
  | [s] =>
      let lines := skipn skiprows (tokenize s quotechar text false [] []) in
      match filter (fun l => negb (is_blank l)) lines with
      | [] => Raise (ReadError (u "No columns to parse from file"))
      | header :: data =>
          let names := mangle [] header O in
          let h := List.length names in
          match shape_rows true h data with
          | None => Raise (ReadError (u "Error tokenizing data"))
          | Some shaped =>
              let w := match shaped with r :: _ => List.length r | [] => h end in
              let cols := map infer_column
                              (transpose [] h (map (skipn (w - h)) shaped)) in
              Ok (Frame names
                        (map (fun r => combine names r)
                             (transpose VNaN (List.length data) cols)))
          end
      end
  | _ => Raise (ReadError (u "unsupported separator"))
  end.

End Csv.

(* ================================================================== *)
(** * The specification's own words

    Three statements of the specification, written out as it words
    them, to be compared with what the sources compute. *)

Module Claimed.
Import Text Frames Transformer.

(** ** The steps of the fact normalization, in the order of the
    specification: the columns outside the model are dropped second. *)
Definition fact_chain : list Fact.method :=
  [Fact.RenameColumns; Fact.DropUnusedColumns; Fact.CastTypes; Fact.HandleNulls;
   Fact.ComputeFactId; Fact.AddAuditColumns; Fact.ReorderColumns].

(** ** Sections of a metadata document, line by line: a header is a whole
    line that, trimmed and without a leading byte-order mark, is a
    quoted, non-empty, quote-free string; the body of a section is made
    of the lines between its header line and the next header line. *)
Fixpoint lines_from (s current : str) : list str :=
  match s with
  | [] => [rev current]
  | c :: t => if N.eqb c Parser.NL then rev current :: lines_from t []
              else lines_from t (c :: current)
  end.

Definition lines (s : str) : list str := lines_from s [].

Definition header_name (line : str) : option str :=
  let t := strip line in
  let t := match t with
           | c :: t' => if N.eqb c Parser.BOM then t' else t
           | [] => t
           end in
  match t with
  | q :: rest =>
      match rev rest with
      | q' :: eman =>
          if N.eqb q Parser.QUOTE && N.eqb q' Parser.QUOTE
             && negb (existsb (N.eqb Parser.QUOTE) eman)
             && negb (Nat.eqb (List.length eman) 0)
          then Some (rev eman) else None
      | [] => None
      end
  | [] => None
  end.

(** The sections in document order, each with the lines of its body;
    [open] is the section being read. *)
Fixpoint bodies_from (ls : list str) (open : option (str * list str))
  : list (str * list str) :=
  let close := match open with Some (n, b) => [(n, rev b)] | None => [] end in
  match ls with
  | [] => close
  | l :: rest =>
      match header_name l with
      | Some n => close ++ bodies_from rest (Some (n, []))
      | None =>
          bodies_from rest
            (match open with Some (n, b) => Some (n, l :: b) | None => None end)
      end
  end.

Definition section_bodies (content : str) : list (str * list str) :=
  bodies_from (lines content) None.

(** ** The validation rules, as the specification lists them. *)
Definition column (c : str) (df : frame) : list cell := map (row_get c) (rows df).

Definition numeric (v : cell) : Prop :=
  match v with VInt _ | VFloat _ => True | _ => False end.

Definition non_null (c : str) (df : frame) : Prop :=
  forall v, In v (column c df) -> isna v = false.

Definition dimension_rules (df : frame) : Prop :=
  non_null (u "key") df /\ NoDup (column (u "key") df) /\
  non_null (u "title") df /\ non_null (u "ingested_at") df.

(** The dimension each foreign key refers to. *)
Definition REFERENCES : list (str * str) :=
  [(u "travel_motive_key", u "TravelMotives");
   (u "population_key", u "Population");
   (u "travel_mode_key", u "TravelModes");
   (u "margin_key", u "Margins");
   (u "region_key", u "RegionCharacteristics");
   (u "period_key", u "Periods")].

Definition fact_rules (dimensions : Dict.dict frame) (fact : frame) : Prop :=
  non_null (u "fact_id") fact /\
  (forall fk name, In (fk, name) REFERENCES ->
     forall v, In v (column fk fact) ->
       exists t, Dict.get name dimensions = Some t /\ In v (column (u "key") t)) /\
  (forall m, In m Fact.METRIC_COLUMNS ->
     forall v, In v (column m fact) -> isna v = true \/ numeric v) /\
  non_null (u "ingested_at") fact.

Definition validation_rules (dimensions : Dict.dict frame) (fact : frame) : Prop :=
  (forall name t, In (name, t) dimensions -> dimension_rules t) /\
  fact_rules dimensions fact.

End Claimed.

(* ================================================================== *)
(** * Sample data *)

Module Samples.
Import Text Frames.

(** A frame from its labels and the cells of its rows. *)
Definition table (labels : list str) (cells : list (list cell)) : frame :=
  Frame labels (map (combine labels) cells).

Definition s (x : string) : cell := VStr (u x).

Definition quoted (x : string) : str := Parser.full_marker (u x).

Definition NL : str := [Parser.NL].

Definition now : str := u "2024-01-01 00:00:00+00:00".
Definition later : str := u "2024-06-30 12:00:00+00:00".

Definition RAW_FACT_LABELS : list str :=
  map u ["TravelMotives"; "Population"; "TravelModes"; "Margins";
         "RegionCharacteristics"; "Periods"; "Trips_1"; "DistanceTravelled_2";
         "TimeTravelled_3"; "Trips_4"; "DistanceTravelled_5"; "TimeTravelled_6"]%string.

(** One raw fact row, with a column the model does not know, a key
    with blanks around it, the sentinel, a missing value and a token
    that is not a number. *)
Definition raw_fact : frame :=
  table (u "ID" :: RAW_FACT_LABELS)
    [[VInt 0; s "  TM1 "; s "P1"; s "M1"; s "MG1"; s "R1"; s "2023JJ00";
      s "."; VFloat (Finite false 1005 (-1)); s "abc";
      VFloat (Finite false 3800 0); VNaN; s "10.5"]].

(** The same row with the blanks removed and other measurements. *)
Definition raw_fact_trimmed : frame :=
  table (u "ID" :: RAW_FACT_LABELS)
    [[VInt 0; s "TM1"; s "P1"; s "M1"; s "MG1"; s "R1"; s "2023JJ00";
      s "."; VFloat (Finite false 1005 (-1)); s "abc";
      VFloat (Finite false 3800 0); VNaN; s "10.5"]].

Definition raw_fact_remeasured : frame :=
  table RAW_FACT_LABELS
    [[s "TM1"; s "P1"; s "M1"; s "MG1"; s "R1"; s "2023JJ00";
      s "1.5"; s "2.5"; s "3.5"; s "4.5"; s "5.5"; s "6.5"]].

Definition raw_dimension : frame :=
  table (map u ["Key"; "Title"; "Description"]%string)
    [[s "  P1  "; s "Pop 1"; VStr []]; [s "P2"; s "Pop 2"; s " "]].

Definition raw_dimension_trimmed : frame :=
  table (map u ["Key"; "Title"; "Description"]%string)
    [[s "P1"; s "Pop 1"; VStr []]; [s "P2"; s "Pop 2"; s " "]].

(** A document whose first section has a row ending in the quoted name
    of the second section. *)
Definition entangled_document : str :=
  quoted "A" ++ NL ++ u "k;t" ++ NL ++ u "1;" ++ quoted "B" ++ NL ++
  quoted "B" ++ NL ++ u "k;t" ++ NL ++ u "2;x" ++ NL.

(** Three sections; a row of the second has more fields than the row
    before it. *)
Definition three_sections : str :=
  quoted "Periods" ++ NL ++ u "key;title;desc" ++ NL ++
  u "2023JJ00;Year 2023;Full year" ++ NL ++ NL ++
  quoted "Broken" ++ NL ++ u "key;title" ++ NL ++ u "1;a" ++ NL ++
  u "2;b;c" ++ NL ++ NL ++
  quoted "Margins" ++ NL ++ u "key;title;desc" ++ NL ++
  u "MG1;Value;The value" ++ NL.

Definition dimension (keys : list string) : frame :=
  table (map u ["key"; "title"; "description"; "ingested_at"]%string)
    (map (fun k => [s k; s "title"; VNone; VTime now]) keys).

Definition six_dimensions : Dict.dict frame :=
  [(u "TravelMotives", dimension ["TM1"; "TM2"]%string);
   (u "Population", dimension ["P1"; "P2"]%string);
   (u "TravelModes", dimension ["M1"]%string);
   (u "Margins", dimension ["MG1"]%string);
   (u "RegionCharacteristics", dimension ["R1"]%string);
   (u "Periods", dimension ["2023JJ00"; "2024JJ00"]%string)].

Definition FACT_LABELS : list str := Transformer.Fact.column_order.

Definition fact_row (id : string) (metric : cell) : list cell :=
  [s id; s "TM1"; s "P1"; s "M1"; s "MG1"; s "R1"; s "2023JJ00";
   metric; VNaN; VNaN; VNaN; VNaN; VNaN; VTime now].

(** A canonical fact table, and one whose first metric holds an
    integer. *)
Definition canonical_fact : frame :=
  table FACT_LABELS [fact_row "f1" (VFloat (Finite false 105 (-1)))].

Definition integer_metric_fact : frame :=
  table FACT_LABELS [fact_row "f1" (VInt 3800)].

(** What the transformers return on the samples. *)
Definition frame_of (r : result frame) : frame :=
  match r with Ok df => df | Raise _ => Frame [] [] end.

Definition fact_out : frame := Eval vm_compute in
    frame_of (Transformer.Fact.transform now raw_fact).

Definition fact_out_remeasured : frame := Eval vm_compute in
    frame_of (Transformer.Fact.transform later raw_fact_remeasured).

Definition dimension_out : frame := Eval vm_compute in
    frame_of (Transformer.Dimension.transform now raw_dimension).

Definition first_row (df : frame) : row := hd [] (rows df).

(** The files of a run: a metadata document with the six dimensions,
    one key each, and a data file with one fact whose travel motive is
    [motive]. *)
Definition section (name key : string) : str :=
  quoted name ++ NL ++ u "Key;Title;Description" ++ NL ++
  u key ++ u ";Title;Text" ++ NL ++ NL.

Definition metadata : str :=
  section "TravelMotives" "TM1" ++ section "Population" "P1" ++
  section "TravelModes" "M1" ++ section "Margins" "MG1" ++
  section "RegionCharacteristics" "R1" ++ section "Periods" "2023JJ00".

Definition data (motive : string) : str :=
  u "ID;TravelMotives;Population;TravelModes;Margins;RegionCharacteristics;Periods;" ++
  u "Trips_1;DistanceTravelled_2;TimeTravelled_3;Trips_4;DistanceTravelled_5;" ++
  u "TimeTravelled_6" ++ NL ++
  u "0;" ++ u motive ++ u ";P1;M1;MG1;R1;2023JJ00;1.5;2.5;.;4.5;5.5;6.5" ++ NL.

Definition run_config (motive : string) : Etl.config :=
  Etl.Config (Some metadata) (Some (data motive)) (u ";") (u "public").

(** A database with the seven tables, all empty. *)
Definition empty_store : Loader.database :=
  map (fun name => (u "public." ++ name, []))
      (map snd Loader.TABLE_MAPPING ++ [Loader.TABLE_NAME]).

Definition fresh_pipeline : Etl.pipeline :=
  Etl.initial empty_store (fun _ => now).

(** The six dimension tables without the periods. *)
Definition five_dimensions : Dict.dict frame := removelast six_dimensions.

(** The store after the canonical fact table has been loaded once, and
    twice. *)
Definition store_of (r : result (nat * Loader.database)) : Loader.database :=
  match r with Ok (_, db) => db | Raise _ => [] end.

Definition loaded_once : Loader.database := Eval vm_compute in
    store_of (Loader.load_fact (u "public") canonical_fact empty_store).

Definition loaded_twice : Loader.database := Eval vm_compute in
    store_of (Loader.load_fact (u "public") canonical_fact loaded_once).

End Samples.

(* ================================================================== *)
(** * Properties *)

(** ** Strings *)

Module TextFacts.
Import Text.

Lemma str_eqb_eq a b : str_eqb a b = true <-> a = b.
Proof. unfold str_eqb. destruct (list_eq_dec N.eq_dec a b); split; congruence. Qed.

Lemma str_eqb_refl a : str_eqb a a = true.
Proof. apply str_eqb_eq. reflexivity. Qed.

Lemma str_eqb_neq a b : str_eqb a b = false <-> a <> b.
Proof. unfold str_eqb. destruct (list_eq_dec N.eq_dec a b); split; congruence. Qed.

Lemma str_eqb_sym a b : str_eqb a b = str_eqb b a.
Proof.
  destruct (str_eqb a b) eqn:E.
  - apply str_eqb_eq in E. subst. symmetry. apply str_eqb_refl.
  - destruct (str_eqb b a) eqn:E'; [|reflexivity].
    apply str_eqb_eq in E'. subst. rewrite str_eqb_refl in E. discriminate.
Qed.

Lemma mem_In x l : mem x l = true <-> In x l.
Proof.
  unfold mem. rewrite existsb_exists. split.
  - intros [y [Hy E]]. apply str_eqb_eq in E. subst. exact Hy.
  - intros H. exists x. split; [exact H | apply str_eqb_refl].
Qed.

Lemma mem_false x l : mem x l = false <-> ~ In x l.
Proof.
  rewrite <- mem_In. destruct (mem x l); split; intros; congruence.
Qed.

(** *** [strip] *)

Lemma lstrip_spaces l s :
  forallb isspace l = true -> lstrip (l ++ s) = lstrip s.
Proof.
  induction l as [|c l IH]; simpl; intros H; [reflexivity|].
  apply andb_true_iff in H. destruct H as [Hc Hl]. rewrite Hc. auto.
Qed.

Lemma lstrip_all_spaces l : forallb isspace l = true -> lstrip l = [].
Proof.
  intros H. rewrite <- (app_nil_r l). rewrite lstrip_spaces by exact H. reflexivity.
Qed.

Lemma lstrip_app_nonempty s r : lstrip s <> [] -> lstrip (s ++ r) = lstrip s ++ r.
Proof.
  induction s as [|c s IH]; simpl; intros H; [congruence|].
  destruct (isspace c); [auto | reflexivity].
Qed.

Lemma lstrip_empty_spaces s : lstrip s = [] -> forallb isspace s = true.
Proof.
  induction s as [|c s IH]; simpl; intros H; [reflexivity|].
  destruct (isspace c); [auto | discriminate].
Qed.

Lemma rstrip_spaces s r : forallb isspace r = true -> rstrip (s ++ r) = rstrip s.
Proof.
  intros H. unfold rstrip. rewrite rev_app_distr.
  rewrite lstrip_spaces; [reflexivity|].
  rewrite forallb_forall in *. intros x Hx. apply H. apply in_rev. exact Hx.
Qed.

(** Whitespace around a string does not change what [strip] returns. *)
Lemma strip_pad l s r :
  forallb isspace l = true -> forallb isspace r = true ->
  strip (l ++ s ++ r) = strip s.
Proof.
  intros Hl Hr. unfold strip. rewrite lstrip_spaces by exact Hl.
  destruct (lstrip s) eqn:E.
  - assert (Hs : forallb isspace (s ++ r) = true).
    { rewrite forallb_app, Hr, (lstrip_empty_spaces _ E). reflexivity. }
    rewrite (lstrip_all_spaces _ Hs). reflexivity.
  - rewrite lstrip_app_nonempty by (rewrite E; discriminate).
    rewrite E. apply rstrip_spaces. exact Hr.
Qed.

Lemma lstrip_idem s : lstrip (lstrip s) = lstrip s.
Proof.
  induction s as [|c s IH]; simpl; [reflexivity|].
  destruct (isspace c) eqn:E; [exact IH | simpl; rewrite E; reflexivity].
Qed.

Lemma lstrip_suffix s : exists l, s = l ++ lstrip s /\ forallb isspace l = true.
Proof.
  induction s as [|c s [l [E H]]]; simpl.
  - exists []. split; reflexivity.
  - destruct (isspace c) eqn:Ec.
    + exists (c :: l). simpl. rewrite Ec, H. split; [f_equal; exact E | reflexivity].
    + exists []. split; reflexivity.
Qed.

Lemma strip_decompose s :
  exists l r, s = l ++ strip s ++ r /\
              forallb isspace l = true /\ forallb isspace r = true.
Proof.
  destruct (lstrip_suffix s) as [l [E Hl]].
  destruct (lstrip_suffix (rev (lstrip s))) as [r [E' Hr]].
  exists l, (rev r). split; [|split].
  - unfold strip, rstrip. rewrite <- rev_app_distr, <- E', rev_involutive. exact E.
  - exact Hl.
  - rewrite forallb_forall in *. intros x Hx. apply Hr. apply in_rev. exact Hx.
Qed.

Lemma strip_idem s : strip (strip s) = strip s.
Proof.
  destruct (strip_decompose s) as [l [r [E [Hl Hr]]]].
  rewrite E at 2. symmetry. apply strip_pad; assumption.
Qed.

End TextFacts.

(** ** MD5 digests *)

Module Md5Facts.
Import Md5.

Lemma le_bytes_length n x : List.length (le_bytes n x) = n.
Proof. revert x. induction n; simpl; intros; [reflexivity | f_equal; apply IHn]. Qed.

Lemma digest_length data : List.length (digest data) = 16%nat.
Proof.
  unfold digest. destruct (fold_left compress (blocks (pad data)) init).
  rewrite !length_app, !le_bytes_length. reflexivity.
Qed.

Lemma hexdigest_length data : List.length (hexdigest data) = 32%nat.
Proof.
  unfold hexdigest.
  assert (H : forall l, List.length (flat_map hex_byte l) = (2 * List.length l)%nat).
  { induction l; simpl; [reflexivity | rewrite IHl; lia]. }
  rewrite H, digest_length. reflexivity.
Qed.

Lemma hex_digit_lower d : (d < 16)%N -> is_lower_hex (hex_digit d) = true.
Proof.
  intros H. unfold is_lower_hex, hex_digit.
  destruct (N.ltb_spec d 10).
  - apply orb_true_iff. left. apply andb_true_iff. split; apply N.leb_le; lia.
  - apply orb_true_iff. right. apply andb_true_iff. split; apply N.leb_le; lia.
Qed.

Lemma hexdigest_lower_hex data : forallb is_lower_hex (hexdigest data) = true.
Proof.
  unfold hexdigest. induction (digest data) as [|b l IH]; simpl; [reflexivity|].
  rewrite !hex_digit_lower, IH; try reflexivity; apply N.mod_lt; discriminate.
Qed.

End Md5Facts.

(** ** Results and loops *)

Module ResultFacts.

Lemma bind_ok {A B} (m : result A) (k : A -> result B) (b : B) :
  bind m k = Ok b -> exists a, m = Ok a /\ k a = Ok b.
Proof. destruct m; simpl; intros H; [eauto | discriminate]. Qed.

Lemma bind_raise {A B} (m : result A) (k : A -> result B) (e : exn) :
  bind m k = Raise e -> m = Raise e \/ exists a, m = Ok a /\ k a = Raise e.
Proof. destruct m; simpl; intros H; [right; eauto | left; congruence]. Qed.

Lemma for_each_app {A S} (body : S -> A -> result S) xs ys s :
  for_each body (xs ++ ys) s = bind (for_each body xs s) (for_each body ys).
Proof.
  revert s. induction xs as [|x xs IH]; simpl; intros s; [reflexivity|].
  destruct (body s x); simpl; [apply IH | reflexivity].
Qed.

(** A loop that only checks: it returns when every check does. *)
Lemma for_each_checks {A} (check : A -> result unit) xs :
  for_each (fun (_ : unit) x => check x) xs tt = Ok tt <->
  Forall (fun x => check x = Ok tt) xs.
Proof.
  induction xs as [|x xs IH]; simpl.
  - split; [constructor | reflexivity].
  - split.
    + intros H. apply bind_ok in H. destruct H as [[] [Hx Hr]].
      constructor; [exact Hx | apply IH; exact Hr].
    + intros H. inversion H; subst. rewrite H2. simpl. apply IH. exact H3.
Qed.

Lemma for_each_checks_ok {A} (check : A -> result unit) xs (r : unit) :
  for_each (fun (_ : unit) x => check x) xs tt = Ok r ->
  Forall (fun x => check x = Ok tt) xs.
Proof. destruct r. apply for_each_checks. Qed.

End ResultFacts.

(** ** Rows and frames *)

Module FrameFacts.
Import Text Frames TextFacts ResultFacts.

Lemma row_get_lookup c r :
  row_get c r = match lookup c r with Some v => v | None => VNaN end.
Proof.
  induction r as [|[k v] r IH]; simpl; [reflexivity|].
  destruct (str_eqb k c); [reflexivity | exact IH].
Qed.

Lemma has_label_lookup c r : has_label c r = true <-> lookup c r <> None.
Proof.
  unfold has_label. rewrite mem_In.
  induction r as [|[k v] r IH]; simpl.
  - split; [intros [] | congruence].
  - destruct (str_eqb k c) eqn:E.
    + apply str_eqb_eq in E. split; [discriminate | auto].
    + apply str_eqb_neq in E. rewrite <- IH. split; [intros [H|H]; congruence | auto].
Qed.

Lemma has_label_false c r : has_label c r = false <-> lookup c r = None.
Proof.
  destruct (has_label c r) eqn:E.
  - apply has_label_lookup in E. split; [discriminate | congruence].
  - split; [intros _ | reflexivity].
    destruct (lookup c r) eqn:L; [|reflexivity].
    assert (H : has_label c r = true) by (apply has_label_lookup; congruence).
    congruence.
Qed.

Lemma lookup_app_l {A} c (r s : list (str * A)) :
  lookup c r <> None -> lookup c (r ++ s) = lookup c r.
Proof.
  induction r as [|[k v] r IH]; simpl; intros H; [congruence|].
  destruct (str_eqb k c); [reflexivity | auto].
Qed.

Lemma lookup_app_r {A} c (r s : list (str * A)) :
  lookup c r = None -> lookup c (r ++ s) = lookup c s.
Proof.
  induction r as [|[k v] r IH]; simpl; intros H; [reflexivity|].
  destruct (str_eqb k c); [discriminate | auto].
Qed.

(** Values rewritten in place, labels kept. *)
Lemma lookup_map_vals (f : str * cell -> str * cell) c r :
  (forall kv, fst (f kv) = fst kv) ->
  lookup c (map f r) = option_map (fun v => snd (f (c, v))) (lookup c r).
Proof.
  intros Hf. induction r as [|[k v] r IH]; simpl; [reflexivity|].
  specialize (Hf (k, v)) as Hk. destruct (f (k, v)) as [k' v'] eqn:E.
  simpl in Hk. subst k'. destruct (str_eqb k c) eqn:Ek.
  - apply str_eqb_eq in Ek. subst k. simpl. rewrite E. reflexivity.
  - exact IH.
Qed.

Lemma lookup_row_set_same c v r : lookup c (row_set c v r) = Some v.
Proof.
  unfold row_set. destruct (has_label c r) eqn:H.
  - rewrite lookup_map_vals.
    + simpl. rewrite str_eqb_refl. simpl.
      apply has_label_lookup in H. destruct (lookup c r); [reflexivity | congruence].
    + intros [k x]. simpl. destruct (str_eqb k c); reflexivity.
  - apply has_label_false in H. rewrite lookup_app_r by exact H.
    simpl. rewrite str_eqb_refl. reflexivity.
Qed.

Lemma lookup_row_set_other c c' v r :
  c <> c' -> lookup c' (row_set c v r) = lookup c' r.
Proof.
  intros Hne. unfold row_set. destruct (has_label c r) eqn:H.
  - rewrite lookup_map_vals.
    + simpl. assert (E : str_eqb c' c = false) by (apply str_eqb_neq; congruence).
      rewrite E. destruct (lookup c' r); reflexivity.
    + intros [k x]. simpl. destruct (str_eqb k c); reflexivity.
  - destruct (lookup c' r) eqn:L.
    + rewrite lookup_app_l; congruence.
    + rewrite lookup_app_r by exact L. simpl.
      assert (E : str_eqb c c' = false) by (apply str_eqb_neq; exact Hne).
      rewrite E. reflexivity.
Qed.

Lemma row_get_row_set_same c v r : row_get c (row_set c v r) = v.
Proof. rewrite row_get_lookup, lookup_row_set_same. reflexivity. Qed.

Lemma row_get_row_set_other c c' v r :
  c <> c' -> row_get c' (row_set c v r) = row_get c' r.
Proof.
  intros H. rewrite !row_get_lookup, lookup_row_set_other by exact H. reflexivity.
Qed.

Lemma lookup_group_same c r : lookup c (group c r) = lookup c r.
Proof.
  unfold group. induction r as [|[k v] r IH]; simpl; [reflexivity|].
  destruct (str_eqb k c) eqn:E; simpl; [rewrite E; reflexivity | exact IH].
Qed.

Lemma lookup_group_other c c' r : c <> c' -> lookup c' (group c r) = None.
Proof.
  intros Hne. unfold group. induction r as [|[k v] r IH]; simpl; [reflexivity|].
  destruct (str_eqb k c) eqn:E; simpl; [|exact IH].
  apply str_eqb_eq in E. subst k.
  assert (E : str_eqb c c' = false) by (apply str_eqb_neq; exact Hne).
  rewrite E. exact IH.
Qed.

(** The cells of a selection are the cells of the row. *)
Lemma lookup_select c cs r :
  lookup c (flat_map (fun c' => group c' r) cs) =
  if mem c cs then lookup c r else None.
Proof.
  induction cs as [|c0 cs IH]; simpl; [reflexivity|].
  destruct (str_eqb c c0) eqn:E.
  - apply str_eqb_eq in E. subst c0. simpl.
    destruct (lookup c r) eqn:L.
    + rewrite lookup_app_l; rewrite lookup_group_same; congruence.
    + rewrite lookup_app_r by (rewrite lookup_group_same; exact L).
      rewrite IH. destruct (mem c cs); reflexivity.
  - simpl. rewrite lookup_app_r; [exact IH|].
    apply lookup_group_other. apply str_eqb_neq. rewrite str_eqb_sym. exact E.
Qed.

Lemma combine_map_self {A B} (g : A -> B) (l : list A) :
  combine l (map g l) = map (fun x => (x, g x)) l.
Proof. induction l; simpl; [reflexivity | f_equal; assumption]. Qed.

Lemma count_label_mem c l : count_label c l <> O <-> mem c l = true.
Proof.
  unfold count_label, mem. induction l as [|x l IH]; simpl.
  - split; [congruence | discriminate].
  - destruct (str_eqb c x); simpl; [split; [reflexivity | discriminate] | exact IH].
Qed.

Lemma getitem_ok df c vals :
  getitem df c = Ok vals ->
  vals = map (row_get c) (rows df) /\ count_label c (columns df) = 1%nat.
Proof.
  unfold getitem. destruct (count_label c (columns df)) as [|[|n]]; intros H;
    inversion H; auto.
Qed.

Lemma getitem_mem df c vals : getitem df c = Ok vals -> mem c (columns df) = true.
Proof.
  intros H. apply getitem_ok in H. destruct H as [_ H].
  apply count_label_mem. rewrite H. discriminate.
Qed.

(** A column computed row by row and stored back. *)
Lemma setitem_rowwise df c (g : row -> cell) :
  setitem df c (map g (rows df)) =
  Frame (if mem c (columns df) then columns df else columns df ++ [c])
        (map (fun r => row_set c (g r) r) (rows df)).
Proof.
  unfold setitem. f_equal. rewrite combine_map_self, map_map. reflexivity.
Qed.

Lemma Forall2_map_r {A B} (R : A -> B -> Prop) (f : A -> B) l :
  (forall a, In a l -> R a (f a)) -> Forall2 R l (map f l).
Proof.
  induction l; simpl; intros H; constructor; auto.
Qed.

Lemma Forall2_compose {A B C} (R1 : A -> B -> Prop) (R2 : B -> C -> Prop)
      (R3 : A -> C -> Prop) l1 l2 l3 :
  (forall a b c, R1 a b -> R2 b c -> R3 a c) ->
  Forall2 R1 l1 l2 -> Forall2 R2 l2 l3 -> Forall2 R3 l1 l3.
Proof.
  intros H H1. revert l3. induction H1; intros l3 H2; inversion H2; subst;
    constructor; eauto.
Qed.

Lemma Forall2_nth_error {A B} (R : A -> B -> Prop) l1 l2 i a :
  Forall2 R l1 l2 -> nth_error l1 i = Some a ->
  exists b, nth_error l2 i = Some b /\ R a b.
Proof.
  intros H. revert i. induction H; intros [|i] Hi; simpl in *; try discriminate.
  - inversion Hi; subst. eauto.
  - eauto.
Qed.

Lemma Forall2_In_r {A B} (R : A -> B -> Prop) l1 l2 b :
  Forall2 R l1 l2 -> In b l2 -> exists a, In a l1 /\ R a b.
Proof.
  induction 1; simpl; intros Hb; [contradiction|].
  destruct Hb as [<-|Hb]; [eauto | destruct (IHForall2 Hb) as [a [Ha HR]]; eauto].
Qed.

Local Arguments mem : simpl never.

Lemma mem_cons c x L : mem c (x :: L) = str_eqb c x || mem c L.
Proof. reflexivity. Qed.

Lemma lookup_row_set c c' v r :
  lookup c' (row_set c v r) = if str_eqb c c' then Some v else lookup c' r.
Proof.
  destruct (str_eqb c c') eqn:E.
  - apply str_eqb_eq in E. subst. apply lookup_row_set_same.
  - apply lookup_row_set_other. apply str_eqb_neq. exact E.
Qed.

Lemma Forall2_same {A} (R : A -> A -> Prop) l :
  (forall a, R a a) -> Forall2 R l l.
Proof. intros H. induction l; constructor; auto. Qed.

Lemma Forall2_map_left {A B C} (R : B -> C -> Prop) (f : A -> B) l l' :
  Forall2 R (map f l) l' -> Forall2 (fun a c => R (f a) c) l l'.
Proof.
  revert l'. induction l; simpl; intros l' H; inversion H; subst; constructor; auto.
Qed.

Lemma Forall2_weaken {A B} (R R' : A -> B -> Prop) l l' :
  (forall a b, R a b -> R' a b) -> Forall2 R l l' -> Forall2 R' l l'.
Proof. intros H. induction 1; constructor; auto. Qed.

Lemma mem_app c a b : mem c (a ++ b) = mem c a || mem c b.
Proof. unfold mem. apply existsb_app. Qed.

Lemma mem_add_label c x cols :
  mem c (if mem x cols then cols else cols ++ [x]) = str_eqb c x || mem c cols.
Proof.
  destruct (mem x cols) eqn:E.
  - destruct (str_eqb c x) eqn:Ec; [|reflexivity].
    apply str_eqb_eq in Ec. subst. exact E.
  - rewrite mem_app, mem_cons. unfold mem at 2. simpl.
    rewrite orb_false_r. apply orb_comm.
Qed.

Lemma filter_all {A} (f : A -> bool) l : forallb f l = true -> filter f l = l.
Proof.
  induction l; simpl; intros H; [reflexivity|].
  apply andb_true_iff in H. destruct H as [H1 H2]. rewrite H1, IHl; auto.
Qed.

Lemma Forall2_chain {A B C} (R1 : A -> B -> Prop) (R2 : B -> C -> Prop) l1 l2 l3 :
  Forall2 R1 l1 l2 -> Forall2 R2 l2 l3 ->
  Forall2 (fun a c => exists b, R1 a b /\ R2 b c) l1 l3.
Proof.
  intros H1. revert l3. induction H1; intros l3 H2; inversion H2; subst;
    constructor; eauto.
Qed.

Lemma Forall2_map_right {A B C} (R : A -> B -> Prop) (f : B -> C) l l' :
  Forall2 R l l' -> Forall2 (fun a c => exists b, R a b /\ c = f b) l (map f l').
Proof. induction 1; simpl; constructor; eauto. Qed.

Lemma Forall_mem (P : str -> Prop) l c : Forall P l -> mem c l = true -> P c.
Proof. intros H Hc. apply mem_In in Hc. rewrite Forall_forall in H. auto. Qed.

Lemma lookup_row_get c r v : lookup c r = Some v -> row_get c r = v.
Proof. intros H. rewrite row_get_lookup, H. reflexivity. Qed.

End FrameFacts.

(** ** The fact transformer *)

Module FactFacts.
Import Text Frames TextFacts ResultFacts FrameFacts Transformer Transformer.Fact.
Local Arguments mem : simpl never.

Definition strip_view (L : list str) (r r' : row) : Prop :=
  forall c, lookup c r' =
            if mem c L then Some (Dimension.strip_cell (row_get c r)) else lookup c r.

Lemma strip_column_ok df c df' :
  strip_column df c = Ok df' ->
  count_label c (columns df) = 1%nat /\
  df' = Frame (columns df)
              (map (fun r => row_set c (Dimension.strip_cell (row_get c r)) r) (rows df)).
Proof.
  unfold strip_column. intros H. apply bind_ok in H. destruct H as [vals [Hg Hs]].
  pose proof (getitem_mem _ _ Hg) as Hm.
  apply getitem_ok in Hg. destruct Hg as [-> Hc]. split; [exact Hc|].
  inversion Hs. rewrite map_map, setitem_rowwise, Hm. reflexivity.
Qed.

Lemma strip_loop L :
  NoDup L -> forall df df',
  for_each strip_column L df = Ok df' ->
  columns df' = columns df /\
  Forall (fun c => count_label c (columns df) = 1%nat) L /\
  Forall2 (strip_view L) (rows df) (rows df').
Proof.
  induction 1 as [|x L Hx HL IH]; intros df df' H; simpl in H.
  - inversion H; subst. repeat split; [constructor|].
    apply Forall2_same. intros r c. reflexivity.
  - apply bind_ok in H. destruct H as [df1 [H1 H2]].
    apply strip_column_ok in H1. destruct H1 as [Hc ->].
    apply IH in H2. simpl in H2. destruct H2 as [Hcols [Hall Hrows]].
    repeat split; [exact Hcols | constructor; assumption |].
    apply Forall2_map_left in Hrows. revert Hrows. apply Forall2_weaken.
    intros r r' Hv c. rewrite (Hv c), mem_cons.
    destruct (str_eqb c x) eqn:E.
    + apply str_eqb_eq in E. subst c. simpl.
      apply mem_false in Hx. rewrite Hx. apply lookup_row_set_same.
    + simpl. destruct (mem c L).
      * rewrite row_get_row_set_other; [reflexivity|].
        apply str_eqb_neq. rewrite str_eqb_sym. exact E.
      * rewrite lookup_row_set. rewrite str_eqb_sym, E. reflexivity.
Qed.

Definition numeric_choice (f : cell -> cell) : Prop :=
  f = coerce_cell \/ f = (fun x => to_float (coerce_cell x)).

Lemma to_numeric_choice vals :
  exists f, numeric_choice f /\ to_numeric vals = map f vals.
Proof.
  unfold to_numeric. destruct (forallb is_int (map coerce_cell vals)).
  - exists coerce_cell. split; [left; reflexivity | reflexivity].
  - exists (fun x => to_float (coerce_cell x)). split; [right; reflexivity|].
    rewrite map_map. reflexivity.
Qed.

Lemma numeric_column_ok df c df' :
  numeric_column df c = Ok df' ->
  count_label c (columns df) = 1%nat /\
  exists f, numeric_choice f /\
    df' = Frame (columns df)
                (map (fun r => row_set c (f (row_get c r)) r) (rows df)).
Proof.
  unfold numeric_column. intros H. apply bind_ok in H. destruct H as [vals [Hg Hs]].
  pose proof (getitem_mem _ _ Hg) as Hm.
  apply getitem_ok in Hg. destruct Hg as [-> Hc]. split; [exact Hc|].
  destruct (to_numeric_choice (map (row_get c) (rows df))) as [f [Hf E]].
  exists f. split; [exact Hf|].
  inversion Hs. rewrite E, map_map, setitem_rowwise, Hm. reflexivity.
Qed.

Definition numeric_view (nf : str -> cell -> cell) (L : list str) (r r' : row) : Prop :=
  forall c, lookup c r' = if mem c L then Some (nf c (row_get c r)) else lookup c r.

Lemma numeric_loop L :
  NoDup L -> forall df df',
  for_each numeric_column L df = Ok df' ->
  columns df' = columns df /\
  Forall (fun c => count_label c (columns df) = 1%nat) L /\
  exists nf, (forall c, numeric_choice (nf c)) /\
             Forall2 (numeric_view nf L) (rows df) (rows df').
Proof.
  induction 1 as [|x L Hx HL IH]; intros df df' H; simpl in H.
  - inversion H; subst. repeat split; [constructor|].
    exists (fun _ => coerce_cell). split; [intros; left; reflexivity|].
    apply Forall2_same. intros r c. reflexivity.
  - apply bind_ok in H. destruct H as [df1 [H1 H2]].
    apply numeric_column_ok in H1. destruct H1 as [Hc [f [Hf ->]]].
    apply IH in H2. simpl in H2. destruct H2 as [Hcols [Hall [nf [Hnf Hrows]]]].
    repeat split; [exact Hcols | constructor; assumption |].
    exists (fun c => if str_eqb c x then f else nf c). split.
    { intros c. destruct (str_eqb c x); auto. }
    apply Forall2_map_left in Hrows. revert Hrows. apply Forall2_weaken.
    intros r r' Hv c. rewrite (Hv c), mem_cons.
    destruct (str_eqb c x) eqn:E.
    + apply str_eqb_eq in E. subst c. simpl.
      apply mem_false in Hx. rewrite Hx. apply lookup_row_set_same.
    + simpl. destruct (mem c L).
      * rewrite row_get_row_set_other; [reflexivity|].
        apply str_eqb_neq. rewrite str_eqb_sym. exact E.
      * rewrite lookup_row_set. rewrite str_eqb_sym, E. reflexivity.
Qed.

Definition nulls_view (r r' : row) : Prop :=
  forall c, lookup c r' =
            option_map (fun v => where_notnull
                                   (if mem c METRIC_COLUMNS then replace_dot v else v))
                       (lookup c r).

Lemma handle_nulls_ok df df' :
  handle_nulls df = Ok df' ->
  columns df' = columns df /\
  Forall (fun c => count_label c (columns df) = 1%nat) METRIC_COLUMNS /\
  Forall2 nulls_view (rows df) (rows df').
Proof.
  unfold handle_nulls. intros H. apply bind_ok in H. destruct H as [x [Hchk Hs]].
  inversion Hs; subst df'; clear Hs. simpl. repeat split.
  - apply for_each_checks_ok in Hchk. revert Hchk. apply Forall_impl.
    intros c Hc. apply bind_ok in Hc. destruct Hc as [vals [Hg _]].
    apply getitem_ok in Hg. tauto.
  - rewrite map_map. apply Forall2_map_r. intros r _ c.
    rewrite lookup_map_vals by reflexivity. simpl.
    rewrite lookup_map_vals by (intros kv; destruct (mem (fst kv) METRIC_COLUMNS); reflexivity).
    destruct (lookup c r); simpl; [|reflexivity].
    destruct (mem c METRIC_COLUMNS); reflexivity.
Qed.

Lemma compute_fact_id_ok df df' :
  compute_fact_id df = Ok df' ->
  Forall (fun c => count_label c (columns df) = 1%nat) FK_COLUMNS /\
  df' = Frame (if mem (u "fact_id") (columns df) then columns df
               else columns df ++ [u "fact_id"])
              (map (fun r => row_set (u "fact_id") (VStr (_hash_row r)) r) (rows df)).
Proof.
  unfold compute_fact_id. intros H. apply bind_ok in H. destruct H as [x [Hchk Hs]].
  split.
  - apply for_each_checks_ok in Hchk. revert Hchk. apply Forall_impl.
    intros c Hc. apply bind_ok in Hc. destruct Hc as [vals [Hg _]].
    apply getitem_ok in Hg. tauto.
  - inversion Hs. apply setitem_rowwise.
Qed.


(** The labels of the model fall into four classes. *)
Ltac label_cases H :=
  apply mem_In in H; simpl in H;
  repeat (destruct H as [H|H]; [subst|]); try contradiction.

Lemma label_class c :
  (mem c FK_COLUMNS = true /\ mem c METRIC_COLUMNS = false /\
   str_eqb c (u "fact_id") = false /\ str_eqb c (u "ingested_at") = false /\
   mem c column_order = true) \/
  (mem c FK_COLUMNS = false /\ mem c METRIC_COLUMNS = true /\
   str_eqb c (u "fact_id") = false /\ str_eqb c (u "ingested_at") = false /\
   mem c column_order = true) \/
  (mem c FK_COLUMNS = false /\ mem c METRIC_COLUMNS = false /\
   str_eqb c (u "fact_id") = true /\ str_eqb c (u "ingested_at") = false /\
   mem c column_order = true) \/
  (mem c FK_COLUMNS = false /\ mem c METRIC_COLUMNS = false /\
   str_eqb c (u "fact_id") = false /\ str_eqb c (u "ingested_at") = true /\
   mem c column_order = true) \/
  (mem c FK_COLUMNS = false /\ mem c METRIC_COLUMNS = false /\
   str_eqb c (u "fact_id") = false /\ str_eqb c (u "ingested_at") = false /\
   mem c column_order = false).
Proof.
  destruct (mem c FK_COLUMNS) eqn:E1.
  { left. label_cases E1; repeat split; reflexivity. }
  destruct (mem c METRIC_COLUMNS) eqn:E2.
  { right; left. label_cases E2; repeat split; reflexivity. }
  destruct (str_eqb c (u "fact_id")) eqn:E3.
  { right; right; left. apply str_eqb_eq in E3. subst. repeat split; reflexivity. }
  destruct (str_eqb c (u "ingested_at")) eqn:E4.
  { right; right; right; left. apply str_eqb_eq in E4. subst. repeat split; reflexivity. }
  right; right; right; right. repeat split.
  unfold column_order. rewrite !mem_app, E1, E2, !mem_cons, E3, E4. reflexivity.
Qed.

(** The digest of a row, from the values before normalization. *)
Definition hash_of (r : row) : str :=
  Md5.hexdigest
    (encode (join (u "|") (map (fun c => strip (py_str (row_get c r))) FK_COLUMNS))).

(** What a row of the result holds under each label, in terms of the
    row [r] it comes from (after renaming). *)
Definition canonical_view (now : str) (nf : str -> cell -> cell) (r out : row) : Prop :=
  forall c, lookup c out =
    if mem c FK_COLUMNS then Some (VStr (strip (py_str (row_get c r))))
    else if mem c METRIC_COLUMNS
         then Some (where_notnull (replace_dot (nf c (row_get c r))))
    else if str_eqb c (u "fact_id") then Some (VStr (hash_of r))
    else if str_eqb c (u "ingested_at") then Some (VTime now)
    else None.

Lemma NoDup_FK : NoDup FK_COLUMNS.
Proof.
  repeat (constructor; [simpl; intros H;
    repeat (destruct H as [H|H]; [discriminate H|]); exact H |]).
  constructor.
Qed.

Lemma NoDup_METRIC : NoDup METRIC_COLUMNS.
Proof.
  repeat (constructor; [simpl; intros H;
    repeat (destruct H as [H|H]; [discriminate H|]); exact H |]).
  constructor.
Qed.

Lemma transform_view now df out :
  transform now df = Ok out ->
  columns out =
    flat_map (fun c => filter (str_eqb c)
                (let cols := columns (rename_columns df) in
                 let cols1 := if mem (u "fact_id") cols then cols else cols ++ [u "fact_id"] in
                 if mem (u "ingested_at") cols1 then cols1 else cols1 ++ [u "ingested_at"]))
             column_order /\
  Forall (fun c => count_label c (columns (rename_columns df)) = 1%nat)
         (FK_COLUMNS ++ METRIC_COLUMNS) /\
  exists nf, (forall c, numeric_choice (nf c)) /\
    Forall2 (canonical_view now nf) (rows (rename_columns df)) (rows out).
Proof.
  intros H. unfold transform, run_chain, transform_chain in H.
  cbn [for_each call bind] in H.
  set (df0 := rename_columns df) in *.
  apply bind_ok in H. destruct H as [d2 [Hcast H]].
  apply bind_ok in H. destruct H as [d3 [Hnull H]].
  apply bind_ok in H. destruct H as [d4 [Hid H]].
  inversion H; subst out; clear H.
  unfold cast_types in Hcast. apply bind_ok in Hcast.
  destruct Hcast as [d1 [Hs Hn]].
  apply (@strip_loop _ NoDup_FK) in Hs. destruct Hs as [Hc1 [Hfk V1]].
  apply (@numeric_loop _ NoDup_METRIC) in Hn. destruct Hn as [Hc2 [Hmt [nf [Hnf V2]]]].
  apply handle_nulls_ok in Hnull. destruct Hnull as [Hc3 [_ V3]].
  apply compute_fact_id_ok in Hid. destruct Hid as [_ ->].
  rewrite Hc1 in Hmt, Hc2. rewrite Hc2 in Hc3.
  unfold reorder_columns, add_audit_columns, setitem_scalar, select.
  cbn [columns rows]. rewrite Hc3.
  set (cols1 := if mem (u "fact_id") (columns df0) then columns df0
                else columns df0 ++ [u "fact_id"]).
  set (cols2 := if mem (u "ingested_at") cols1 then cols1
                else cols1 ++ [u "ingested_at"]).
  assert (Hin : forall c, mem c column_order = true -> mem c cols2 = true).
  { intros c Hc. unfold cols2, cols1. rewrite !mem_add_label.
    destruct (label_class c) as [K|[K|[K|[K|K]]]];
      destruct K as [K1 [K2 [K3 [K4 K5]]]]; rewrite ?K3, ?K4; try reflexivity.
    - apply (@Forall_mem _ _ _ Hfk) in K1. cbn [orb].
      apply count_label_mem. rewrite K1. discriminate.
    - apply (@Forall_mem _ _ _ Hmt) in K2. cbn [orb].
      apply count_label_mem. rewrite K2. discriminate.
    - congruence. }
  assert (Hcs : filter (fun c => mem c cols2) column_order = column_order).
  { apply filter_all. apply forallb_forall. intros c Hc. apply Hin.
    apply mem_In. exact Hc. }
  rewrite Hcs. split; [reflexivity|]. split; [apply Forall_app; split; assumption|].
  exists nf. split; [exact Hnf|].
  rewrite !map_map.
  pose proof (Forall2_chain (Forall2_chain V1 V2) V3) as V.
  apply (Forall2_map_right
           (fun r => flat_map (fun c => group c
              (row_set (u "ingested_at") (VTime now)
                 (row_set (u "fact_id") (VStr (_hash_row r)) r))) column_order)) in V.
  revert V. apply Forall2_weaken.
  intros r out [r3 [[r2 [[r1 [W1 W2]] W3]] ->]].
  assert (Hfkv : forall c, mem c FK_COLUMNS = true ->
                 lookup c r3 = Some (VStr (strip (py_str (row_get c r))))).
  { intros c Hc. rewrite (W3 c), (W2 c), (W1 c).
    destruct (label_class c) as [K|[K|[K|[K|K]]]];
      destruct K as [K1 [K2 [K3 [K4 K5]]]]; try congruence.
    rewrite K1, K2. reflexivity. }
  assert (Hhash : _hash_row r3 = hash_of r).
  { unfold _hash_row, hash_of. do 3 f_equal. apply map_ext_in.
    intros c Hc. apply mem_In in Hc. rewrite (row_get_lookup c r3), (Hfkv c Hc).
    reflexivity. }
  intros c. rewrite lookup_select, !lookup_row_set, Hhash.
  rewrite (str_eqb_sym (u "ingested_at") c), (str_eqb_sym (u "fact_id") c).
  destruct (label_class c) as [K|[K|[K|[K|K]]]];
    destruct K as [K1 [K2 [K3 [K4 K5]]]]; rewrite ?K1, ?K2, ?K3, ?K4, ?K5;
    cbv iota; try reflexivity.
  - apply Hfkv. exact K1.
  - rewrite (W3 c), (W2 c), K2. simpl.
    rewrite (row_get_lookup c r1), (W1 c), K1, <- row_get_lookup. reflexivity.
Qed.


(** What [transform] guarantees about the identifier of a row. *)
Definition fact_id_spec (r : row) : Prop :=
  exists keys : list str,
    map (fun c => row_get c r) FK_COLUMNS = map VStr keys /\
    Forall (fun k => strip k = k) keys /\
    row_get (u "fact_id") r = VStr (Md5.hexdigest (encode (join (u "|") keys))) /\
    List.length (Md5.hexdigest (encode (join (u "|") keys))) = 32%nat /\
    forallb Md5.is_lower_hex (Md5.hexdigest (encode (join (u "|") keys))) = true /\
    (keys = map u ["TM1"; "P1"; "M1"; "MG1"; "R1"; "2023JJ00"]%string ->
     row_get (u "fact_id") r =
       VStr (Md5.hexdigest (encode (u "TM1|P1|M1|MG1|R1|2023JJ00"))) /\
     row_get (u "fact_id") r = VStr (u "ba29aa5c52e9980ff10e8fb33a19ee84")).

Lemma fact_id_spec_holds now df out r :
  transform now df = Ok out -> In r (rows out) -> fact_id_spec r.
Proof.
  intros H Hr. apply transform_view in H. destruct H as [_ [_ [nf [_ V]]]].
  destruct (@Forall2_In_r _ _ _ _ _ _ V Hr) as [r0 [_ W]].
  exists (map (fun c => strip (py_str (row_get c r0))) FK_COLUMNS).
  split; [|split; [|split; [|split; [|split]]]].
  - rewrite map_map. apply map_ext_in. intros c Hc. apply mem_In in Hc.
    apply lookup_row_get. rewrite (W c), Hc. reflexivity.
  - apply Forall_forall. intros k Hk. apply in_map_iff in Hk.
    destruct Hk as [c [<- _]]. apply strip_idem.
  - apply lookup_row_get. rewrite (W (u "fact_id")). reflexivity.
  - apply Md5Facts.hexdigest_length.
  - apply Md5Facts.hexdigest_lower_hex.
  - intros E. assert (Hid : row_get (u "fact_id") r = VStr (hash_of r0)).
    { apply lookup_row_get. rewrite (W (u "fact_id")). reflexivity. }
    unfold hash_of in Hid. rewrite E in Hid. split; exact Hid.
Qed.

End FactFacts.

(** ** The dimension transformer *)

Module DimensionFacts.
Import Text Frames TextFacts ResultFacts FrameFacts Transformer Transformer.Dimension.
Local Arguments mem : simpl never.

(** [clean_strings] on one cell. *)
Definition cleaned (c : cell) : cell :=
  replace_with_none [u "nan"; u "None"] (strip_cell c).

Definition CLEANED : list str := [u "key"; u "title"; u "description"].

Definition clean_view (cols L : list str) (r r' : row) : Prop :=
  forall c, lookup c r' =
            if mem c L && mem c cols then Some (cleaned (row_get c r)) else lookup c r.

Lemma clean_column_ok df col df' :
  clean_column df col = Ok df' ->
  columns df' = columns df /\
  Forall2 (clean_view (columns df) [col]) (rows df) (rows df').
Proof.
  unfold clean_column, clean_view. destruct (mem col (columns df)) eqn:M; intros H.
  - apply bind_ok in H. destruct H as [vals [Hg H]].
    apply getitem_ok in Hg. destruct Hg as [-> Hc].
    rewrite map_map, setitem_rowwise, M in H.
    match type of H with
    | context [getitem ?d col] => set (df1 := d) in H
    end.
    apply bind_ok in H. destruct H as [vals1 [Hg1 H]].
    apply getitem_ok in Hg1. destruct Hg1 as [-> _].
    rewrite map_map, setitem_rowwise in H.
    inversion H; subst df'; clear H.
    unfold df1. cbn [rows columns]. rewrite M. split; [reflexivity|].
    rewrite map_map.
    apply Forall2_map_r. intros r _ c.
    rewrite !lookup_row_set, row_get_row_set_same, mem_cons.
    rewrite (str_eqb_sym col c).
    destruct (str_eqb c col) eqn:E; cbn [orb andb].
    + apply str_eqb_eq in E. subst c. rewrite M. reflexivity.
    + unfold mem at 1. reflexivity.
  - inversion H; subst df'. split; [reflexivity|].
    apply Forall2_same. intros r c. rewrite mem_cons.
    destruct (str_eqb c col) eqn:E; cbn [orb andb].
    + apply str_eqb_eq in E. subst c. rewrite M. reflexivity.
    + unfold mem at 1. reflexivity.
Qed.

Lemma clean_loop L :
  NoDup L -> forall df df',
  for_each clean_column L df = Ok df' ->
  columns df' = columns df /\
  Forall2 (clean_view (columns df) L) (rows df) (rows df').
Proof.
  induction 1 as [|x L Hx HL IH]; intros df df' H; cbn [for_each] in H.
  - inversion H; subst. split; [reflexivity|].
    apply Forall2_same. intros r c. reflexivity.
  - apply bind_ok in H. destruct H as [df1 [H1 H2]].
    apply clean_column_ok in H1. destruct H1 as [Hc1 V1].
    apply IH in H2. destruct H2 as [Hc2 V2]. rewrite Hc1 in Hc2, V2.
    split; [exact Hc2|].
    pose proof (Forall2_chain V1 V2) as V. revert V. apply Forall2_weaken.
    intros r r' [r1 [W1 W2]] c. rewrite (W2 c), mem_cons.
    apply mem_false in Hx.
    destruct (str_eqb c x) eqn:E; cbn [orb].
    + apply str_eqb_eq in E. subst c. rewrite Hx. cbn [andb].
      rewrite (W1 x), mem_cons, str_eqb_refl. reflexivity.
    + assert (E1 : lookup c r1 = lookup c r).
      { rewrite (W1 c), mem_cons, E. unfold mem at 1. reflexivity. }
      rewrite (row_get_lookup c r1), E1, <- row_get_lookup. reflexivity.
Qed.

Lemma NoDup_CLEANED : NoDup CLEANED.
Proof.
  repeat (constructor; [simpl; intros H;
    repeat (destruct H as [H|H]; [discriminate H|]); exact H |]).
  constructor.
Qed.

(** [handle_nulls] on one cell. *)
Definition nullified (c : cell) : cell := replace_with_none [[]; u " "] c.

(** What a row of the result holds under each label, in terms of the
    row [r] it comes from (after renaming) and of the columns [cols]
    of the renamed frame. *)
Definition dimension_view (now : str) (cols : list str) (r out : row) : Prop :=
  forall c, lookup c out =
    if str_eqb c (u "ingested_at") then Some (VTime now)
    else option_map nullified
           (if mem c CLEANED && mem c cols then Some (cleaned (row_get c r))
            else lookup c r).

Lemma dimension_transform_view now df out :
  transform now df = Ok out ->
  columns out =
    (let cols := columns (rename_columns df) in
     if mem (u "ingested_at") cols then cols else cols ++ [u "ingested_at"]) /\
  Forall2 (dimension_view now (columns (rename_columns df)))
          (rows (rename_columns df)) (rows out).
Proof.
  unfold transform. intros H. apply bind_ok in H. destruct H as [d1 [Hc H]].
  inversion H; subst out; clear H.
  apply (@clean_loop _ NoDup_CLEANED) in Hc. destruct Hc as [Hc V].
  unfold add_audit_columns, handle_nulls, setitem_scalar, map_cells.
  cbn [columns rows]. rewrite Hc. split; [reflexivity|].
  rewrite map_map.
  apply (Forall2_map_right
           (fun r => row_set (u "ingested_at") (VTime now)
                       (map (fun kv => (fst kv, nullified (snd kv))) r))) in V.
  revert V. apply Forall2_weaken. intros r out [r1 [W ->]] c.
  rewrite lookup_row_set, (str_eqb_sym (u "ingested_at") c).
  destruct (str_eqb c (u "ingested_at")); [reflexivity|].
  rewrite lookup_map_vals by reflexivity. rewrite (W c). reflexivity.
Qed.

End DimensionFacts.

(** ** Whitespace around keys *)

Module WhitespaceFacts.
Import Text Frames TextFacts ResultFacts FrameFacts Transformer.
Local Arguments mem : simpl never.

(** [v'] is [v] with whitespace added around it. *)
Definition padded (v v' : cell) : Prop :=
  exists s l r, v = VStr s /\ v' = VStr (l ++ s ++ r) /\
                forallb isspace l = true /\ forallb isspace r = true.

(** Two bindings with the same label, whose values are the same or, under
    a key label, differ by surrounding whitespace. *)
Definition cell_variant (key : str -> Prop) (kv kv' : str * cell) : Prop :=
  fst kv = fst kv' /\ (snd kv = snd kv' \/ (key (fst kv) /\ padded (snd kv) (snd kv'))).

Definition ws_variant (key : str -> Prop) (df df' : frame) : Prop :=
  columns df = columns df' /\
  Forall2 (Forall2 (cell_variant key)) (rows df) (rows df').

(** The same with "have the same stripped text" for the key labels. *)
Definition cell_sim (key : str -> Prop) (kv kv' : str * cell) : Prop :=
  fst kv = fst kv' /\
  (snd kv = snd kv' \/
   (key (fst kv) /\ Dimension.strip_cell (snd kv) = Dimension.strip_cell (snd kv'))).

Lemma padded_strip v v' :
  padded v v' -> Dimension.strip_cell v = Dimension.strip_cell v'.
Proof.
  intros [s [l [r [-> [-> [Hl Hr]]]]]]. unfold Dimension.strip_cell. simpl.
  rewrite strip_pad by assumption. reflexivity.
Qed.

Lemma Forall2_map_both {A B C D} (R : A -> B -> Prop) (R' : C -> D -> Prop)
      (f : A -> C) (g : B -> D) l l' :
  (forall a b, R a b -> R' (f a) (g b)) ->
  Forall2 R l l' -> Forall2 R' (map f l) (map g l').
Proof. intros H. induction 1; simpl; constructor; auto. Qed.

Lemma Forall2_eq {A} (l l' : list A) : Forall2 eq l l' -> l = l'.
Proof. induction 1; congruence. Qed.

Lemma sim_none r r' : Forall2 (cell_sim (fun _ => False)) r r' -> r = r'.
Proof.
  intros H. apply Forall2_eq. revert H. apply Forall2_weaken.
  intros [k v] [k' v'] [E [E'|[[] _]]]. simpl in *. congruence.
Qed.

Lemma sim_row_get key x r r' :
  Forall2 (cell_sim key) r r' -> key x ->
  Dimension.strip_cell (row_get x r) = Dimension.strip_cell (row_get x r').
Proof.
  intros H Hx. induction H as [|[k v] [k' v'] r r' [E Hv] _ IH]; [reflexivity|].
  simpl in E. subst k'. simpl. destruct (str_eqb k x) eqn:Ek; [|exact IH].
  apply str_eqb_eq in Ek. subst k. simpl in Hv.
  destruct Hv as [->|[_ Hv]]; [reflexivity | exact Hv].
Qed.

Lemma sim_has_label key x r r' :
  Forall2 (cell_sim key) r r' -> has_label x r = has_label x r'.
Proof.
  intros H. unfold has_label. f_equal.
  induction H as [|kv kv' r r' [E _] _ IH]; simpl; congruence.
Qed.

(** [row_set] as one pass over the row. *)
Definition put (x : str) (v : cell) (kv : str * cell) : str * cell :=
  if str_eqb (fst kv) x then (fst kv, v) else kv.

Lemma put_absent x v r : has_label x r = false -> map (put x v) r = r.
Proof.
  intros H. apply has_label_false in H.
  induction r as [|[k w] r IH]; simpl in *; [reflexivity|].
  unfold put at 1. simpl. destruct (str_eqb k x); [discriminate|].
  f_equal. apply IH. exact H.
Qed.

Lemma row_set_alt x v r :
  row_set x v r = map (put x v) r ++ (if has_label x r then [] else [(x, v)]).
Proof.
  unfold row_set. destruct (has_label x r) eqn:H.
  - rewrite app_nil_r. reflexivity.
  - rewrite put_absent by exact H. reflexivity.
Qed.

Lemma has_label_row_set x v r : has_label x (row_set x v r) = true.
Proof. apply has_label_lookup. rewrite lookup_row_set_same. discriminate. Qed.

Lemma row_set_twice x v w r : row_set x w (row_set x v r) = row_set x w r.
Proof.
  rewrite (row_set_alt x w (row_set x v r)), has_label_row_set, app_nil_r.
  rewrite !row_set_alt, map_app, map_map.
  f_equal.
  - apply map_ext. intros [k z]. unfold put. simpl.
    destruct (str_eqb k x) eqn:E; simpl; rewrite E; reflexivity.
  - destruct (has_label x r); [reflexivity|]. simpl. unfold put. simpl.
    rewrite str_eqb_refl. reflexivity.
Qed.

Lemma sim_row_set (key key' : str -> Prop) x v r r' :
  (forall k, key k -> k <> x -> key' k) ->
  Forall2 (cell_sim key) r r' ->
  Forall2 (cell_sim key') (row_set x v r) (row_set x v r').
Proof.
  intros Hk H. rewrite !row_set_alt, (sim_has_label x H).
  apply Forall2_app.
  - revert H. apply Forall2_map_both. intros [k w] [k' w'] [E Hv].
    simpl in E. subst k'. unfold put. simpl.
    destruct (str_eqb k x) eqn:Ek.
    + split; [reflexivity | left; reflexivity].
    + split; [reflexivity|]. simpl in *. destruct Hv as [->|[Hkey Hv]]; [left; reflexivity|].
      right. split; [|exact Hv]. apply Hk; [exact Hkey|]. apply str_eqb_neq. exact Ek.
  - destruct (has_label x r'); constructor; [|constructor].
    split; [reflexivity | left; reflexivity].
Qed.

Lemma frame_eq df df' : columns df = columns df' -> rows df = rows df' -> df = df'.
Proof. destruct df, df'; simpl; congruence. Qed.

(** *** Facts *)

Lemma strip_column_eq df x :
  Fact.strip_column df x =
  match count_label x (columns df) with
  | O => Raise (KeyError x)
  | S O => Ok (Frame (columns df)
                     (map (fun r => row_set x (Dimension.strip_cell (row_get x r)) r)
                          (rows df)))
  | _ => Raise (AmbiguousLabel x)
  end.
Proof.
  unfold Fact.strip_column, getitem.
  destruct (count_label x (columns df)) as [|[|n]] eqn:E; try reflexivity.
  cbn [bind]. rewrite map_map, setitem_rowwise.
  assert (M : mem x (columns df) = true) by (apply count_label_mem; rewrite E; discriminate).
  rewrite M. reflexivity.
Qed.

Lemma strip_loop_sim L : forall df df',
  columns df = columns df' ->
  Forall2 (Forall2 (cell_sim (fun k => In k L))) (rows df) (rows df') ->
  for_each Fact.strip_column L df = for_each Fact.strip_column L df'.
Proof.
  induction L as [|x L IH]; intros df df' Hc Hr; cbn [for_each].
  - f_equal. apply frame_eq; [exact Hc|]. apply Forall2_eq.
    revert Hr. apply Forall2_weaken. intros r r' H. apply sim_none.
    revert H. apply Forall2_weaken. intros kv kv' [E [Hv|[[] _]]]. split; auto.
  - rewrite !strip_column_eq, <- Hc.
    destruct (count_label x (columns df)) as [|[|n]]; try reflexivity.
    cbn [bind]. apply IH; [reflexivity|]. cbn [rows].
    revert Hr. apply Forall2_map_both. intros r r' H.
    rewrite <- (@sim_row_get _ x _ _ H) by (left; reflexivity).
    revert H. apply sim_row_set. intros k [Hk|Hk] Hne; congruence.
Qed.

Lemma fact_transform_sim now df df' :
  columns df = columns df' ->
  Forall2 (Forall2 (cell_sim (fun k => In k Fact.FK_COLUMNS))) (rows df) (rows df') ->
  Fact.run_chain now [Fact.CastTypes; Fact.HandleNulls; Fact.ComputeFactId;
                      Fact.AddAuditColumns; Fact.ReorderColumns] df =
  Fact.run_chain now [Fact.CastTypes; Fact.HandleNulls; Fact.ComputeFactId;
                      Fact.AddAuditColumns; Fact.ReorderColumns] df'.
Proof.
  intros Hc Hr. unfold Fact.run_chain. cbn [for_each Fact.call].
  unfold Fact.cast_types. rewrite (@strip_loop_sim _ _ _ Hc Hr). reflexivity.
Qed.

(** *** Dimensions *)

Lemma combine_map_map {A B C} (f : A -> B) (g : A -> C) l :
  combine (map f l) (map g l) = map (fun a => (f a, g a)) l.
Proof. induction l; simpl; [reflexivity | f_equal; assumption]. Qed.

Lemma sim_cleaned key x r r' :
  Forall2 (cell_sim key) r r' -> key x ->
  DimensionFacts.cleaned (row_get x r) = DimensionFacts.cleaned (row_get x r').
Proof.
  intros H Hx. unfold DimensionFacts.cleaned. rewrite (@sim_row_get _ x _ _ H Hx).
  reflexivity.
Qed.

Lemma clean_column_eq df x :
  Dimension.clean_column df x =
  match count_label x (columns df) with
  | O => Ok df
  | S O => Ok (Frame (columns df)
                     (map (fun r => row_set x (DimensionFacts.cleaned (row_get x r)) r)
                          (rows df)))
  | _ => Raise (AmbiguousLabel x)
  end.
Proof.
  unfold Dimension.clean_column.
  destruct (mem x (columns df)) eqn:M.
  - unfold getitem at 1.
    destruct (count_label x (columns df)) as [|[|n]] eqn:E; try reflexivity.
    + apply count_label_mem in M. congruence.
    + cbn [bind]. rewrite map_map, setitem_rowwise, M.
      unfold getitem. cbn [columns rows]. rewrite E. cbn [bind].
      rewrite !map_map. unfold setitem. cbn [columns rows]. rewrite M.
      f_equal. f_equal. rewrite combine_map_map, map_map. apply map_ext.
      intros r. cbn [fst snd]. rewrite row_set_twice, row_get_row_set_same.
      reflexivity.
  - destruct (count_label x (columns df)) eqn:E; [reflexivity|].
    assert (M' : mem x (columns df) = true) by (apply count_label_mem; rewrite E; discriminate).
    congruence.
Qed.

Lemma clean_loop_sim L : forall df df',
  columns df = columns df' ->
  Forall2 (Forall2 (cell_sim (fun k => In k L /\ In k (columns df))))
          (rows df) (rows df') ->
  for_each Dimension.clean_column L df = for_each Dimension.clean_column L df'.
Proof.
  induction L as [|x L IH]; intros df df' Hc Hr; cbn [for_each].
  - f_equal. apply frame_eq; [exact Hc|]. apply Forall2_eq.
    revert Hr. apply Forall2_weaken. intros r r' H. apply sim_none.
    revert H. apply Forall2_weaken. intros kv kv' [E [Hv|[[[] _] _]]]. split; auto.
  - rewrite !clean_column_eq, <- Hc.
    destruct (count_label x (columns df)) as [|[|n]] eqn:E; try reflexivity.
    + cbn [bind]. apply IH; [exact Hc|].
      revert Hr. apply Forall2_weaken. intros r r'. apply Forall2_weaken.
      intros kv kv' [Ek [Hv|[[[Hk|Hk] Hin] Hv]]]; split; auto.
      * exfalso. subst x. apply mem_In in Hin. apply count_label_mem in Hin. congruence.
    + cbn [bind]. apply IH; [reflexivity|]. cbn [rows columns].
      revert Hr. apply Forall2_map_both. intros r r' H.
      assert (Hx : In x (columns df)).
      { apply mem_In. apply count_label_mem. rewrite E. discriminate. }
      rewrite <- (@sim_cleaned _ x _ _ H) by (split; [left; reflexivity | exact Hx]).
      revert H. apply sim_row_set. intros k [[Hk|Hk] Hin] Hne; [congruence | split; assumption].
Qed.

(** C7.  Whitespace invariance: two fact tables that differ only by
    blanks around the values of foreign-key columns are normalized to
    the same canonical table, [fact_id] included, and two dimension
    tables that differ only by blanks around their keys are normalized
    to the same canonical table. *)
Theorem whitespace_invariance :
  (forall now df df',
     ws_variant (fun k => In (rename_label Fact.COLUMN_MAPPING k) Fact.FK_COLUMNS)
                df df' ->
     Fact.transform now df = Fact.transform now df') /\
  (forall now df df',
     ws_variant (fun k => rename_label Dimension.COLUMN_MAPPING k = u "key" /\
                          In k (columns df)) df df' ->
     Dimension.transform now df = Dimension.transform now df').
Proof.
  split.
  - intros now df df' [Hc Hr].
    unfold Fact.transform, Fact.transform_chain, Fact.run_chain.
    cbn [for_each Fact.call bind]. apply (@fact_transform_sim now).
    + unfold Fact.rename_columns, rename. cbn [columns]. rewrite Hc. reflexivity.
    + unfold Fact.rename_columns, rename. cbn [rows].
      revert Hr. apply Forall2_map_both. intros r r'. apply Forall2_map_both.
      intros kv kv' [E Hv]. split; cbn [fst snd]; [congruence|].
      destruct Hv as [Hv|[Hk Hv]]; [left; exact Hv | right].
      split; [exact Hk | apply padded_strip; exact Hv].
  - intros now df df' [Hc Hr]. unfold Dimension.transform.
    replace (Dimension.clean_strings (Dimension.rename_columns df'))
      with (Dimension.clean_strings (Dimension.rename_columns df)); [reflexivity|].
    apply clean_loop_sim.
    + unfold Dimension.rename_columns, rename. cbn [columns]. rewrite Hc. reflexivity.
    + unfold Dimension.rename_columns, rename. cbn [rows columns].
      revert Hr. apply Forall2_map_both. intros r r'. apply Forall2_map_both.
      intros kv kv' [E Hv]. split; cbn [fst snd]; [congruence|].
      destruct Hv as [Hv|[[Hk Hin] Hv]]; [left; exact Hv | right].
      split; [|apply padded_strip; exact Hv].
      split; [left; symmetry; exact Hk | apply in_map; exact Hin].
Qed.



End WhitespaceFacts.

(** ** Missing values *)

Module NullFacts.
Import Text Frames TextFacts ResultFacts FrameFacts Transformer.
Local Arguments mem : simpl never.

Lemma coerce_missing x :
  x = VStr (u ".") \/ isna x = true \/ (exists s, x = VStr s /\ parse_number s = None) ->
  coerce_cell x = VNaN.
Proof.
  intros [->|[H|[s [-> H]]]].
  - reflexivity.
  - destruct x; simpl in H; try discriminate; reflexivity.
  - simpl. rewrite H. reflexivity.
Qed.

Lemma numeric_choice_missing f x :
  FactFacts.numeric_choice f -> coerce_cell x = VNaN ->
  isna (Fact.where_notnull (Fact.replace_dot (f x))) = true.
Proof. intros [->| ->] H; rewrite H; reflexivity. Qed.

(** C8.  Null normalization: a metric whose raw value is the sentinel
    [.], is missing, or is text that does not read as a number is null
    in the canonical fact row; a [key], [title] or [description] whose
    raw value is the empty string or a single space is null in the
    canonical dimension row. *)
Theorem null_normalization :
  (forall now df out i r c,
     Fact.transform now df = Ok out ->
     nth_error (rows (Fact.rename_columns df)) i = Some r ->
     In c Fact.METRIC_COLUMNS ->
     (row_get c r = VStr (u ".") \/ isna (row_get c r) = true \/
      exists s, row_get c r = VStr s /\ parse_number s = None) ->
     exists r', nth_error (rows out) i = Some r' /\ isna (row_get c r') = true) /\
  (forall now df out i r c,
     Dimension.transform now df = Ok out ->
     nth_error (rows (Dimension.rename_columns df)) i = Some r ->
     In c [u "key"; u "title"; u "description"] ->
     (row_get c r = VStr [] \/ row_get c r = VStr (u " ")) ->
     exists r', nth_error (rows out) i = Some r' /\ isna (row_get c r') = true).
Proof.
  split.
  - intros now df out i r c H Hi Hc Hv.
    apply FactFacts.transform_view in H. destruct H as [_ [_ [nf [Hnf V]]]].
    destruct (@Forall2_nth_error _ _ _ _ _ _ _ V Hi) as [r' [Hi' W]].
    exists r'. split; [exact Hi'|].
    apply mem_In in Hc. rewrite (row_get_lookup c r'), (W c).
    destruct (FactFacts.label_class c) as [K|[K|[K|[K|K]]]];
      destruct K as [K1 [K2 K3]]; try congruence.
    rewrite K1, K2. apply numeric_choice_missing; [apply Hnf|].
    apply coerce_missing. exact Hv.
  - intros now df out i r c H Hi Hc Hv.
    apply DimensionFacts.dimension_transform_view in H. destruct H as [_ V].
    destruct (@Forall2_nth_error _ _ _ _ _ _ _ V Hi) as [r' [Hi' W]].
    exists r'. split; [exact Hi'|].
    assert (Hne : str_eqb c (u "ingested_at") = false).
    { simpl in Hc. destruct Hc as [<-|[<-|[<-|[]]]]; reflexivity. }
    apply mem_In in Hc. fold DimensionFacts.CLEANED in Hc.
    rewrite (row_get_lookup c r'), (W c), Hne, Hc. cbn [andb].
    destruct (mem c (columns (Dimension.rename_columns df))).
    + destruct Hv as [-> | ->]; reflexivity.
    + rewrite row_get_lookup in Hv.
      destruct (lookup c r) as [v|]; [|destruct Hv; discriminate].
      destruct Hv as [-> | ->]; reflexivity.
Qed.

End NullFacts.

(** ** The header pattern and the blocks of the parser *)

Module RegexFacts.
Import Text Frames TextFacts ResultFacts FrameFacts Parser.
Local Arguments mem : simpl never.

Lemma run_bol p st st' :
  run (Bol :: p) st = Some st' -> at_bol st = true /\ run p st = Some st'.
Proof. cbn [run]. destruct (at_bol st); [auto | discriminate]. Qed.

Lemma run_eol p st st' :
  run (Eol :: p) st = Some st' -> at_eol st = true /\ run p st = Some st'.
Proof. cbn [run]. destruct (at_eol st); [auto | discriminate]. Qed.

Lemma run_one cls p st st' :
  run (One cls :: p) st = Some st' ->
  exists c t, after st = c :: t /\ cls c = true /\
              run p (with_cursor st (c :: before st) t) = Some st'.
Proof.
  cbn [run]. destruct (after st) as [|c t]; [discriminate|].
  destruct (cls c) eqn:E; [|discriminate]. eauto.
Qed.

Lemma run_opt cls p st st' :
  run (Opt cls :: p) st = Some st' ->
  (exists c t, after st = c :: t /\ cls c = true /\
               run p (with_cursor st (c :: before st) t) = Some st') \/
  run p st = Some st'.
Proof.
  cbn [run]. destruct (after st) as [|c t]; [auto|].
  destruct (cls c) eqn:E; [|auto].
  unfold or_else. destruct (run p (with_cursor st (c :: before st) t)) eqn:R.
  - intros H. inversion H; subst. left. eauto.
  - auto.
Qed.

Lemma run_open p st :
  run (GroupOpen :: p) st =
  run p (MState (before st) (after st) (pos st) (gtext st)).
Proof. reflexivity. Qed.

Lemma run_close p st :
  run (GroupClose :: p) st =
  run p (MState (before st) (after st) (gstart st)
                (rev (firstn (pos st - gstart st) (before st)))).
Proof. reflexivity. Qed.

(** A greedy repetition took some characters of the class, at least
    [least] of them, and the rest of the pattern matched after them. *)
Lemma run_many cls least p st st' :
  run (Many cls least :: p) st = Some st' ->
  exists taken rest,
    after st = taken ++ rest /\ forallb cls taken = true /\
    (least <= List.length taken)%nat /\
    run p (with_cursor st (rev taken ++ before st) rest) = Some st'.
Proof.
  cbn [run].
  assert (G : forall aft bef n,
    (fix many (bef aft : str) (n : nat) {struct aft} : option mstate :=
       let stop := fun _ : unit =>
         if (least <=? n)%nat then run p (with_cursor st bef aft) else None in
       match aft with
       | c :: t => if cls c then or_else (many (c :: bef) t (S n)) stop else stop tt
       | [] => stop tt
       end) bef aft n = Some st' ->
    exists taken rest,
      aft = taken ++ rest /\ forallb cls taken = true /\
      (least <= n + List.length taken)%nat /\
      run p (with_cursor st (rev taken ++ bef) rest) = Some st').
  { induction aft as [|c t IH]; intros bef n H.
    - destruct (least <=? n)%nat eqn:L; [|discriminate].
      apply Nat.leb_le in L. exists [], []. repeat split; simpl; [lia | exact H].
    - assert (Stop : (if (least <=? n)%nat then run p (with_cursor st bef (c :: t)) else None)
                     = Some st' ->
                     exists taken rest,
                       c :: t = taken ++ rest /\ forallb cls taken = true /\
                       (least <= n + List.length taken)%nat /\
                       run p (with_cursor st (rev taken ++ bef) rest) = Some st').
      { intros H'. destruct (least <=? n)%nat eqn:L; [|discriminate].
        apply Nat.leb_le in L. exists [], (c :: t). repeat split; simpl; [lia | exact H']. }
      destruct (cls c) eqn:E; [|apply Stop; exact H].
      unfold or_else in H.
      match type of H with
      | match ?m with _ => _ end = _ => destruct m eqn:R
      end.
      + inversion H; subst. apply IH in R.
        destruct R as [taken [rest [E1 [E2 [E3 E4]]]]].
        exists (c :: taken), rest. repeat split.
        * simpl. f_equal. exact E1.
        * simpl. rewrite E, E2. reflexivity.
        * simpl. lia.
        * simpl. rewrite <- app_assoc. exact E4.
      + apply Stop. exact H. }
  intros H. apply G in H. destruct H as [taken [rest [E1 [E2 [E3 E4]]]]].
  exists taken, rest. repeat split; auto.
Qed.

(** The shape of a piece of text matched by the header pattern. *)
Definition header_text (name piece : str) : Prop :=
  exists ws bom ws2,
    piece = ws ++ bom ++ [QUOTE] ++ name ++ [QUOTE] ++ ws2 /\
    forallb isspace ws = true /\ (bom = [] \/ bom = [BOM]) /\
    name <> [] /\ ~ In QUOTE name /\ forallb isspace ws2 = true.

Definition line_start (pre : str) : Prop := pre = [] \/ exists p, pre = p ++ [NL].
Definition line_end (post : str) : Prop := post = [] \/ exists p, post = NL :: p.

Lemma at_bol_line_start st : at_bol st = true -> line_start (rev (before st)).
Proof.
  unfold at_bol, line_start. destruct (before st) as [|c t]; [auto|].
  intros H. apply N.eqb_eq in H. subst c. right. exists (rev t). reflexivity.
Qed.

Lemma at_eol_line_end st : at_eol st = true -> line_end (after st).
Proof.
  unfold at_eol, line_end. destruct (after st) as [|c t]; [auto|].
  intros H. apply N.eqb_eq in H. subst c. right. exists t. reflexivity.
Qed.

Lemma not_quote_all name :
  forallb (fun c => negb (N.eqb c QUOTE)) name = true -> ~ In QUOTE name.
Proof.
  intros H Hin. rewrite forallb_forall in H. specialize (H _ Hin).
  rewrite N.eqb_refl in H. discriminate.
Qed.

Lemma header_match bef aft st' :
  run header_pattern (MState bef aft 0 []) = Some st' ->
  exists piece,
    aft = piece ++ after st' /\ header_text (gtext st') piece /\
    line_start (rev bef) /\ line_end (after st') /\
    pos st' = (List.length bef + List.length piece)%nat.
Proof.
  unfold header_pattern. intros H.
  apply run_bol in H. destruct H as [Hbol H].
  apply run_many in H. destruct H as [ws [r1 [E1 [Hws [_ H]]]]].
  unfold pos, with_cursor in *; cbn [after before gstart gtext] in *.
  assert (Hq : forall b a g t,
    run (One (N.eqb QUOTE)
         :: GroupOpen :: Many (fun c => negb (N.eqb c QUOTE)) 1 :: GroupClose
         :: One (N.eqb QUOTE) :: Many isspace 0 :: [Eol]) (MState b a g t) = Some st' ->
    exists name ws2,
      a = [QUOTE] ++ name ++ [QUOTE] ++ ws2 ++ after st' /\
      name <> [] /\ ~ In QUOTE name /\ forallb isspace ws2 = true /\
      gtext st' = name /\ line_end (after st') /\
      pos st' = (List.length b + 2 + List.length name + List.length ws2)%nat).
  { clear. intros b a g t H.
    apply run_one in H. destruct H as [c [a1 [Ea [Hc H]]]].
    apply N.eqb_eq in Hc. subst c.
    rewrite run_open in H.
    unfold pos, with_cursor in *; cbn [after before gstart gtext] in *.
    apply run_many in H. destruct H as [name [a2 [E2 [Hname [Hlen H]]]]].
    rewrite run_close in H.
    unfold pos, with_cursor in *; cbn [after before gstart gtext] in *.
    replace (List.length (rev name ++ QUOTE :: b) - List.length (QUOTE :: b))%nat
      with (List.length (rev name)) in H
      by (rewrite length_app; lia).
    rewrite firstn_app, Nat.sub_diag, firstn_all, firstn_O, app_nil_r, rev_involutive in H.
    apply run_one in H. destruct H as [c [a3 [E3 [Hc H]]]].
    apply N.eqb_eq in Hc. subst c.
    unfold pos, with_cursor in *; cbn [after before gstart gtext] in *.
    apply run_many in H. destruct H as [ws2 [a4 [E4 [Hws2 [_ H]]]]].
    unfold pos, with_cursor in *; cbn [after before gstart gtext] in *.
    apply run_eol in H. destruct H as [Heol H]. cbn [run] in H.
    inversion H; subst st'; clear H.
    apply at_eol_line_end in Heol. cbn [after] in Heol.
    exists name, ws2. cbn [after gtext pos before]. subst.
    repeat split; auto.
    - destruct name; [simpl in Hlen; lia | discriminate].
    - apply not_quote_all. exact Hname.
    - repeat (first [rewrite length_app | rewrite length_rev
                    | progress cbn [List.length app]]). lia. }
  apply run_opt in H. destruct H as [[c [a1 [Ea [Hc H]]]]|H].
  - apply N.eqb_eq in Hc. subst c. unfold pos, with_cursor in *; cbn [after before gstart gtext] in *.
    apply Hq in H. clear Hq.
    destruct H as [name [ws2 [E [Hn [Hnq [Hws2 [Hg [Hend Hpos]]]]]]]].
    exists (ws ++ [BOM] ++ [QUOTE] ++ name ++ [QUOTE] ++ ws2).
    split; [|split; [|split; [|split]]].
    + rewrite E1, Ea, E. rewrite <- !app_assoc. reflexivity.
    + exists ws, [BOM], ws2. rewrite Hg. repeat split; auto.
    + apply (at_bol_line_start (MState bef aft 0 [])). exact Hbol.
    + exact Hend.
    + rewrite Hpos.
      repeat (first [rewrite length_app | rewrite length_rev
                    | progress cbn [List.length app]]). lia.
  - apply Hq in H. clear Hq. unfold pos in *.
    destruct H as [name [ws2 [E [Hn [Hnq [Hws2 [Hg [Hend Hpos]]]]]]]].
    exists (ws ++ [] ++ [QUOTE] ++ name ++ [QUOTE] ++ ws2).
    split; [|split; [|split; [|split]]].
    + rewrite E1, E. rewrite <- !app_assoc. reflexivity.
    + exists ws, [], ws2. rewrite Hg. repeat split; auto.
    + apply (at_bol_line_start (MState bef aft 0 [])). exact Hbol.
    + exact Hend.
    + rewrite Hpos.
      repeat (first [rewrite length_app | rewrite length_rev
                    | progress cbn [List.length app]]). lia.
Qed.


Lemma scan_sound p name : forall aft bef skip,
  In name (scan p bef aft skip) ->
  exists bef' aft' st',
    rev bef' ++ aft' = rev bef ++ aft /\
    run p (MState bef' aft' 0 []) = Some st' /\ gtext st' = name.
Proof.
  induction aft as [|c t IH]; intros bef skip H.
  - destruct skip; cbn [scan] in H; [|contradiction].
    destruct (run p (MState bef [] 0 [])) as [st'|] eqn:R; [|contradiction].
    destruct H as [H|[]]. exists bef, [], st'. auto.
  - assert (Hrec : forall k, In name (scan p (c :: bef) t k) ->
              exists bef' aft' st',
                rev bef' ++ aft' = rev bef ++ c :: t /\
                run p (MState bef' aft' 0 []) = Some st' /\ gtext st' = name).
    { intros k Hk. apply IH in Hk. destruct Hk as [b' [a' [st' [E R]]]].
      exists b', a', st'. split; [|exact R].
      rewrite E. cbn [rev]. rewrite <- app_assoc. reflexivity. }
    destruct skip; cbn [scan] in H; [|eapply Hrec; exact H].
    destruct (run p (MState bef (c :: t) 0 [])) as [st'|] eqn:R.
    + destruct H as [H|H]; [|eapply Hrec; exact H].
      exists bef, (c :: t), st'. auto.
    + eapply Hrec; exact H.
Qed.

(** Every name [_find_sections] reports stands in the document inside
    a piece of text of the shape of a header, which begins at the start
    of a line and ends at the end of one. *)
Lemma find_sections_sound content name :
  In name (_find_sections content) ->
  exists pre piece post,
    content = pre ++ piece ++ post /\
    line_start pre /\ header_text name piece /\ line_end post.
Proof.
  unfold _find_sections, findall. intros H. apply scan_sound in H.
  destruct H as [bef [aft [st' [E [R G]]]]].
  apply header_match in R. destruct R as [piece [Ea [Hh [Hs [He _]]]]].
  exists (rev bef), piece, (after st'). cbn [rev app] in E.
  rewrite <- E, Ea, G in *. auto.
Qed.

(** *** [find] and slices *)

Lemma starts_with_app p s : starts_with p s = true <-> exists t, s = p ++ t.
Proof.
  revert s. induction p as [|a p IH]; intros s; simpl.
  - split; [eauto | reflexivity].
  - destruct s as [|b s].
    + split; [discriminate | intros [t H]; discriminate].
    + rewrite andb_true_iff, IH, N.eqb_eq. split.
      * intros [-> [t ->]]. eauto.
      * intros [t H]. inversion H; subst. eauto.
Qed.

Lemma find_from_found p : forall s i,
  (0 <= i)%Z -> find_from i s p <> (-1)%Z ->
  exists pre post,
    s = pre ++ p ++ post /\ find_from i s p = (i + Z.of_nat (List.length pre))%Z /\
    forall pre' post', s = pre' ++ p ++ post' ->
                       (List.length pre <= List.length pre')%nat.
Proof.
  induction s as [|c t IH]; intros i Hi H; cbn [find_from] in *.
  - destruct (starts_with p []) eqn:E; [|congruence].
    apply starts_with_app in E. destruct E as [post E].
    exists [], post. repeat split; [exact E | simpl; lia | intros; simpl; lia].
  - destruct (starts_with p (c :: t)) eqn:E.
    + apply starts_with_app in E. destruct E as [post E].
      exists [], post. repeat split; [exact E | simpl; lia | intros; simpl; lia].
    + apply IH in H; [|lia]. destruct H as [pre [post [E1 [E2 E3]]]].
      exists (c :: pre), post. repeat split.
      * simpl. f_equal. exact E1.
      * rewrite E2. cbn [List.length]. lia.
      * intros pre' post' E'. destruct pre' as [|c' pre'].
        -- exfalso. assert (starts_with p (c :: t) = true)
             by (apply starts_with_app; eauto). congruence.
        -- inversion E'; subst c'. simpl. apply le_n_S. eapply E3. eassumption.
Qed.

Lemma slice_from pre rest e :
  slice (pre ++ rest) (Z.of_nat (List.length pre)) e =
  firstn (Z.to_nat (clamp (Z.of_nat (List.length (pre ++ rest))) e
                    - Z.of_nat (List.length pre))) rest.
Proof.
  unfold slice. set (len := Z.of_nat (List.length (pre ++ rest))).
  assert (Hlo : clamp len (Z.of_nat (List.length pre)) = Z.of_nat (List.length pre)).
  { unfold clamp, len. rewrite length_app.
    destruct (Z.ltb_spec (Z.of_nat (List.length pre)) 0); lia. }
  rewrite Hlo, Nat2Z.id, skipn_app, skipn_all, Nat.sub_diag. reflexivity.
Qed.

Lemma rstrip_keep a q x :
  isspace q = false -> rstrip (a ++ [q] ++ x) = a ++ [q] ++ rstrip x.
Proof.
  intros Hq. unfold rstrip. rewrite !rev_app_distr. cbn [rev app].
  destruct (lstrip (rev x)) eqn:E.
  - rewrite <- app_assoc. rewrite lstrip_spaces by (apply lstrip_empty_spaces; exact E).
    cbn [app lstrip]. rewrite Hq. cbn [rev]. rewrite rev_involutive.
    reflexivity.
  - rewrite <- app_assoc. rewrite lstrip_app_nonempty by (rewrite E; discriminate).
    rewrite E, rev_app_distr. cbn [rev app]. rewrite rev_involutive, <- app_assoc.
    reflexivity.
Qed.

Lemma strip_quoted marker x :
  strip (full_marker marker ++ x) = full_marker marker ++ rstrip x.
Proof.
  unfold strip, full_marker.
  replace (([QUOTE] ++ marker ++ [QUOTE]) ++ x)
    with ((QUOTE :: marker) ++ [QUOTE] ++ x)
    by (cbn [app]; rewrite <- app_assoc; reflexivity).
  replace (([QUOTE] ++ marker ++ [QUOTE]) ++ rstrip x)
    with ((QUOTE :: marker) ++ [QUOTE] ++ rstrip x)
    by (cbn [app]; rewrite <- app_assoc; reflexivity).
  cbn [app lstrip]. change (isspace QUOTE) with false. cbv iota.
  apply (rstrip_keep (QUOTE :: marker) QUOTE x). reflexivity.
Qed.

(** Where the block of a section starts and what it begins with. *)
Lemma block_shape content marker rest :
  block_start content marker <> (-1)%Z ->
  exists pre post,
    content = pre ++ (full_marker marker ++ [NL]) ++ post /\
    block_start content marker = Z.of_nat (List.length pre) /\
    (forall pre' post', content = pre' ++ (full_marker marker ++ [NL]) ++ post' ->
                        (List.length pre <= List.length pre')%nat) /\
    block_text content marker rest =
      strip (firstn (Z.to_nat (clamp (Z.of_nat (List.length content))
                                     (block_end content rest)
                               - Z.of_nat (List.length pre)))
                    ((full_marker marker ++ [NL]) ++ post)) /\
    ((block_start content marker + Z.of_nat (List.length (full_marker marker))
      <= clamp (Z.of_nat (List.length content)) (block_end content rest))%Z ->
     exists body, block_text content marker rest = full_marker marker ++ body).
Proof.
  unfold block_start, find. intros H.
  apply find_from_found in H; [|lia].
  destruct H as [pre [post [E1 [E2 E3]]]]. exists pre, post.
  split; [exact E1|]. split; [rewrite E2; lia|]. split; [exact E3|].
  assert (Hb : block_text content marker rest =
               strip (firstn (Z.to_nat (clamp (Z.of_nat (List.length content))
                                              (block_end content rest)
                                        - Z.of_nat (List.length pre)))
                             ((full_marker marker ++ [NL]) ++ post))).
  { unfold block_text, block_start, find. rewrite E2. cbn [Z.add].
    rewrite E1 at 1. rewrite slice_from. rewrite <- E1. reflexivity. }
  split; [exact Hb|].
  intros Hle. rewrite Hb. rewrite E2 in Hle.
  rewrite <- app_assoc, firstn_app.
  rewrite firstn_all2 by lia.
  rewrite strip_quoted. eauto.
Qed.

End RegexFacts.

(** ** The sections the parser returns *)

Module ParserFacts.
Import Text Frames TextFacts ResultFacts FrameFacts Parser.
Local Arguments mem : simpl never.

Lemma dict_get_app_absent {V} k (d e : Dict.dict V) :
  Dict.get k d = None -> Dict.get k (d ++ e) = Dict.get k e.
Proof. apply lookup_app_r. Qed.

Lemma dict_set_absent {V} k (v : V) d :
  Dict.get k d = None -> Dict.set k v d = d ++ [(k, v)].
Proof.
  unfold Dict.get. induction d as [|[k' v'] d IH]; simpl; intros H; [reflexivity|].
  destruct (str_eqb k' k); [discriminate|]. f_equal. apply IH. exact H.
Qed.

Section WithReader.

Variable read_csv : str -> forall (sep : str) (skiprows : nat) (quotechar : char), result frame.
Variables sep content : str.

(** What the loop does with the section [marker] followed by the
    sections [rest]: nothing when its quoted name followed by a line
    feed is not found, otherwise the reader's verdict on its block. *)
Definition outcome (marker : str) (rest : list str) : option (result frame) :=
  if (block_start content marker =? -1)%Z then None
  else Some (read_csv (block_text content marker rest) sep 1 QUOTE).

Definition message (marker : str) (e : exn) : str :=
  u "Error while parsing section '" ++ marker ++ u "': " ++ exn_str e.

(** The sections that were read, and the failures that were printed. *)
Fixpoint parsed (secs : list str) : Dict.dict frame :=
  match secs with
  | [] => []
  | m :: rest =>
      match outcome m rest with
      | Some (Ok df) => (m, df) :: parsed rest
      | _ => parsed rest
      end
  end.

Fixpoint reported (secs : list str) : list str :=
  match secs with
  | [] => []
  | m :: rest =>
      match outcome m rest with
      | Some (Raise e) => message m e :: reported rest
      | _ => reported rest
      end
  end.

Lemma parse_section_outcome marker rest st :
  parse_section read_csv sep content marker rest st =
  match outcome marker rest with
  | None => st
  | Some (Ok df) => PState (Dict.set marker df (dataframes st)) (printed st)
  | Some (Raise e) => PState (dataframes st) (printed st ++ [message marker e])
  end.
Proof.
  unfold parse_section, outcome.
  destruct (block_start content marker =? -1)%Z; [reflexivity|].
  destruct (read_csv _ _ _ _); reflexivity.
Qed.

Lemma parse_sections_spec secs :
  NoDup secs -> forall st,
  (forall m, In m secs -> Dict.get m (dataframes st) = None) ->
  parse_sections read_csv sep content secs st =
  PState (dataframes st ++ parsed secs) (printed st ++ reported secs).
Proof.
  induction 1 as [|m rest Hm Hnd IH]; intros st Hfresh; cbn [parse_sections parsed reported].
  - rewrite !app_nil_r. destruct st; reflexivity.
  - rewrite parse_section_outcome.
    assert (Hrest : forall m', In m' rest -> Dict.get m' (dataframes st) = None)
      by (intros; apply Hfresh; right; assumption).
    destruct (outcome m rest) as [[df|e]|].
    + rewrite IH; cbn [dataframes printed].
      * rewrite dict_set_absent by (apply Hfresh; left; reflexivity).
        rewrite <- app_assoc. reflexivity.
      * intros m' Hm'. rewrite dict_set_absent by (apply Hfresh; left; reflexivity).
        rewrite dict_get_app_absent by (apply Hrest; exact Hm').
        simpl. destruct (str_eqb m m') eqn:E; [|reflexivity].
        apply str_eqb_eq in E. subst. contradiction.
    + rewrite IH; cbn [dataframes printed]; [|exact Hrest].
      rewrite <- app_assoc. reflexivity.
    + apply IH. exact Hrest.
Qed.

Lemma parsed_keys secs m : ~ In m secs -> Dict.get m (parsed secs) = None.
Proof.
  induction secs as [|x rest IH]; intros H; cbn [parsed]; [reflexivity|].
  assert (Hx : x <> m) by (intros ->; apply H; left; reflexivity).
  assert (Hr : ~ In m rest) by (intros Hin; apply H; right; exact Hin).
  destruct (outcome x rest) as [[df|e]|]; auto.
  simpl. apply str_eqb_neq in Hx. rewrite Hx. auto.
Qed.

Lemma parsed_get pre m rest :
  NoDup (pre ++ m :: rest) ->
  Dict.get m (parsed (pre ++ m :: rest)) =
  match outcome m rest with Some (Ok df) => Some df | _ => None end.
Proof.
  induction pre as [|x pre IH]; intros H; cbn [app parsed].
  - inversion H; subst.
    destruct (outcome m rest) as [[df|e]|]; try (apply parsed_keys; assumption).
    simpl. rewrite str_eqb_refl. reflexivity.
  - inversion H; subst.
    assert (Hx : x <> m) by (intros ->; apply H2; apply in_or_app; right; left; reflexivity).
    destruct (outcome x (pre ++ m :: rest)) as [[df|e]|]; auto.
    simpl. apply str_eqb_neq in Hx. rewrite Hx. auto.
Qed.

Lemma reported_in pre m rest e :
  outcome m rest = Some (Raise e) -> In (message m e) (reported (pre ++ m :: rest)).
Proof.
  intros H. induction pre as [|x pre IH]; cbn [app reported].
  - rewrite H. left. reflexivity.
  - destruct (outcome x (pre ++ m :: rest)) as [[df|e']|]; auto. right. exact IH.
Qed.

End WithReader.

End ParserFacts.

(** ** The schemas of the validator *)

Module ValidatorFacts.
Import Text Frames TextFacts ResultFacts FrameFacts Validator.
Local Arguments mem : simpl never.

Definition column (c : str) (df : frame) : list cell := map (row_get c) (rows df).

(** What a [Column] asks of the values of a column. *)
Definition column_ok (c : Column) (vals : list cell) : Prop :=
  (col_nullable c = false -> Forall (fun v => isna v = false) vals) /\
  (col_unique c = true -> has_duplicates vals = false) /\
  match col_dtype c with
  | Some t => Forall (fun v => has_dtype t v = true) vals
  | None => True
  end /\
  match col_isin c with
  | Some allowed =>
      Forall (fun v => isna v = true \/ existsb (cell_eqb v) allowed = true) vals
  | None => True
  end.

Lemma forallb_Forall {A} (f : A -> bool) l :
  forallb f l = true <-> Forall (fun x => f x = true) l.
Proof. rewrite forallb_forall, Forall_forall. reflexivity. Qed.

Lemma existsb_false_Forall {A} (f : A -> bool) l :
  existsb f l = false <-> Forall (fun x => f x = false) l.
Proof.
  induction l; simpl; [split; [constructor | reflexivity]|].
  rewrite orb_false_iff, IHl. split.
  - intros [H1 H2]. constructor; assumption.
  - intros H. inversion H; auto.
Qed.

Lemma validate_column_iff df name c :
  validate_column df tt (name, c) = Ok tt <->
  count_label name (columns df) = 1%nat /\ column_ok c (column name df).
Proof.
  unfold validate_column, column_ok, getitem, column.
  destruct (count_label name (columns df)) as [|[|n]]; cbn [bind];
    try (split; [discriminate | intros [H _]; discriminate]).
  set (vals := map (row_get name) (rows df)).
  unfold check_nullable, check_unique, check_dtype, run_checks.
  destruct c as [dt isin uniq nullable]; cbn [col_dtype col_isin col_unique col_nullable].
  split.
  - intros H. split; [reflexivity|].
    destruct nullable; cbn [negb andb] in H.
    + destruct (uniq && has_duplicates vals) eqn:U; cbn [bind] in H; [discriminate|].
      split; [discriminate|]. split.
      { intros ->. exact U. }
      destruct dt as [t|].
      * destruct (forallb (has_dtype t) vals) eqn:D; cbn [bind] in H; [|discriminate].
        split; [apply forallb_Forall; exact D|].
        destruct isin as [allowed|]; [|exact I].
        destruct (forallb _ vals) eqn:C in H; [|discriminate].
        apply forallb_Forall in C. revert C. apply Forall_impl.
        intros v Hv. apply orb_true_iff in Hv. exact Hv.
      * cbn [bind] in H. split; [exact I|].
        destruct isin as [allowed|]; [|exact I].
        destruct (forallb _ vals) eqn:C in H; [|discriminate].
        apply forallb_Forall in C. revert C. apply Forall_impl.
        intros v Hv. apply orb_true_iff in Hv. exact Hv.
    + destruct (existsb isna vals) eqn:N; cbn [bind] in H; [discriminate|].
      destruct (uniq && has_duplicates vals) eqn:U; cbn [bind] in H; [discriminate|].
      split; [intros _; apply existsb_false_Forall; exact N|]. split.
      { intros ->. exact U. }
      destruct dt as [t|].
      * destruct (forallb (has_dtype t) vals) eqn:D; cbn [bind] in H; [|discriminate].
        split; [apply forallb_Forall; exact D|].
        destruct isin as [allowed|]; [|exact I].
        destruct (forallb _ vals) eqn:C in H; [|discriminate].
        apply forallb_Forall in C. revert C. apply Forall_impl.
        intros v Hv. apply orb_true_iff in Hv. exact Hv.
      * cbn [bind] in H. split; [exact I|].
        destruct isin as [allowed|]; [|exact I].
        destruct (forallb _ vals) eqn:C in H; [|discriminate].
        apply forallb_Forall in C. revert C. apply Forall_impl.
        intros v Hv. apply orb_true_iff in Hv. exact Hv.
  - intros [_ [Hn [Hu [Hd Hi]]]].
    assert (N : negb nullable && existsb isna vals = false).
    { destruct nullable; [reflexivity|]. cbn [negb andb].
      apply existsb_false_Forall. apply Hn. reflexivity. }
    assert (U : uniq && has_duplicates vals = false).
    { destruct uniq; [|reflexivity]. cbn [andb]. apply Hu. reflexivity. }
    rewrite N, U. cbn [bind].
    assert (D : match dt with
                | Some t => if forallb (has_dtype t) vals then Ok tt
                            else Raise (SchemaError name (u "series has the wrong data type"))
                | None => Ok tt
                end = Ok tt).
    { destruct dt as [t|]; [|reflexivity].
      apply forallb_Forall in Hd. rewrite Hd. reflexivity. }
    rewrite D. cbn [bind].
    destruct isin as [allowed|]; [|reflexivity].
    assert (C : forallb (fun v => isna v || existsb (cell_eqb v) allowed) vals = true).
    { apply forallb_Forall. revert Hi. apply Forall_impl.
      intros v Hv. apply orb_true_iff. exact Hv. }
    rewrite C. reflexivity.
Qed.

Lemma validate_iff schema df df' :
  validate schema df = Ok df' <->
  df' = df /\
  Forall (fun nc => count_label (fst nc) (columns df) = 1%nat /\
                    column_ok (snd nc) (column (fst nc) df)) schema.
Proof.
  unfold validate. split.
  - intros H. apply bind_ok in H. destruct H as [[] [_ H]].
    apply bind_ok in H. destruct H as [[] [H E]].
    inversion E; subst df'. split; [reflexivity|].
    apply (for_each_checks (fun nc => validate_column df tt nc)) in H.
    revert H. apply Forall_impl.
    intros [name c] H. apply validate_column_iff in H. exact H.
  - intros [-> H].
    assert (P : for_each (check_presence df) schema tt = Ok tt).
    { apply (for_each_checks (fun nc => check_presence df tt nc)).
      revert H. apply Forall_impl. intros [name c] [Hc _].
      unfold check_presence. cbn [fst] in *.
      assert (M : mem name (columns df) = true)
        by (apply count_label_mem; rewrite Hc; discriminate).
      rewrite M. reflexivity. }
    rewrite P. cbn [bind].
    assert (V : for_each (validate_column df) schema tt = Ok tt).
    { apply (for_each_checks (fun nc => validate_column df tt nc)).
      revert H. apply Forall_impl. intros [name c] H.
      apply validate_column_iff. exact H. }
    rewrite V. reflexivity.
Qed.


(** *** The rules in plain terms *)

Definition text (v : cell) : Prop := exists s, v = VStr s.
Definition text_or_null (v : cell) : Prop := isna v = true \/ text v.
Definition float_or_null (v : cell) : Prop := isna v = true \/ exists f, v = VFloat f.
Definition present (v : cell) : Prop := isna v = false.

Lemma text_iff v : isna v = false /\ has_dtype DStr v = true <-> text v.
Proof.
  split.
  - intros [H1 H2]. destruct v; simpl in *; try discriminate. eexists; reflexivity.
  - intros [s ->]. split; reflexivity.
Qed.

Lemma text_or_null_iff v : has_dtype DStr v = true <-> text_or_null v.
Proof.
  split.
  - destruct v; simpl; try discriminate; intros _;
      [right; eexists; reflexivity | left; reflexivity | left; reflexivity].
  - intros [H|[s ->]]; [destruct v; simpl in *; try discriminate|]; reflexivity.
Qed.

Lemma float_or_null_iff v : has_dtype DFloat v = true <-> float_or_null v.
Proof.
  split.
  - destruct v; simpl; try discriminate; intros _;
      [right; eexists; reflexivity | left; reflexivity | left; reflexivity].
  - intros [H|[f ->]]; [destruct v; simpl in *; try discriminate|]; reflexivity.
Qed.

Lemma Forall_iff {A} (P Q : A -> Prop) l :
  (forall x, P x <-> Q x) -> Forall P l <-> Forall Q l.
Proof. intros H. split; apply Forall_impl; intros x; apply H. Qed.

Lemma Forall_and_iff {A} (P Q : A -> Prop) l :
  Forall P l /\ Forall Q l <-> Forall (fun x => P x /\ Q x) l.
Proof.
  split.
  - intros [H1 H2]. induction H1; inversion H2; subst; constructor; auto.
  - intros H. split; revert H; apply Forall_impl; tauto.
Qed.

Lemma cell_eqb_text s v : cell_eqb (VStr s) v = true <-> v = VStr s.
Proof.
  destruct v; simpl; try (split; [discriminate | intros H; discriminate H]).
  rewrite str_eqb_eq. split; congruence.
Qed.

Lemma existsb_cell_eqb_text v l :
  text v -> existsb (cell_eqb v) l = true <-> In v l.
Proof.
  intros [s ->]. rewrite existsb_exists. split.
  - intros [x [Hx E]]. apply cell_eqb_text in E. subst. exact Hx.
  - intros H. exists (VStr s). split; [exact H | apply cell_eqb_text; reflexivity].
Qed.

Lemma has_duplicates_NoDup vals :
  Forall text vals -> has_duplicates vals = false <-> NoDup vals.
Proof.
  induction 1 as [|v vals Hv Hvals IH]; simpl.
  - split; [constructor | reflexivity].
  - rewrite orb_false_iff, IH. split.
    + intros [H1 H2]. constructor; [|exact H2].
      intros Hin. apply (existsb_cell_eqb_text vals Hv) in Hin. congruence.
    + intros H. inversion H; subst. split; [|assumption].
      destruct (existsb (cell_eqb v) vals) eqn:E; [|reflexivity].
      apply (existsb_cell_eqb_text vals Hv) in E. contradiction.
Qed.

Lemma key_column_iff vals :
  column_ok (MkColumn (Some DStr) None true false) vals <->
  Forall text vals /\ NoDup vals.
Proof.
  unfold column_ok. cbn [col_dtype col_isin col_unique col_nullable]. split.
  - intros [Hn [Hu [Hd _]]].
    assert (Ht : Forall text vals).
    { apply (Forall_iff _ _ vals text_iff). apply Forall_and_iff. auto. }
    split; [exact Ht|]. apply has_duplicates_NoDup; auto.
  - intros [Ht Hnd]. apply (Forall_iff _ _ vals text_iff) in Ht.
    apply Forall_and_iff in Ht. destruct Ht as [H1 H2].
    repeat split; auto. intros _. apply has_duplicates_NoDup; [|exact Hnd].
    apply (Forall_iff _ _ vals text_iff). apply Forall_and_iff. auto.
Qed.

Lemma text_column_iff vals :
  column_ok (MkColumn (Some DStr) None false false) vals <-> Forall text vals.
Proof.
  unfold column_ok. cbn [col_dtype col_isin col_unique col_nullable]. split.
  - intros [Hn [_ [Hd _]]].
    apply (Forall_iff _ _ vals text_iff). apply Forall_and_iff. auto.
  - intros Ht. apply (Forall_iff _ _ vals text_iff) in Ht.
    apply Forall_and_iff in Ht. destruct Ht as [H1 H2].
    repeat split; auto. discriminate.
Qed.

Lemma nullable_text_column_iff vals :
  column_ok (MkColumn (Some DStr) None false true) vals <-> Forall text_or_null vals.
Proof.
  unfold column_ok. cbn [col_dtype col_isin col_unique col_nullable].
  rewrite <- (Forall_iff _ _ vals text_or_null_iff). split.
  - intros [_ [_ [Hd _]]]. exact Hd.
  - intros H. repeat split; auto; discriminate.
Qed.

Lemma metric_column_iff vals :
  column_ok metric_column vals <-> Forall float_or_null vals.
Proof.
  unfold column_ok, metric_column. cbn [col_dtype col_isin col_unique col_nullable].
  rewrite <- (Forall_iff _ _ vals float_or_null_iff). split.
  - intros [_ [_ [Hd _]]]. exact Hd.
  - intros H. repeat split; auto; discriminate.
Qed.

Lemma present_column_iff vals :
  column_ok (MkColumn None None false false) vals <-> Forall present vals.
Proof.
  unfold column_ok. cbn [col_dtype col_isin col_unique col_nullable]. split.
  - intros [Hn _]. auto.
  - intros H. repeat split; auto. discriminate.
Qed.

Lemma fk_column_iff allowed vals :
  column_ok (fk_column allowed) vals <->
  Forall (fun v => text v /\ In v allowed) vals.
Proof.
  unfold column_ok, fk_column. cbn [col_dtype col_isin col_unique col_nullable]. split.
  - intros [Hn [_ [Hd Hi]]].
    assert (Ht : Forall text vals).
    { apply (Forall_iff _ _ vals text_iff). apply Forall_and_iff. auto. }
    assert (Hb : Forall (fun v => text v /\ (isna v = true \/ existsb (cell_eqb v) allowed = true)) vals)
      by (apply Forall_and_iff; auto).
    clear - Hb. revert Hb. apply Forall_impl.
    intros v [Hv [Hna|He]]; split; try exact Hv.
    + destruct Hv as [s ->]. discriminate.
    + apply (existsb_cell_eqb_text allowed Hv). exact He.
  - intros H. apply Forall_and_iff in H. destruct H as [Ht Hin].
    pose proof Ht as Ht'. apply (Forall_iff _ _ vals text_iff) in Ht'.
    apply Forall_and_iff in Ht'. destruct Ht' as [H1 H2].
    repeat split; auto; try discriminate.
    assert (Hb : Forall (fun v => text v /\ In v allowed) vals)
      by (apply Forall_and_iff; auto).
    revert Hb. apply Forall_impl. intros v [Hv Hi]. right.
    apply (existsb_cell_eqb_text allowed Hv). exact Hi.
Qed.


Definition unique_column (c : str) (df : frame) : Prop :=
  count_label c (columns df) = 1%nat.

(** The rules a dimension table has to meet. *)
Definition dimension_ok (df : frame) : Prop :=
  (unique_column (u "key") df /\
   Forall text (column (u "key") df) /\ NoDup (column (u "key") df)) /\
  (unique_column (u "title") df /\ Forall text (column (u "title") df)) /\
  (unique_column (u "description") df /\
   Forall text_or_null (column (u "description") df)) /\
  (unique_column (u "ingested_at") df /\
   Forall present (column (u "ingested_at") df)).

Lemma dimension_schema_iff df df' :
  validate dimension_schema df = Ok df' <-> df' = df /\ dimension_ok df.
Proof.
  rewrite validate_iff. unfold dimension_schema, dimension_ok, unique_column.
  rewrite !Forall_cons_iff. cbn [fst snd].
  rewrite key_column_iff, text_column_iff, nullable_text_column_iff, present_column_iff.
  split.
  - intros [E [A [B [C [D _]]]]]. tauto.
  - intros [E [A [B [C D]]]]. repeat split; try tauto. constructor.
Qed.

Lemma validate_dimensions_iff dimensions :
  (exists out, validate_dimensions dimensions = Ok out) <->
  Forall (fun item => dimension_ok (snd item)) dimensions.
Proof.
  unfold validate_dimensions. generalize (@nil (str * frame)) as acc.
  induction dimensions as [|[name df] rest IH]; intros acc; cbn [for_each].
  - split; [constructor | eauto].
  - split.
    + intros [out H]. apply bind_ok in H. destruct H as [acc' [H1 H2]].
      apply bind_ok in H1. destruct H1 as [df' [H1 _]].
      apply dimension_schema_iff in H1. constructor; [tauto|].
      apply (IH acc'). eauto.
    + intros H. inversion H; subst. cbn [snd] in *.
      assert (E : validate dimension_schema df = Ok df)
        by (apply dimension_schema_iff; auto).
      cbn [snd fst]. rewrite E. cbn [bind]. apply IH. assumption.
Qed.

Lemma dimension_keys_iff dimensions name vals :
  dimension_keys dimensions name = Ok vals <->
  exists t, Dict.get name dimensions = Some t /\
            unique_column (u "key") t /\ vals = column (u "key") t.
Proof.
  unfold dimension_keys, Dict.item, unique_column, column, getitem.
  destruct (Dict.get name dimensions) as [t|]; cbn [bind].
  - destruct (count_label (u "key") (columns t)) as [|[|n]] eqn:C.
    + split; [discriminate|]. intros [t' [E [H _]]]. inversion E; subst. congruence.
    + split.
      * intros H. inversion H. exists t. auto.
      * intros [t' [E [_ ->]]]. inversion E. reflexivity.
    + split; [discriminate|]. intros [t' [E [H _]]]. inversion E; subst. congruence.
  - split; [discriminate | intros [t [E _]]; discriminate].
Qed.

(** The rules the fact table has to meet, given the dimension tables. *)
Definition reference_ok (dimensions : Dict.dict frame) (fact : frame)
           (ref : str * str) : Prop :=
  exists t, Dict.get (snd ref) dimensions = Some t /\
            unique_column (u "key") t /\ unique_column (fst ref) fact /\
            Forall (fun v => text v /\ In v (column (u "key") t))
                   (column (fst ref) fact).

Definition fact_ok (dimensions : Dict.dict frame) (fact : frame) : Prop :=
  Forall (reference_ok dimensions fact) Claimed.REFERENCES /\
  (unique_column (u "fact_id") fact /\ Forall text (column (u "fact_id") fact)) /\
  Forall (fun m => unique_column m fact /\ Forall float_or_null (column m fact))
         Transformer.Fact.METRIC_COLUMNS /\
  (unique_column (u "ingested_at") fact /\
   Forall present (column (u "ingested_at") fact)).

Ltac split_Forall :=
  repeat match goal with
         | H : Forall _ (_ :: _) |- _ => inversion H; clear H; subst
         | H : Forall _ [] |- _ => clear H
         end.

Lemma validate_fact_iff dimensions fact :
  (exists out, validate_fact dimensions fact = Ok out) <-> fact_ok dimensions fact.
Proof.
  unfold validate_fact, fact_schema. split.
  - intros [out H]. apply bind_ok in H. destruct H as [sch [Hs Hv]].
    apply bind_ok in Hs. destruct Hs as [tm [K1 Hs]].
    apply bind_ok in Hs. destruct Hs as [po [K2 Hs]].
    apply bind_ok in Hs. destruct Hs as [mo [K3 Hs]].
    apply bind_ok in Hs. destruct Hs as [ma [K4 Hs]].
    apply bind_ok in Hs. destruct Hs as [re [K5 Hs]].
    apply bind_ok in Hs. destruct Hs as [pe [K6 Hs]].
    inversion Hs; subst sch; clear Hs.
    apply validate_iff in Hv. destruct Hv as [_ Hv].
    apply dimension_keys_iff in K1, K2, K3, K4, K5, K6.
    destruct K1 as [t1 [G1 [U1 ->]]]. destruct K2 as [t2 [G2 [U2 ->]]].
    destruct K3 as [t3 [G3 [U3 ->]]]. destruct K4 as [t4 [G4 [U4 ->]]].
    destruct K5 as [t5 [G5 [U5 ->]]]. destruct K6 as [t6 [G6 [U6 ->]]].
    split_Forall. cbn [fst snd] in *.
    repeat match goal with
           | H : _ /\ column_ok (fk_column _) _ |- _ =>
               rewrite fk_column_iff in H
           | H : _ /\ column_ok metric_column _ |- _ =>
               rewrite metric_column_iff in H
           | H : _ /\ column_ok (MkColumn (Some DStr) None false false) _ |- _ =>
               rewrite text_column_iff in H
           | H : _ /\ column_ok (MkColumn None None false false) _ |- _ =>
               rewrite present_column_iff in H
           end.
    unfold fact_ok, Claimed.REFERENCES, Transformer.Fact.METRIC_COLUMNS.
    split; [|split; [assumption|split; [|assumption]]].
    + unfold reference_ok, unique_column.
      apply Forall_cons; [exists t1; cbn [fst snd]; tauto|].
      apply Forall_cons; [exists t2; cbn [fst snd]; tauto|].
      apply Forall_cons; [exists t3; cbn [fst snd]; tauto|].
      apply Forall_cons; [exists t4; cbn [fst snd]; tauto|].
      apply Forall_cons; [exists t5; cbn [fst snd]; tauto|].
      apply Forall_cons; [exists t6; cbn [fst snd]; tauto|].
      apply Forall_nil.
    + repeat (apply Forall_cons; [assumption|]). apply Forall_nil.
  - intros [Hr [Hid [Hm Hia]]].
    unfold Claimed.REFERENCES, Transformer.Fact.METRIC_COLUMNS in *.
    split_Forall.
    repeat match goal with
           | H : reference_ok _ _ _ |- _ =>
               let t := fresh "t" in
               destruct H as [t [? [? [? ?]]]]
           end.
    cbn [fst snd] in *.
    repeat match goal with
           | G : Dict.get ?n dimensions = Some ?t, U : unique_column (u "key") ?t |- _ =>
               assert (dimension_keys dimensions n = Ok (column (u "key") t))
                 by (apply dimension_keys_iff; eauto);
               clear G
           end.
    repeat match goal with
           | H : dimension_keys _ _ = Ok _ |- _ => rewrite H; clear H
           end.
    cbn [bind]. exists fact. apply validate_iff. split; [reflexivity|].
    repeat (constructor; [cbn [fst snd];
      first [rewrite fk_column_iff | rewrite metric_column_iff
            | rewrite text_column_iff | rewrite present_column_iff]; tauto|]).
    constructor.
Qed.

End ValidatorFacts.

(** ** The stages of the pipeline *)

Module EtlFacts.
Import Text Frames TextFacts ResultFacts FrameFacts Etl.
Local Arguments mem : simpl never.
Local Open Scope pipeline_scope.

(** What a method leaves untouched or appends to. *)
Definition keeps_store {A} (m : M A) : Prop :=
  forall p, store (snd (m p)) = store p.

Definition logs {A} (m : M A) (ss : list stage) : Prop :=
  forall p, entered (snd (m p)) = entered p ++ ss.

Lemma bindM_keeps {A B} (m : M A) (k : A -> M B) :
  keeps_store m -> (forall a, keeps_store (k a)) -> keeps_store (bindM m k).
Proof.
  intros Hm Hk p. unfold bindM. specialize (Hm p).
  destruct (m p) as [[a|e] p1]; cbn [snd] in *; [rewrite Hk|]; exact Hm.
Qed.

Lemma bindM_logs_nil {A B} (m : M A) (k : A -> M B) :
  logs m [] -> (forall a, logs (k a) []) -> logs (bindM m k) [].
Proof.
  intros Hm Hk p. unfold bindM. specialize (Hm p).
  destruct (m p) as [[a|e] p1]; cbn [snd] in *.
  - rewrite Hk, Hm, !app_nil_r. reflexivity.
  - exact Hm.
Qed.

Lemma lift_quiet {A} (r : result A) : keeps_store (lift r) /\ logs (lift r) [].
Proof. split; intros p; cbn; [|rewrite app_nil_r]; reflexivity. Qed.

Lemma ret_quiet {A} (a : A) : keeps_store (ret a) /\ logs (ret a) [].
Proof. split; intros p; cbn; [|rewrite app_nil_r]; reflexivity. Qed.

Lemma get_quiet {A} (f : pipeline -> A) : keeps_store (get f) /\ logs (get f) [].
Proof. split; intros p; cbn; [|rewrite app_nil_r]; reflexivity. Qed.

Lemma read_clock_quiet : keeps_store read_clock /\ logs read_clock [].
Proof. split; intros p; cbn; [|rewrite app_nil_r]; reflexivity. Qed.

Lemma need_frame_quiet f : keeps_store (need_frame f) /\ logs (need_frame f) [].
Proof. destruct f; split; intros p; cbn; rewrite ?app_nil_r; reflexivity. Qed.

Lemma set_raw_quiet d f : keeps_store (set_raw d f) /\ logs (set_raw d f) [].
Proof. split; intros p; cbn; [|rewrite app_nil_r]; reflexivity. Qed.

Lemma set_dimension_quiet n d :
  keeps_store (set_transformed_dimension n d) /\ logs (set_transformed_dimension n d) [].
Proof. split; intros p; cbn; [|rewrite app_nil_r]; reflexivity. Qed.

Lemma set_facts_quiet d :
  keeps_store (set_transformed_facts d) /\ logs (set_transformed_facts d) [].
Proof. split; intros p; cbn; [|rewrite app_nil_r]; reflexivity. Qed.

Lemma log_stage_spec s : keeps_store (log_stage s) /\ logs (log_stage s) [s].
Proof. split; intros p; reflexivity. Qed.

Definition quiet {A} (m : M A) : Prop := keeps_store m /\ logs m [].

Lemma bindM_quiet {A B} (m : M A) (k : A -> M B) :
  quiet m -> (forall a, quiet (k a)) -> quiet (bindM m k).
Proof.
  intros [H1 H2] Hk. split.
  - apply bindM_keeps; [exact H1 | intros a; apply Hk].
  - apply bindM_logs_nil; [exact H2 | intros a; apply Hk].
Qed.

(** A stage logs its name, then works without touching the log. *)
Lemma stage_logs {A} s (m : M A) : quiet m -> logs (log_stage s >> m) [s].
Proof.
  intros [_ H] p. unfold bindM, log_stage.
  set (p1 := Pipeline (raw_dimensions p) (raw_facts p) (transformed_dimensions p)
                      (transformed_facts p) (store p) (clock p) (ticks p)
                      (entered p ++ [s])).
  specialize (H p1). cbv beta iota.
  destruct (m p1) as [[a|e] p2]; cbn [snd] in *; rewrite H, app_nil_r; reflexivity.
Qed.

Lemma stage_keeps {A} s (m : M A) : quiet m -> keeps_store (log_stage s >> m).
Proof.
  intros [H _]. apply bindM_keeps; [apply log_stage_spec | intros _; exact H].
Qed.

Section WithReader.

Variable read_csv : str -> forall (sep : str) (skiprows : nat) (quotechar : char), result frame.

Lemma transform_dimensions_quiet dims : quiet (transform_dimensions dims).
Proof.
  induction dims as [|[name df] rest IH]; cbn [transform_dimensions].
  - apply ret_quiet.
  - destruct (mem name DIMENSION_NAMES); [|exact IH].
    apply bindM_quiet; [apply read_clock_quiet|]. intros now.
    apply bindM_quiet; [apply lift_quiet|]. intros out.
    apply bindM_quiet; [apply set_dimension_quiet|]. intros _. exact IH.
Qed.

Lemma extract_body_quiet cfg :
  quiet (parsed <-- lift (Parser.parse read_csv (METADATA_PATH cfg) (u ";")) ;;
         facts <-- lift (datasource_read read_csv cfg) ;;
         set_raw (Parser.dataframes parsed) facts).
Proof.
  apply bindM_quiet; [apply lift_quiet|]. intros parsed.
  apply bindM_quiet; [apply lift_quiet|]. intros facts. apply set_raw_quiet.
Qed.

Lemma transform_body_quiet :
  quiet (dims <-- get raw_dimensions ;;
         transform_dimensions dims >>
         raw <-- get raw_facts ;;
         facts <-- need_frame raw ;;
         now <-- read_clock ;;
         out <-- lift (Transformer.Fact.transform now facts) ;;
         set_transformed_facts out).
Proof.
  apply bindM_quiet; [apply get_quiet|]. intros dims.
  apply bindM_quiet; [apply transform_dimensions_quiet|]. intros _.
  apply bindM_quiet; [apply get_quiet|]. intros raw.
  apply bindM_quiet; [apply need_frame_quiet|]. intros facts.
  apply bindM_quiet; [apply read_clock_quiet|]. intros now.
  apply bindM_quiet; [apply lift_quiet|]. intros out. apply set_facts_quiet.
Qed.

Lemma validate_body_quiet :
  quiet (dims <-- get transformed_dimensions ;;
         tf <-- get transformed_facts ;;
         facts <-- need_frame tf ;;
         lift (Validator.validate_all dims facts) >>
         ret tt).
Proof.
  apply bindM_quiet; [apply get_quiet|]. intros dims.
  apply bindM_quiet; [apply get_quiet|]. intros tf.
  apply bindM_quiet; [apply need_frame_quiet|]. intros facts.
  apply bindM_quiet; [apply lift_quiet|]. intros _. apply ret_quiet.
Qed.

Lemma load_logs cfg p : entered (snd (load cfg p)) = entered p ++ [Load].
Proof.
  unfold load, bindM, log_stage, get, set_store, lift, need_frame, ret, raise.
  cbn [fst snd entered transformed_dimensions store transformed_facts].
  destruct (Loader.load_dimensions (SCHEMA cfg) (transformed_dimensions p) [] (store p))
    as [[r|e] db1]; cbn [snd entered]; [|reflexivity].
  destruct (transformed_facts p) as [facts|]; cbn [snd entered transformed_facts];
    [|reflexivity].
  destruct (Loader.load_fact (SCHEMA cfg) facts db1) as [[n db2]|e];
    cbn [snd entered]; reflexivity.
Qed.


Lemma extract_spec cfg : logs (extract read_csv cfg) [Extract] /\ keeps_store (extract read_csv cfg).
Proof.
  split; [apply (stage_logs Extract (extract_body_quiet cfg))
         | apply (stage_keeps Extract (extract_body_quiet cfg))].
Qed.

Lemma transform_spec : logs (transform) [Transform] /\ keeps_store (transform).
Proof.
  split; [apply (stage_logs Transform transform_body_quiet)
         | apply (stage_keeps Transform transform_body_quiet)].
Qed.

Lemma validate_spec : logs validate [Validate] /\ keeps_store validate.
Proof.
  split; [apply (stage_logs Validate validate_body_quiet)
         | apply (stage_keeps Validate validate_body_quiet)].
Qed.

Lemma validate_raises p dims facts e :
  transformed_dimensions p = dims -> transformed_facts p = Some facts ->
  Validator.validate_all dims facts = Raise e ->
  fst (validate p) = Raise e.
Proof.
  intros Hd Hf Hv. unfold validate, bindM, log_stage, get, need_frame, lift, ret.
  cbn [transformed_dimensions transformed_facts fst snd].
  rewrite Hf, Hd, Hv. reflexivity.
Qed.

(** C5.  A run enters extract, transform, validate and load in this
    order, each at most once and none before the ones ahead of it; a
    stage that raises ends the run with its exception, before any later
    stage is entered; the run succeeds only after all four; and as long
    as load is not entered the store is what it was, which is the case
    whenever the validation raises. *)
Theorem stages_in_order cfg p :
  exists ss,
    entered (snd (run read_csv cfg p)) = entered p ++ ss /\
    (ss = [Extract] \/ ss = [Extract; Transform] \/
     ss = [Extract; Transform; Validate] \/
     ss = [Extract; Transform; Validate; Load]) /\
    (is_ok (fst (run read_csv cfg p)) = true ->
     ss = [Extract; Transform; Validate; Load]) /\
    (~ In Load ss ->
     store (snd (run read_csv cfg p)) = store p /\
     is_ok (fst (run read_csv cfg p)) = false) /\
    (forall e, fst (extract read_csv cfg p) = Raise e ->
       fst (run read_csv cfg p) = Raise e /\ ss = [Extract]) /\
    (forall p1 e,
       extract read_csv cfg p = (Ok tt, p1) -> fst (transform p1) = Raise e ->
       fst (run read_csv cfg p) = Raise e /\ ss = [Extract; Transform]) /\
    (forall p1 p2 dims facts e,
       extract read_csv cfg p = (Ok tt, p1) -> transform p1 = (Ok tt, p2) ->
       transformed_dimensions p2 = dims -> transformed_facts p2 = Some facts ->
       Validator.validate_all dims facts = Raise e ->
       fst (run read_csv cfg p) = Raise e /\
       ss = [Extract; Transform; Validate] /\
       store (snd (run read_csv cfg p)) = store p).
Proof.
  destruct (extract_spec cfg) as [L1 S1].
  destruct transform_spec as [L2 S2]. destruct validate_spec as [L3 S3].
  specialize (L1 p). specialize (S1 p). unfold run, bindM.
  destruct (extract read_csv cfg p) as [[[]|e1] p1] eqn:E1; cbn [snd fst] in *.
  2: { exists [Extract].
       split; [exact L1|]. split; [auto|]. split; [discriminate|].
       split; [intros _; split; [exact S1 | reflexivity]|].
       split; [intros e H; inversion H; split; reflexivity|].
       split; [intros q e H; discriminate H|].
       intros q1 q2 dims facts e H; discriminate H. }
  specialize (L2 p1). specialize (S2 p1).
  destruct (transform p1) as [[[]|e2] p2] eqn:E2; cbn [snd fst] in *.
  2: { exists [Extract; Transform].
       split; [rewrite L2, L1, <- app_assoc; reflexivity|].
       split; [auto|]. split; [discriminate|].
       split; [intros _; split; [congruence | reflexivity]|].
       split; [intros e H; discriminate H|].
       split.
       - intros q e H1 H2. inversion H1; subst q. rewrite E2 in H2.
         cbn [fst] in H2. inversion H2. split; reflexivity.
       - intros q1 q2 dims facts e H1 H2. inversion H1; subst q1.
         rewrite E2 in H2. discriminate H2. }
  specialize (L3 p2). specialize (S3 p2).
  destruct (validate p2) as [[[]|e3] p3] eqn:E3; cbn [snd fst] in *.
  2: { exists [Extract; Transform; Validate].
       split; [rewrite L3, L2, L1, <- !app_assoc; reflexivity|].
       split; [auto|]. split; [discriminate|].
       split; [intros _; split; [congruence | reflexivity]|].
       split; [intros e H; discriminate H|].
       split.
       - intros q e H1 H2. inversion H1; subst q. rewrite E2 in H2.
         discriminate H2.
       - intros q1 q2 dims facts e H1 H2 Hd Hf Hv.
         inversion H1; subst q1. rewrite E2 in H2. inversion H2; subst q2.
         pose proof (validate_raises p2 Hd Hf Hv) as R. rewrite E3 in R.
         cbn [fst] in R. inversion R.
         split; [reflexivity|]. split; [reflexivity | congruence]. }
  exists [Extract; Transform; Validate; Load].
  split; [rewrite load_logs, L3, L2, L1, <- !app_assoc; reflexivity|].
  split; [auto|]. split; [reflexivity|].
  split; [intros H; exfalso; apply H; simpl; auto|].
  split; [intros e H; discriminate H|].
  split.
  - intros q e H1 H2. inversion H1; subst q. rewrite E2 in H2. discriminate H2.
  - intros q1 q2 dims facts e H1 H2 Hd Hf Hv.
    inversion H1; subst q1. rewrite E2 in H2. inversion H2; subst q2.
    pose proof (validate_raises p2 Hd Hf Hv) as R. rewrite E3 in R. discriminate R.
Qed.

End WithReader.
End EtlFacts.

(** ** A dimension that is not there *)

Module MissingDimensionFacts.
Import Text Frames TextFacts ResultFacts FrameFacts Validator ValidatorFacts.
Local Arguments mem : simpl never.

(** The exceptions of a failed lookup, as opposed to a verdict of the
    schema. *)
Definition lookup_error (e : exn) : Prop :=
  match e with
  | KeyError _ | AmbiguousLabel _ => True
  | _ => False
  end.

Lemma dimension_keys_cases dimensions name :
  (exists vals t, dimension_keys dimensions name = Ok vals /\
                  Dict.get name dimensions = Some t) \/
  (dimension_keys dimensions name = Raise (KeyError name) /\
   Dict.get name dimensions = None) \/
  (exists e t, dimension_keys dimensions name = Raise e /\ lookup_error e /\
               Dict.get name dimensions = Some t /\
               count_label (u "key") (columns t) <> 1%nat).
Proof.
  unfold dimension_keys, Dict.item, getitem.
  destruct (Dict.get name dimensions) as [t|]; cbn [bind]; [|auto].
  destruct (count_label (u "key") (columns t)) as [|[|n]] eqn:C.
  - right; right. exists (KeyError (u "key")), t.
    split; [reflexivity|]. split; [exact I|]. split; [reflexivity | rewrite C; discriminate].
  - left. eauto.
  - right; right. exists (AmbiguousLabel (u "key")), t.
    split; [reflexivity|]. split; [exact I|]. split; [reflexivity | rewrite C; discriminate].
Qed.

Ltac keys_case F dimensions n :=
  let K := fresh "K" in
  let G := fresh "G" in
  let L := fresh "L" in
  let C := fresh "C" in
  let vals := fresh "vals" in
  let t := fresh "t" in
  let e := fresh "e" in
  destruct (dimension_keys_cases dimensions n)
    as [[vals [t [K G]]]|[[K G]|[e [t [K [L [G C]]]]]]];
  rewrite K in F; cbn [bind] in F.

(** Building the schema either finds the six key columns or stops at
    the first lookup that fails. *)
Lemma fact_schema_cases dimensions :
  (exists sch, fact_schema dimensions = Ok sch /\
     forall n, In n Etl.DIMENSION_NAMES -> Dict.get n dimensions <> None) \/
  (exists n, In n Etl.DIMENSION_NAMES /\ Dict.get n dimensions = None /\
             fact_schema dimensions = Raise (KeyError n)) \/
  (exists e n t, fact_schema dimensions = Raise e /\ lookup_error e /\
                 Dict.get n dimensions = Some t /\
                 count_label (u "key") (columns t) <> 1%nat).
Proof.
  destruct (fact_schema dimensions) as [sch|e] eqn:F; unfold fact_schema in F.
  - left. exists sch. split; [reflexivity|].
    keys_case F dimensions (u "TravelMotives"); try discriminate.
    keys_case F dimensions (u "Population"); try discriminate.
    keys_case F dimensions (u "TravelModes"); try discriminate.
    keys_case F dimensions (u "Margins"); try discriminate.
    keys_case F dimensions (u "RegionCharacteristics"); try discriminate.
    keys_case F dimensions (u "Periods"); try discriminate.
    intros n Hn. simpl in Hn.
    repeat (destruct Hn as [<-|Hn]; [congruence|]). contradiction.
  - right.
    keys_case F dimensions (u "TravelMotives");
      [| left; exists (u "TravelMotives"); inversion F; simpl; auto 10
       | right; inversion F; subst; eauto 10].
    keys_case F dimensions (u "Population");
      [| left; exists (u "Population"); inversion F; simpl; auto 10
       | right; inversion F; subst; eauto 10].
    keys_case F dimensions (u "TravelModes");
      [| left; exists (u "TravelModes"); inversion F; simpl; auto 10
       | right; inversion F; subst; eauto 10].
    keys_case F dimensions (u "Margins");
      [| left; exists (u "Margins"); inversion F; simpl; auto 10
       | right; inversion F; subst; eauto 10].
    keys_case F dimensions (u "RegionCharacteristics");
      [| left; exists (u "RegionCharacteristics"); inversion F; simpl; auto 10
       | right; inversion F; subst; eauto 10].
    keys_case F dimensions (u "Periods");
      [| left; exists (u "Periods"); inversion F; simpl; auto 10
       | right; inversion F; subst; eauto 10].
    discriminate F.
Qed.

Lemma fact_schema_missing dimensions name :
  In name Etl.DIMENSION_NAMES -> Dict.get name dimensions = None ->
  (exists e, fact_schema dimensions = Raise e /\ lookup_error e) /\
  ((forall n t, Dict.get n dimensions = Some t -> unique_column (u "key") t) ->
   exists n, In n Etl.DIMENSION_NAMES /\ Dict.get n dimensions = None /\
             fact_schema dimensions = Raise (KeyError n)).
Proof.
  intros Hin Hmiss.
  destruct (fact_schema_cases dimensions)
    as [[sch [_ H]]|[[n [Hn [Hg Hs]]]|[e [n [t [Hs [Hl [Hg Hc]]]]]]]].
  - exfalso. apply (H name Hin). exact Hmiss.
  - split; [exists (KeyError n); split; [exact Hs | exact I]|].
    intros _. exists n. auto.
  - split; [exists e; auto|].
    intros Hu. exfalso. apply Hc. apply (Hu n t Hg).
Qed.

Lemma dict_get_set_other {V} k k' (v : V) d :
  k <> k' -> Dict.get k' (Dict.set k v d) = Dict.get k' d.
Proof.
  intros Hne. unfold Dict.get.
  induction d as [|[x w] d IH]; simpl.
  - apply str_eqb_neq in Hne. rewrite Hne. reflexivity.
  - destruct (str_eqb x k) eqn:E; simpl.
    + apply str_eqb_eq in E. subst x. apply str_eqb_neq in Hne. rewrite Hne.
      reflexivity.
    + destruct (str_eqb x k'); [reflexivity | exact IH].
Qed.

Import Etl.

Lemma transform_dimensions_absent name dims : forall p,
  Dict.get name dims = None ->
  Dict.get name (transformed_dimensions p) = None ->
  Dict.get name (transformed_dimensions (snd (transform_dimensions dims p))) = None.
Proof.
  induction dims as [|[n df] rest IH]; intros p Hd Hp; cbn [transform_dimensions].
  - exact Hp.
  - unfold Dict.get in Hd. simpl in Hd.
    destruct (str_eqb n name) eqn:E; [discriminate|].
    destruct (mem n DIMENSION_NAMES); [|apply IH; assumption].
    unfold bindM, read_clock, lift, set_transformed_dimension.
    destruct (Transformer.Dimension.transform (clock p (ticks p)) df) as [out|e];
      cbn [snd transformed_dimensions]; [|exact Hp].
    apply IH; [exact Hd|]. cbn [transformed_dimensions].
    rewrite dict_get_set_other; [exact Hp|]. apply str_eqb_neq. exact E.
Qed.

Lemma transform_absent name p :
  Dict.get name (raw_dimensions p) = None ->
  Dict.get name (transformed_dimensions p) = None ->
  Dict.get name (transformed_dimensions (snd (transform p))) = None.
Proof.
  intros Hr Ht. unfold transform, bindM, log_stage, get.
  cbn [raw_dimensions fst snd].
  set (p0 := Pipeline (raw_dimensions p) (raw_facts p) (transformed_dimensions p)
                      (transformed_facts p) (store p) (clock p) (ticks p)
                      (entered p ++ [Transform])).
  pose proof (transform_dimensions_absent name (raw_dimensions p) p0 Hr Ht) as H.
  destruct (transform_dimensions (raw_dimensions p) p0) as [[[]|e] p1];
    cbn [snd] in *; [|exact H].
  assert (Hf : raw_facts p1 = raw_facts p1) by reflexivity.
  destruct (raw_facts p1) as [facts|]; cbn [need_frame ret raise snd]; [|exact H].
  unfold read_clock, lift, set_transformed_facts.
  destruct (Transformer.Fact.transform (clock p1 (ticks p1)) facts) as [out|e];
    cbn [snd transformed_dimensions]; exact H.
Qed.

(** C10.  When one of the six dimension tables is not in the mapping,
    [validate_fact] raises the error of a failed lookup for every fact
    table, while the schema is built and before any rule is checked; the
    validation of the dimensions goes over the tables that are there and
    passes when each of them is in order; and a dimension missing from
    what was parsed is missing after the transform stage too. *)
Theorem missing_dimension_is_a_lookup_error dimensions name :
  In name DIMENSION_NAMES -> Dict.get name dimensions = None ->
  (exists e, lookup_error e /\
             forall fact, validate_fact dimensions fact = Raise e) /\
  ((forall n t, Dict.get n dimensions = Some t -> unique_column (u "key") t) ->
   exists n, In n DIMENSION_NAMES /\ Dict.get n dimensions = None /\
             forall fact, validate_fact dimensions fact = Raise (KeyError n)) /\
  ((exists out, validate_dimensions dimensions = Ok out) <->
   Forall (fun item => dimension_ok (snd item)) dimensions) /\
  (forall p,
     Dict.get name (raw_dimensions p) = None ->
     Dict.get name (transformed_dimensions p) = None ->
     Dict.get name (transformed_dimensions (snd (transform p))) = None).
Proof.
  intros Hin Hmiss.
  destruct (fact_schema_missing dimensions Hin Hmiss) as [[e [He Hl]] Hk].
  split; [|split; [|split]].
  - exists e. split; [exact Hl|]. intros fact. unfold validate_fact.
    rewrite He. reflexivity.
  - intros Hu. destruct (Hk Hu) as [n [Hn [Hg Hs]]].
    exists n. repeat split; auto. intros fact. unfold validate_fact.
    rewrite Hs. reflexivity.
  - apply validate_dimensions_iff.
  - intros p. apply transform_absent.
Qed.

End MissingDimensionFacts.

(** ** The upsert statements *)

Module LoaderFacts.
Import Text Frames TextFacts ResultFacts FrameFacts Loader.
Local Arguments mem : simpl never.

Lemma do_update_lookup q new old c :
  lookup c (do_update q new old) =
  if mem c (update_columns q) then Some (row_get c new) else lookup c old.
Proof.
  unfold do_update. generalize (update_columns q) as l. intros l. revert old.
  induction l as [|x l IH]; intros old; cbn [fold_left]; [reflexivity|].
  rewrite IH, mem_cons, lookup_row_set, (str_eqb_sym x c).
  destruct (mem c l); [rewrite orb_true_r; reflexivity|].
  rewrite orb_false_r. destruct (str_eqb c x) eqn:E; [|reflexivity].
  apply str_eqb_eq in E. subst. reflexivity.
Qed.

(** A stored row is either left as it is or updated by the statement. *)
Lemma upsert_row_nth q new : forall t i old,
  nth_error t i = Some old ->
  exists old', nth_error (upsert_row q new t) i = Some old' /\
               (old' = old \/ old' = do_update q new old).
Proof.
  induction t as [|r t IH]; intros i old H; [destruct i; discriminate|].
  cbn [upsert_row]. destruct (conflicts q new r) eqn:C.
  - destruct i as [|i]; simpl in *; [inversion H; subst; eauto | eauto].
  - destruct i as [|i]; simpl in *; [inversion H; subst; eauto | eauto].
Qed.

(** The first stored row that conflicts is the one updated. *)
Lemma upsert_row_conflict q new : forall t i old,
  nth_error t i = Some old -> conflicts q new old = true ->
  (forall j o, (j < i)%nat -> nth_error t j = Some o -> conflicts q new o = false) ->
  nth_error (upsert_row q new t) i = Some (do_update q new old).
Proof.
  induction t as [|r t IH]; intros i old H Hc Hfirst; [destruct i; discriminate|].
  cbn [upsert_row]. destruct i as [|i]; simpl in H.
  - inversion H; subst. rewrite Hc. reflexivity.
  - rewrite (Hfirst 0%nat r) by (simpl; auto; lia). simpl.
    apply IH; auto. intros j o Hj Ho. apply (Hfirst (S j) o); [lia | exact Ho].
Qed.

Lemma upsert_row_frame q new t i old :
  nth_error t i = Some old ->
  exists old', nth_error (upsert_row q new t) i = Some old' /\
               forall c, ~ In c (update_columns q) -> lookup c old' = lookup c old.
Proof.
  intros H. destruct (upsert_row_nth q new t i H) as [old' [H' [->| ->]]].
  - exists old. split; [exact H' | reflexivity].
  - exists (do_update q new old). split; [exact H'|]. intros c Hc.
    rewrite do_update_lookup. apply mem_false in Hc. rewrite Hc. reflexivity.
Qed.


Definition keeps_outside (q : statement) (old old' : row) : Prop :=
  forall c, ~ In c (update_columns q) -> lookup c old' = lookup c old.

Lemma execute_many_frame q records : forall t t',
  for_each (execute_one q) records t = Ok t' ->
  forall i old, nth_error t i = Some old ->
  exists old', nth_error t' i = Some old' /\ keeps_outside q old old'.
Proof.
  induction records as [|rec records IH]; intros t t' H i old Hi; cbn [for_each] in H.
  - inversion H; subst. exists old. split; [exact Hi | intros c _; reflexivity].
  - apply bind_ok in H. destruct H as [t1 [H1 H2]].
    unfold execute_one in H1.
    destruct (forallb (fun c => has_label c rec) (insert_columns q)); [|discriminate].
    inversion H1; subst t1; clear H1.
    destruct (upsert_row_frame q (proposed q rec) t i Hi) as [old1 [Hi1 K1]].
    destruct (IH _ _ H2 i old1 Hi1) as [old' [Hi' K']].
    exists old'. split; [exact Hi'|]. intros c Hc.
    rewrite (K' c Hc). apply K1. exact Hc.
Qed.

Lemma dict_get_set_same {V} k (v : V) d : Dict.get k (Dict.set k v d) = Some v.
Proof.
  unfold Dict.get. induction d as [|[x w] d IH]; simpl.
  - rewrite str_eqb_refl. reflexivity.
  - destruct (str_eqb x k) eqn:E; simpl; rewrite E; [reflexivity | exact IH].
Qed.

Lemma execute_frame q records db db' :
  execute q records db = Ok db' ->
  exists t t', Dict.get (target q) db = Some t /\
               Dict.get (target q) db' = Some t' /\
               forall i old, nth_error t i = Some old ->
               exists old', nth_error t' i = Some old' /\ keeps_outside q old old'.
Proof.
  unfold execute. destruct (Dict.get (target q) db) as [t|]; [|discriminate].
  intros H. apply bind_ok in H. destruct H as [t' [H1 H2]].
  inversion H2; subst db'. exists t, t'. split; [reflexivity|].
  split; [apply dict_get_set_same|]. apply (execute_many_frame q records t H1).
Qed.

Lemma fact_keys_not_updated SCHEMA c :
  In c (u "fact_id" :: Transformer.Fact.FK_COLUMNS) ->
  ~ In c (update_columns (fact_query SCHEMA)).
Proof.
  intros H. apply mem_false. simpl in H.
  repeat (destruct H as [<-|H]; [reflexivity|]). contradiction.
Qed.

End LoaderFacts.

(** ** The identifier of a fact *)

Module FactIdentity.
Import Text Frames TextFacts ResultFacts FrameFacts Transformer Transformer.Fact FactFacts.
Local Arguments mem : simpl never.

(** C1.  Every row of the canonical fact table has for [fact_id] the
    MD5 digest, 32 lower-case hexadecimal characters, of its six
    foreign keys, which are trimmed text, joined by [|] in the order
    travel motive, population, travel mode, margin, region, period; a
    row with the keys TM1, P1, M1, MG1, R1, 2023JJ00 has the digest of
    the literal string made of them; and two rows with the same six
    keys, of any two runs, have the same [fact_id]. *)
Theorem fact_id_is_md5_of_keys now df out r now' df' out' r' :
  transform now df = Ok out -> In r (rows out) ->
  transform now' df' = Ok out' -> In r' (rows out') ->
  fact_id_spec r /\
  (map (fun c => row_get c r') FK_COLUMNS = map (fun c => row_get c r) FK_COLUMNS ->
   row_get (u "fact_id") r' = row_get (u "fact_id") r).
Proof.
  intros H Hr H' Hr'.
  pose proof (@fact_id_spec_holds _ _ _ _ H Hr) as S.
  pose proof (@fact_id_spec_holds _ _ _ _ H' Hr') as S'.
  split; [exact S|]. intros E.
  destruct S as [keys [K1 [_ [K2 _]]]]. destruct S' as [keys' [K1' [_ [K2' _]]]].
  rewrite K2, K2'. rewrite K1, K1' in E.
  assert (Ek : keys' = keys).
  { revert E. clear. revert keys. induction keys' as [|k ks IH]; intros [|k' ks'] E;
      simpl in E; try discriminate; [reflexivity|].
    inversion E. f_equal. apply IH. assumption. }
  rewrite Ek. reflexivity.
Qed.

Lemma fact_id_is_md5_of_keys_witness :
  fact_id_spec (Samples.first_row Samples.fact_out) /\
  (map (fun c => row_get c (Samples.first_row Samples.fact_out_remeasured)) FK_COLUMNS =
   map (fun c => row_get c (Samples.first_row Samples.fact_out)) FK_COLUMNS ->
   row_get (u "fact_id") (Samples.first_row Samples.fact_out_remeasured) =
   row_get (u "fact_id") (Samples.first_row Samples.fact_out)).
Proof.
  apply (@fact_id_is_md5_of_keys
           Samples.now Samples.raw_fact Samples.fact_out
           (Samples.first_row Samples.fact_out)
           Samples.later Samples.raw_fact_remeasured Samples.fact_out_remeasured
           (Samples.first_row Samples.fact_out_remeasured)).
  - vm_compute. reflexivity.
  - left. reflexivity.
  - vm_compute. reflexivity.
  - left. reflexivity.
Defined.

End FactIdentity.

(** ** The steps of the fact normalization *)

Module FactChain.
Import Text Frames TextFacts ResultFacts FrameFacts Transformer Transformer.Fact FactFacts.
Local Arguments mem : simpl never.
Local Open Scope result_scope.

Lemma filter_eq_repeat c l : filter (str_eqb c) l = repeat c (count_label c l).
Proof.
  unfold count_label. induction l as [|x l IH]; simpl; [reflexivity|].
  destruct (str_eqb c x) eqn:E; [|exact IH].
  apply str_eqb_eq in E. subst x. simpl. f_equal. exact IH.
Qed.

Lemma count_label_app c a b :
  count_label c (a ++ b) = (count_label c a + count_label c b)%nat.
Proof. unfold count_label. rewrite filter_app, length_app. reflexivity. Qed.

Lemma count_add_label c x cols :
  count_label c (if mem x cols then cols else cols ++ [x]) =
  if str_eqb c x && negb (mem x cols) then S (count_label c cols)
  else count_label c cols.
Proof.
  destruct (mem x cols) eqn:M; cbn [negb]; [rewrite andb_false_r; reflexivity|].
  rewrite andb_true_r, count_label_app. unfold count_label at 2. simpl.
  destruct (str_eqb c x); simpl; lia.
Qed.

Lemma count_NoDup c l : NoDup l -> (count_label c l <= 1)%nat.
Proof.
  induction 1 as [|x l Hx Hnd IH]; unfold count_label in *; simpl; [lia|].
  destruct (str_eqb c x) eqn:E; [|exact IH].
  apply str_eqb_eq in E. subst x. simpl.
  assert (Z : filter (str_eqb c) l = []).
  { clear - Hx. induction l as [|y l IH]; simpl; [reflexivity|].
    destruct (str_eqb c y) eqn:E.
    - apply str_eqb_eq in E. subst. exfalso. apply Hx. left. reflexivity.
    - apply IH. intros H. apply Hx. right. exact H. }
  rewrite Z. simpl. lia.
Qed.

Lemma count_zero_mem c l : mem c l = false -> count_label c l = 0%nat.
Proof.
  intros H. destruct (count_label c l) eqn:E; [reflexivity|].
  assert (M : mem c l = true) by (apply count_label_mem; rewrite E; discriminate).
  congruence.
Qed.

(** Renaming neither creates nor removes a column called [fact_id] or
    [ingested_at]. *)
Lemma rename_keeps_label c x :
  c = u "fact_id" \/ c = u "ingested_at" ->
  str_eqb c (rename_label COLUMN_MAPPING x) = str_eqb c x.
Proof.
  intros Hc. unfold rename_label, COLUMN_MAPPING. cbn [lookup].
  repeat match goal with
         | |- context [str_eqb ?k x] =>
             lazymatch k with
             | c => fail
             | _ => destruct (str_eqb k x) eqn:?E
             end
         end;
  try reflexivity;
  match goal with
  | E : str_eqb _ x = true |- _ => apply str_eqb_eq in E; subst x
  end;
  destruct Hc as [-> | ->]; reflexivity.
Qed.

Lemma count_rename c l :
  c = u "fact_id" \/ c = u "ingested_at" ->
  count_label c (map (rename_label COLUMN_MAPPING) l) = count_label c l.
Proof.
  intros Hc. unfold count_label. induction l as [|x l IH]; simpl; [reflexivity|].
  rewrite (rename_keeps_label x Hc). destruct (str_eqb c x); simpl; congruence.
Qed.


(** The body of [transform], up to the call that reorders. *)
Definition before_reorder : list method := firstn 5 transform_chain.

Lemma before_reorder_columns now df d :
  run_chain now before_reorder df = Ok d ->
  columns d =
    (let cols := columns (rename_columns df) in
     let cols1 := if mem (u "fact_id") cols then cols else cols ++ [u "fact_id"] in
     if mem (u "ingested_at") cols1 then cols1 else cols1 ++ [u "ingested_at"]).
Proof.
  intros H. unfold run_chain, before_reorder, transform_chain in H.
  cbn [firstn for_each call bind] in H.
  apply bind_ok in H. destruct H as [d2 [Hcast H]].
  apply bind_ok in H. destruct H as [d3 [Hnull H]].
  apply bind_ok in H. destruct H as [d4 [Hid H]].
  inversion H; subst d; clear H.
  unfold cast_types in Hcast. apply bind_ok in Hcast.
  destruct Hcast as [d1 [Hs Hn]].
  apply (@strip_loop _ NoDup_FK) in Hs. destruct Hs as [Hc1 _].
  apply (@numeric_loop _ NoDup_METRIC) in Hn. destruct Hn as [Hc2 _].
  apply handle_nulls_ok in Hnull. destruct Hnull as [Hc3 _].
  apply compute_fact_id_ok in Hid. destruct Hid as [_ ->].
  unfold add_audit_columns, setitem_scalar. cbn [columns rows].
  rewrite Hc3, Hc2, Hc1. reflexivity.
Qed.

Lemma column_order_once now df out :
  transform now df = Ok out -> NoDup (columns df) -> columns out = column_order.
Proof.
  intros H Hnd. apply transform_view in H. destruct H as [Hc [Hone _]].
  rewrite Hc. clear Hc. cbv zeta.
  set (cols := columns (rename_columns df)) in *.
  set (cols1 := if mem (u "fact_id") cols then cols else cols ++ [u "fact_id"]).
  set (cols2 := if mem (u "ingested_at") cols1 then cols1 else cols1 ++ [u "ingested_at"]).
  fold cols2.
  assert (Hraw : forall c, c = u "fact_id" \/ c = u "ingested_at" ->
                 (count_label c cols <= 1)%nat).
  { intros c Hc. unfold cols, rename_columns, rename. cbn [columns].
    rewrite (count_rename _ Hc). apply count_NoDup. exact Hnd. }
  assert (Hcount : forall c, In c column_order -> count_label c cols2 = 1%nat).
  { intros c Hc. unfold cols2, cols1. rewrite !count_add_label, mem_add_label.
    replace (str_eqb (u "ingested_at") (u "fact_id")) with false by reflexivity.
    apply mem_In in Hc.
    destruct (label_class c) as [K|[K|[K|[K|K]]]];
      destruct K as [K1 [K2 [K3 [K4 K5]]]]; try congruence.
    - rewrite K3, K4. cbn [andb].
      rewrite Forall_forall in Hone. apply Hone. apply in_or_app. left.
      apply mem_In. exact K1.
    - rewrite K3, K4. cbn [andb].
      rewrite Forall_forall in Hone. apply Hone. apply in_or_app. right.
      apply mem_In. exact K2.
    - rewrite K3, K4. cbn [andb]. apply str_eqb_eq in K3. subst c.
      pose proof (Hraw (u "fact_id") (or_introl eq_refl)) as B.
      destruct (mem (u "fact_id") cols) eqn:M; cbn [negb].
      + apply count_label_mem in M. lia.
      + apply count_zero_mem in M. lia.
    - rewrite K3, K4. apply str_eqb_eq in K4. subst c.
      cbn [orb andb].
      pose proof (Hraw (u "ingested_at") (or_intror eq_refl)) as B.
      destruct (mem (u "ingested_at") cols) eqn:M; cbn [negb].
      + apply count_label_mem in M. lia.
      + apply count_zero_mem in M. lia. }
  clearbody cols2. revert Hcount. generalize column_order as L.
  induction L as [|c L IH]; intros Hcount; [reflexivity|].
  cbn [flat_map]. rewrite filter_eq_repeat, (Hcount c (or_introl eq_refl)).
  cbn [repeat app]. f_equal. apply IH. intros x Hx. apply Hcount. right. exact Hx.
Qed.


(** C2, as the specification words it, does not hold of [transform]: the
    second call of its body is [cast_types], no call of
    [drop_unused_columns] occurs in it, and a column outside the model
    (here [ID]) is still in the frame after the first five calls, where
    the chain of the specification has removed it after two. *)
Lemma drop_unused_columns_is_not_a_step :
  nth_error Claimed.fact_chain 1 = Some DropUnusedColumns /\
  nth_error transform_chain 1 = Some CastTypes /\
  ~ In DropUnusedColumns transform_chain /\
  (exists d, run_chain Samples.now (firstn 2 Claimed.fact_chain) Samples.raw_fact = Ok d /\
             mem (u "ID") (columns d) = false) /\
  (exists d, run_chain Samples.now (firstn 2 transform_chain) Samples.raw_fact = Ok d /\
             mem (u "ID") (columns d) = true) /\
  (exists d, run_chain Samples.now before_reorder Samples.raw_fact = Ok d /\
             mem (u "ID") (columns d) = true).
Proof.
  split; [reflexivity|]. split; [reflexivity|]. split.
  { simpl. intros H. repeat (destruct H as [H|H]; [discriminate H|]). exact H. }
  split; [|split].
  - eexists. split; [vm_compute; reflexivity | vm_compute; reflexivity].
  - eexists. split; [vm_compute; reflexivity | vm_compute; reflexivity].
  - eexists. split; [vm_compute; reflexivity | vm_compute; reflexivity].
Qed.

(** C2, amended: [transform] renames the source columns, then trims each
    foreign-key column as text, then coerces each metric column to
    numbers, then replaces the sentinel in the metric columns and after
    it every missing marker by null, then derives [fact_id], then stamps
    [ingested_at], then reorders; no column is dropped before the
    reordering, which alone removes the columns outside the model; on
    success the rows hold the values these steps give, and an input
    without repeated labels gives exactly the fourteen canonical columns
    in their order. *)
Theorem fact_steps_in_order now df :
  transform now df =
    (d1 <- for_each strip_column FK_COLUMNS (rename_columns df) ;;
     d2 <- for_each numeric_column METRIC_COLUMNS d1 ;;
     d3 <- handle_nulls d2 ;;
     d4 <- compute_fact_id d3 ;;
     Ok (reorder_columns (add_audit_columns now d4))) /\
  transform now df =
    (d <- run_chain now before_reorder df ;; Ok (reorder_columns d)) /\
  (forall d, run_chain now before_reorder df = Ok d ->
     forall c, mem c (columns (rename_columns df)) = true ->
               mem c (columns d) = true) /\
  (forall out, transform now df = Ok out ->
     (forall c, mem c (columns out) = true -> mem c column_order = true) /\
     (NoDup (columns df) -> columns out = column_order) /\
     exists nf, (forall c, numeric_choice (nf c)) /\
       Forall2 (canonical_view now nf) (rows (rename_columns df)) (rows out)).
Proof.
  split; [|split; [|split]].
  - unfold transform, run_chain, transform_chain.
    cbn [for_each call bind]. unfold cast_types.
    destruct (for_each strip_column FK_COLUMNS (rename_columns df)) as [d1|e];
      cbn [bind]; [|reflexivity].
    destruct (for_each numeric_column METRIC_COLUMNS d1) as [d2|e];
      cbn [bind]; [|reflexivity].
    destruct (handle_nulls d2) as [d3|e]; cbn [bind]; [|reflexivity].
    destruct (compute_fact_id d3) as [d4|e]; reflexivity.
  - unfold transform, run_chain, before_reorder, transform_chain.
    cbn [firstn for_each call bind].
    destruct (cast_types (rename_columns df)) as [d2|e]; cbn [bind]; [|reflexivity].
    destruct (handle_nulls d2) as [d3|e]; cbn [bind]; [|reflexivity].
    destruct (compute_fact_id d3) as [d4|e]; reflexivity.
  - intros d H c Hc. rewrite (before_reorder_columns _ _ H). cbv zeta.
    rewrite !mem_add_label, Hc, !orb_true_r. reflexivity.
  - intros out H. split; [|split].
    + intros c Hc. pose proof (transform_view _ _ H) as [E _].
      rewrite E in Hc. apply mem_In in Hc. apply in_flat_map in Hc.
      destruct Hc as [x [Hx Hc]]. apply filter_In in Hc. destruct Hc as [_ Hc].
      apply str_eqb_eq in Hc. subst c. apply mem_In. exact Hx.
    + intros Hnd. exact (column_order_once _ _ H Hnd).
    + pose proof (transform_view _ _ H) as [_ [_ V]]. exact V.
Qed.

Lemma fact_steps_in_order_witness :
  columns Samples.fact_out = column_order /\
  mem (u "ID") (columns Samples.fact_out) = false.
Proof.
  destruct (fact_steps_in_order Samples.now Samples.raw_fact) as [_ [_ [_ H]]].
  destruct (H Samples.fact_out) as [Hin [Hcols _]]; [vm_compute; reflexivity|].
  split.
  - apply Hcols.
    repeat (constructor; [simpl; intros K;
      repeat (destruct K as [K|K]; [discriminate K|]); exact K |]).
    constructor.
  - destruct (mem (u "ID") (columns Samples.fact_out)) eqn:E; [|reflexivity].
    apply Hin in E. vm_compute in E. discriminate E.
Defined.

End FactChain.

(** ** The rules of the validation *)

Module ValidationRules.
Import Text Frames TextFacts ResultFacts FrameFacts Validator ValidatorFacts.
Local Arguments mem : simpl never.

Lemma validate_all_iff dimensions fact :
  validate_all dimensions fact = Ok true <->
  Forall (fun item => dimension_ok (snd item)) dimensions /\ fact_ok dimensions fact.
Proof.
  unfold validate_all. split.
  - intros H. apply bind_ok in H. destruct H as [ds [Hd H]].
    apply bind_ok in H. destruct H as [f [Hf _]]. split.
    + apply validate_dimensions_iff. eauto.
    + apply validate_fact_iff. eauto.
  - intros [Hd Hf]. apply validate_dimensions_iff in Hd. destruct Hd as [ds Hd].
    apply validate_fact_iff in Hf. destruct Hf as [f Hf].
    rewrite Hd. cbn [bind]. rewrite Hf. reflexivity.
Qed.

Lemma validate_all_outcomes dimensions fact :
  validate_all dimensions fact = Ok true \/
  exists e, validate_all dimensions fact = Raise e.
Proof.
  unfold validate_all.
  destruct (validate_dimensions dimensions) as [ds|e]; cbn [bind]; [|eauto].
  destruct (validate_fact dimensions fact) as [f|e]; cbn [bind]; eauto.
Qed.

Lemma text_not_null vals :
  Forall text vals -> forall v, In v vals -> isna v = false.
Proof.
  intros H v Hv. rewrite Forall_forall in H. destruct (H v Hv) as [s ->]. reflexivity.
Qed.

Lemma present_not_null vals :
  Forall present vals -> forall v, In v vals -> isna v = false.
Proof. intros H v Hv. rewrite Forall_forall in H. exact (H v Hv). Qed.

(** What the schemas accept meets the rules the specification lists. *)
Lemma accepted_meets_rules dimensions fact :
  Forall (fun item => dimension_ok (snd item)) dimensions ->
  fact_ok dimensions fact ->
  Claimed.validation_rules dimensions fact.
Proof.
  intros Hd [Hr [[_ Hid] [Hm [_ Hia]]]]. split.
  - intros name t Hin. rewrite Forall_forall in Hd. specialize (Hd _ Hin).
    cbn [snd] in Hd. destruct Hd as [[_ [K1 K2]] [[_ T] [_ [_ I]]]].
    unfold Claimed.dimension_rules, Claimed.non_null.
    split; [exact (text_not_null K1)|]. split; [exact K2|].
    split; [exact (text_not_null T) | exact (present_not_null I)].
  - unfold Claimed.fact_rules, Claimed.non_null.
    split; [exact (text_not_null Hid)|]. split; [|split].
    + intros fk name Hin v Hv. rewrite Forall_forall in Hr.
      destruct (Hr _ Hin) as [t [G [_ [_ F]]]]. cbn [fst snd] in *.
      exists t. split; [exact G|]. rewrite Forall_forall in F.
      exact (proj2 (F v Hv)).
    + intros m Hmin v Hv. rewrite Forall_forall in Hm.
      destruct (Hm m Hmin) as [_ F]. rewrite Forall_forall in F.
      destruct (F v Hv) as [N|[f ->]]; [left; exact N | right; exact I].
    + exact (present_not_null Hia).
Qed.

Ltac finite_in H :=
  vm_compute in H;
  repeat (destruct H as [H|H]; [inversion H; subst|]);
  try contradiction.

Ltac concrete_NoDup :=
  vm_compute;
  repeat (constructor; [intros K;
    repeat (destruct K as [K|K]; [discriminate K|]); exact K |]);
  constructor.

Ltac concrete_non_null :=
  let v := fresh "v" in let Hv := fresh "Hv" in
  intros v Hv; finite_in Hv; reflexivity.

(** C4, as the specification words it, is too strong in one direction: a
    fact table whose first metric column holds integers meets every rule
    the specification lists, and the validation raises on it, since the
    schema asks for a column of floats. *)
Lemma integer_metric_is_rejected :
  Claimed.validation_rules Samples.six_dimensions Samples.integer_metric_fact /\
  validate_all Samples.six_dimensions Samples.integer_metric_fact =
    Raise (SchemaError (u "trips_daily") (u "series has the wrong data type")).
Proof.
  split; [|vm_compute; reflexivity]. split.
  - intros name t Hin. finite_in Hin;
      (split; [concrete_non_null|];
       split; [concrete_NoDup|];
       split; concrete_non_null).
  - split; [concrete_non_null|]. split; [|split; [|concrete_non_null]].
    + intros fk name Hin. finite_in Hin; intros v Hv; finite_in Hv;
        (eexists; split; [vm_compute; reflexivity | vm_compute; auto]).
    + intros m Hin. finite_in Hin; intros v Hv; finite_in Hv;
        first [left; reflexivity | right; exact I].
Qed.

(** C4, amended.  The validation returns [True] exactly when every
    dimension table has the columns [key], [title], [description] and
    [ingested_at] once each, with [key] text, never null and without
    repetition, [title] text and never null, [description] text or null
    and [ingested_at] never null, and the fact table has [fact_id], the
    six foreign keys, the six metrics and [ingested_at] once each, with
    [fact_id] text and never null, each foreign key text, never null and
    among the keys of its dimension table, which has to be in the
    mapping with one [key] column, each metric a float or null and
    [ingested_at] never null; otherwise it raises.  What is accepted
    meets the rules the specification lists. *)
Theorem validation_accepts_exactly dimensions fact :
  (validate_all dimensions fact = Ok true <->
   Forall (fun item => dimension_ok (snd item)) dimensions /\
   fact_ok dimensions fact) /\
  (validate_all dimensions fact = Ok true \/
   exists e, validate_all dimensions fact = Raise e) /\
  (validate_all dimensions fact = Ok true ->
   Claimed.validation_rules dimensions fact).
Proof.
  split; [apply validate_all_iff|]. split; [apply validate_all_outcomes|].
  intros H. apply validate_all_iff in H. destruct H as [Hd Hf].
  apply accepted_meets_rules; assumption.
Qed.

Lemma validation_accepts_exactly_witness :
  fact_ok Samples.six_dimensions Samples.canonical_fact /\
  Claimed.validation_rules Samples.six_dimensions Samples.canonical_fact.
Proof.
  destruct (validation_accepts_exactly Samples.six_dimensions Samples.canonical_fact)
    as [[H _] [_ K]].
  split.
  - apply H. vm_compute. reflexivity.
  - apply K. vm_compute. reflexivity.
Defined.

End ValidationRules.

(** ** The theorems on the samples *)

Module Examples.
Import Text Frames TextFacts FrameFacts.

(** A run whose fact refers to a travel motive that is no key of the
    dimension stops in the validation and writes nothing. *)
Lemma stages_in_order_witness :
  exists e,
    fst (Etl.run Csv.read_csv (Samples.run_config "TM9") Samples.fresh_pipeline) = Raise e /\
    Etl.store (snd (Etl.run Csv.read_csv (Samples.run_config "TM9") Samples.fresh_pipeline)) =
      Etl.store Samples.fresh_pipeline.
Proof.
  destruct (EtlFacts.stages_in_order Csv.read_csv (Samples.run_config "TM9")
              Samples.fresh_pipeline) as [ss [_ [_ [_ [_ [_ [_ H]]]]]]].
  eexists.
  refine ((fun K => conj (proj1 K) (proj2 (proj2 K))) (H _ _ _ _ _ _ _ _ _ _)).
  - vm_compute. reflexivity.
  - vm_compute. reflexivity.
  - reflexivity.
  - vm_compute. reflexivity.
  - vm_compute. reflexivity.
Defined.


(** The sample fact and dimension with blanks around their keys give
    what the trimmed ones give. *)
Lemma whitespace_invariance_witness :
  Transformer.Fact.transform Samples.now Samples.raw_fact_trimmed =
    Transformer.Fact.transform Samples.now Samples.raw_fact /\
  Transformer.Dimension.transform Samples.now Samples.raw_dimension_trimmed =
    Transformer.Dimension.transform Samples.now Samples.raw_dimension.
Proof.
  destruct WhitespaceFacts.whitespace_invariance as [F D]. split.
  - apply F. split; [reflexivity|].
    constructor; [|constructor].
    constructor; [split; [reflexivity | left; reflexivity]|].
    constructor.
    { split; [reflexivity|]. right. split.
      - vm_compute. left. reflexivity.
      - exists (u "TM1"), (u "  "), (u " "). repeat split; reflexivity. }
    repeat (constructor; [split; [reflexivity | left; reflexivity]|]).
    constructor.
  - apply D. split; [reflexivity|].
    constructor; [|constructor; [|constructor]].
    + constructor.
      { split; [reflexivity|]. right. split.
        - split; [reflexivity | left; reflexivity].
        - exists (u "P1"), (u "  "), (u "  "). repeat split; reflexivity. }
      repeat (constructor; [split; [reflexivity | left; reflexivity]|]).
      constructor.
    + repeat (constructor; [split; [reflexivity | left; reflexivity]|]).
      constructor.
Defined.

(** The sentinel of the first metric of the sample fact and the empty
    description of the sample dimension come out null. *)
Lemma null_normalization_witness :
  (exists r', nth_error (rows Samples.fact_out) 0 = Some r' /\
              isna (row_get (u "trips_daily") r') = true) /\
  (exists r', nth_error (rows Samples.fact_out) 0 = Some r' /\
              isna (row_get (u "time_daily") r') = true) /\
  (exists r', nth_error (rows Samples.dimension_out) 0 = Some r' /\
              isna (row_get (u "description") r') = true) /\
  (exists r', nth_error (rows Samples.dimension_out) 1 = Some r' /\
              isna (row_get (u "description") r') = true).
Proof.
  destruct NullFacts.null_normalization as [F D].
  split; [|split; [|split]].
  - eapply (F Samples.now Samples.raw_fact Samples.fact_out 0%nat _ (u "trips_daily")).
    + vm_compute. reflexivity.
    + vm_compute. reflexivity.
    + vm_compute. tauto.
    + left. vm_compute. reflexivity.
  - eapply (F Samples.now Samples.raw_fact Samples.fact_out 0%nat _ (u "time_daily")).
    + vm_compute. reflexivity.
    + vm_compute. reflexivity.
    + vm_compute. tauto.
    + right. right. exists (u "abc"). split; vm_compute; reflexivity.
  - eapply (D Samples.now Samples.raw_dimension Samples.dimension_out 0%nat _ (u "description")).
    + vm_compute. reflexivity.
    + vm_compute. reflexivity.
    + vm_compute. tauto.
    + left. vm_compute. reflexivity.
  - eapply (D Samples.now Samples.raw_dimension Samples.dimension_out 1%nat _ (u "description")).
    + vm_compute. reflexivity.
    + vm_compute. reflexivity.
    + vm_compute. tauto.
    + right. vm_compute. reflexivity.
Defined.

(** Without the table of the periods the schema of the fact cannot be
    built, whatever the fact. *)
Lemma missing_dimension_is_a_lookup_error_witness :
  exists e, MissingDimensionFacts.lookup_error e /\
    forall fact, Validator.validate_fact Samples.five_dimensions fact = Raise e.
Proof.
  destruct (@MissingDimensionFacts.missing_dimension_is_a_lookup_error
              Samples.five_dimensions (u "Periods")) as [H _].
  - vm_compute. tauto.
  - vm_compute. reflexivity.
  - exact H.
Defined.

End Examples.

(** ** Sections whose read fails *)

Module SectionTolerance.
Import Text Frames TextFacts ResultFacts FrameFacts Parser ParserFacts.
Local Arguments mem : simpl never.

Section WithReader.

Variable read_csv : str -> forall (sep : str) (skiprows : nat) (quotechar : char), result frame.
Variables sep content : str.

(** The frame of the last turn for the name [m] whose read succeeded. *)
Fixpoint last_read (m : str) (secs : list str) : option frame :=
  match secs with
  | [] => None
  | x :: rest =>
      match last_read m rest with
      | Some df => Some df
      | None =>
          if str_eqb x m then
            match outcome read_csv sep content x rest with
            | Some (Ok df) => Some df
            | _ => None
            end
          else None
      end
  end.

Lemma last_read_absent m secs : ~ In m secs -> last_read m secs = None.
Proof.
  induction secs as [|x rest IH]; intros H; cbn [last_read]; [reflexivity|].
  rewrite IH by (intros Hin; apply H; right; exact Hin).
  assert (Hx : x <> m) by (intros ->; apply H; left; reflexivity).
  apply str_eqb_neq in Hx. rewrite Hx. reflexivity.
Qed.

Lemma last_read_last pre m rest df :
  ~ In m rest -> outcome read_csv sep content m rest = Some (Ok df) ->
  last_read m (pre ++ m :: rest) = Some df.
Proof.
  intros Hr Ho. induction pre as [|x pre IH]; cbn [app last_read].
  - rewrite (last_read_absent _ _ Hr), str_eqb_refl, Ho. reflexivity.
  - rewrite IH. reflexivity.
Qed.

Lemma last_read_once pre m rest :
  ~ In m pre -> ~ In m rest ->
  last_read m (pre ++ m :: rest) =
  match outcome read_csv sep content m rest with
  | Some (Ok df) => Some df
  | _ => None
  end.
Proof.
  intros Hp Hr. induction pre as [|x pre IH]; cbn [app last_read].
  - rewrite (last_read_absent _ _ Hr), str_eqb_refl. reflexivity.
  - rewrite IH by (intros Hin; apply Hp; right; exact Hin).
    assert (Hx : x <> m) by (intros ->; apply Hp; left; reflexivity).
    apply str_eqb_neq in Hx. rewrite Hx.
    destruct (outcome read_csv sep content m rest) as [[df|e]|]; reflexivity.
Qed.

(** What the mapping holds under a name after the loop. *)
Lemma parse_sections_get m : forall secs st,
  Dict.get m (dataframes (parse_sections read_csv sep content secs st)) =
  match last_read m secs with
  | Some df => Some df
  | None => Dict.get m (dataframes st)
  end.
Proof.
  induction secs as [|x rest IH]; intros st; cbn [parse_sections last_read];
    [reflexivity|].
  rewrite IH. destruct (last_read m rest) as [df|]; [reflexivity|].
  rewrite parse_section_outcome.
  destruct (str_eqb x m) eqn:E.
  - apply str_eqb_eq in E. subst x.
    destruct (outcome read_csv sep content m rest) as [[df|e]|];
      cbn [dataframes]; try reflexivity.
    apply LoaderFacts.dict_get_set_same.
  - apply str_eqb_neq in E.
    destruct (outcome read_csv sep content x rest) as [[df|e]|];
      cbn [dataframes]; try reflexivity.
    apply MissingDimensionFacts.dict_get_set_other. exact E.
Qed.

(** What has been printed after the loop. *)
Lemma parse_sections_printed : forall secs st,
  printed (parse_sections read_csv sep content secs st) =
  printed st ++ reported read_csv sep content secs.
Proof.
  induction secs as [|x rest IH]; intros st; cbn [parse_sections reported].
  - rewrite app_nil_r. reflexivity.
  - rewrite IH, parse_section_outcome.
    destruct (outcome read_csv sep content x rest) as [[df|e]|];
      cbn [printed]; try reflexivity.
    rewrite <- app_assoc. reflexivity.
Qed.

End WithReader.

(** C9.  Partial-section tolerance: [parse] returns for every document
    and every reader, whatever the reader raises on a block; a turn of
    the loop whose read raises leaves the mapping as it is and prints a
    line with the name of the section and the cause; after the loop the
    mapping holds under each name the frame of the last turn for that
    name whose read succeeded, and nothing under a name with no such
    turn; so a section whose name stands once is in the mapping with its
    frame when its read succeeds and not in the mapping when it fails,
    and with names that stand once each the mapping is made of exactly
    the sections read, in their order. *)
Theorem partial_section_tolerance
  (read_csv : str -> forall (sep : str) (skiprows : nat) (quotechar : char), result frame)
  (content sep : str) :
  exists st,
    parse read_csv (Some content) sep = Ok st /\
    printed st = reported read_csv sep content (_find_sections content) /\
    (forall m, Dict.get m (dataframes st) =
               last_read read_csv sep content m (_find_sections content)) /\
    (forall marker rest st0 e,
       outcome read_csv sep content marker rest = Some (Raise e) ->
       dataframes (parse_section read_csv sep content marker rest st0) = dataframes st0 /\
       printed (parse_section read_csv sep content marker rest st0) =
         printed st0 ++ [message marker e]) /\
    (forall pre m rest,
       _find_sections content = pre ++ m :: rest ->
       match outcome read_csv sep content m rest with
       | Some (Ok df) => ~ In m rest -> Dict.get m (dataframes st) = Some df
       | Some (Raise e) =>
           In (message m e) (printed st) /\
           (~ In m pre -> ~ In m rest -> Dict.get m (dataframes st) = None)
       | None => ~ In m pre -> ~ In m rest -> Dict.get m (dataframes st) = None
       end) /\
    (NoDup (_find_sections content) ->
     dataframes st = parsed read_csv sep content (_find_sections content)).
Proof.
  eexists. split; [reflexivity|].
  split; [rewrite parse_sections_printed; reflexivity|].
  assert (G : forall m,
            Dict.get m (dataframes (parse_sections read_csv sep content
                                      (_find_sections content) (PState [] []))) =
            last_read read_csv sep content m (_find_sections content)).
  { intros m. rewrite parse_sections_get.
    destruct (last_read read_csv sep content m (_find_sections content)); reflexivity. }
  split; [exact G|]. split.
  { intros marker rest st0 e H. rewrite parse_section_outcome, H. split; reflexivity. }
  split.
  - intros pre m rest E.
    destruct (outcome read_csv sep content m rest) as [[df|e]|] eqn:O.
    + intros Hr. rewrite G, E. apply last_read_last; assumption.
    + split.
      * rewrite parse_sections_printed, E. cbn [printed app].
        apply reported_in. exact O.
      * intros Hp Hr. rewrite G, E, last_read_once, O by assumption. reflexivity.
    + intros Hp Hr. rewrite G, E, last_read_once, O by assumption. reflexivity.
  - intros Hnd. rewrite (parse_sections_spec read_csv sep content Hnd) by reflexivity.
    reflexivity.
Qed.

(** Of the three sample sections the two well-formed ones are
    returned and one failure is printed. *)
Lemma partial_section_tolerance_witness :
  exists st,
    parse Csv.read_csv (Some Samples.three_sections) (u ";") = Ok st /\
    map fst (dataframes st) = [u "Periods"; u "Margins"] /\
    Dict.get (u "Broken") (dataframes st) = None /\
    printed st =
      [u "Error while parsing section 'Broken': Error tokenizing data"].
Proof.
  destruct (partial_section_tolerance Csv.read_csv Samples.three_sections (u ";"))
    as [st [Hp [Hpr [Hget [_ [_ Hd]]]]]].
  exists st. split; [exact Hp|].
  rewrite Hget, Hpr, Hd.
  - repeat split; vm_compute; reflexivity.
  - vm_compute.
    repeat (constructor; [intros K;
      repeat (destruct K as [K|K]; [discriminate K|]); exact K |]).
    constructor.
Defined.

End SectionTolerance.

(** ** When the fact transformer raises *)

Module ColumnErrors.
Import Text Frames TextFacts ResultFacts FrameFacts Transformer.
Local Arguments mem : simpl never.
Local Open Scope result_scope.

(** What reading the column [c] of a frame with the labels [cols]
    raises, if anything. *)
Definition label_error (cols : list str) (c : str) : option exn :=
  match count_label c cols with
  | O => Some (KeyError c)
  | S O => None
  | _ => Some (AmbiguousLabel c)
  end.

(** The error of the first label of [L] that cannot be read. *)
Fixpoint first_error (cols L : list str) : option exn :=
  match L with
  | [] => None
  | c :: rest =>
      match label_error cols c with
      | Some e => Some e
      | None => first_error cols rest
      end
  end.


Lemma first_error_none cols L :
  first_error cols L = None <-> Forall (fun c => count_label c cols = 1%nat) L.
Proof.
  induction L as [|c L IH]; cbn [first_error].
  - split; [constructor | reflexivity].
  - unfold label_error. destruct (count_label c cols) as [|[|n]] eqn:E.
    + split; [discriminate | intros H; inversion H; congruence].
    + rewrite IH. split; [intros H; constructor; assumption
                         | intros H; inversion H; assumption].
    + split; [discriminate | intros H; inversion H; congruence].
Qed.

Lemma first_error_some cols L e :
  first_error cols L = Some e ->
  exists pre c post,
    L = pre ++ c :: post /\
    Forall (fun x => count_label x cols = 1%nat) pre /\
    ((count_label c cols = 0%nat /\ e = KeyError c) \/
     ((2 <= count_label c cols)%nat /\ e = AmbiguousLabel c)).
Proof.
  induction L as [|c L IH]; cbn [first_error]; [discriminate|].
  unfold label_error. destruct (count_label c cols) as [|[|n]] eqn:E; intros H.
  - inversion H; subst. exists [], c, L. repeat split; [constructor|].
    left. split; [exact E | reflexivity].
  - destruct (IH H) as [pre [c' [post [-> [Hp Hc]]]]].
    exists (c :: pre), c', post. repeat split; [constructor; assumption | exact Hc].
  - inversion H; subst. exists [], c, L. repeat split; [constructor|].
    right. split; [rewrite E; lia | reflexivity].
Qed.







End ColumnErrors.

(** ** What the fact transformer returns *)

Module FactOutput.
Import Text Frames TextFacts ResultFacts FrameFacts Transformer Transformer.Fact.
Import FactFacts.
Local Arguments mem : simpl never.
Local Open Scope result_scope.

(** A cell that is a number. *)
Definition is_number (c : cell) : Prop :=
  (exists z, c = VInt z) \/ (exists f, c = VFloat f).






Lemma Forall2_same_length {A B} (R : A -> B -> Prop) l l' :
  Forall2 R l l' -> List.length l = List.length l'.
Proof. induction 1; simpl; congruence. Qed.

(** The transformed fact table has as many rows as the input, and every
    row carries the one reading of the clock, whatever the input held
    under [ingested_at]. *)
Theorem fact_transform_shape now df out :
  transform now df = Ok out ->
  List.length (rows out) = List.length (rows df) /\
  Forall (fun r => row_get (u "ingested_at") r = VTime now) (rows out).
Proof.
  intros H. apply transform_view in H. destruct H as [_ [_ [nf [_ V]]]]. split.
  - apply Forall2_same_length in V. rewrite <- V.
    unfold rename_columns, rename. cbn [rows]. apply length_map.
  - apply Forall_forall. intros r Hr.
    destruct (@Forall2_In_r _ _ _ _ _ _ V Hr) as [r0 [_ W]].
    rewrite row_get_lookup, (W (u "ingested_at")). reflexivity.
Qed.

Lemma fact_transform_shape_witness :
  List.length (rows Samples.fact_out) = 1%nat /\
  Forall (fun r => row_get (u "ingested_at") r = VTime Samples.now) (rows Samples.fact_out).
Proof.
  apply (@fact_transform_shape Samples.now Samples.raw_fact Samples.fact_out).
  vm_compute. reflexivity.
Defined.

(** A foreign key of the transformed table is the text of the raw value
    without the whitespace around it; a missing raw value is not null
    there but the text [nan] or [None]. *)
Theorem fact_key_fields now df out i r c :
  transform now df = Ok out ->
  nth_error (rows (rename_columns df)) i = Some r ->
  In c FK_COLUMNS ->
  exists r', nth_error (rows out) i = Some r' /\
    row_get c r' = VStr (strip (py_str (row_get c r))) /\
    (row_get c r = VNaN -> row_get c r' = VStr (u "nan")) /\
    (row_get c r = VNone -> row_get c r' = VStr (u "None")).
Proof.
  intros H Hi Hc.
  apply transform_view in H. destruct H as [_ [_ [nf [_ V]]]].
  destruct (@Forall2_nth_error _ _ _ _ _ _ _ V Hi) as [r' [Hi' W]].
  exists r'. split; [exact Hi'|].
  apply mem_In in Hc.
  assert (E : row_get c r' = VStr (strip (py_str (row_get c r)))).
  { rewrite (row_get_lookup c r'), (W c), Hc. reflexivity. }
  split; [exact E|]. split; intros N; rewrite E, N; reflexivity.
Qed.

Lemma fact_key_fields_witness :
  exists r', nth_error (rows Samples.fact_out) 0 = Some r' /\
             row_get (u "travel_motive_key") r' = VStr (u "TM1").
Proof.
  destruct (@fact_key_fields Samples.now Samples.raw_fact Samples.fact_out 0%nat
              (Samples.first_row (rename_columns Samples.raw_fact))
              (u "travel_motive_key")) as [r' [H1 [H2 _]]].
  - vm_compute. reflexivity.
  - vm_compute. reflexivity.
  - left. reflexivity.
  - exists r'. split; [exact H1|]. rewrite H2. vm_compute. reflexivity.
Defined.




(** The labels [drop_unused_columns] keeps. *)
Definition KEEP : list str := [u "fact_id"] ++ FK_COLUMNS ++ METRIC_COLUMNS.

Lemma mem_filter_present cols c L :
  mem c (filter (fun x => mem x cols) L) = mem c L && mem c cols.
Proof.
  induction L as [|x L IH]; cbn [filter]; [reflexivity|].
  destruct (mem x cols) eqn:M; rewrite ?mem_cons, IH.
  - destruct (str_eqb c x) eqn:E; [|reflexivity].
    apply str_eqb_eq in E. subst x. rewrite M. reflexivity.
  - destruct (str_eqb c x) eqn:E; [|reflexivity].
    apply str_eqb_eq in E. subst x. rewrite M.
    destruct (mem c L); reflexivity.
Qed.

Lemma mem_flat_map_filter cols c L :
  mem c (flat_map (fun x => filter (str_eqb x) cols) L) = mem c L && mem c cols.
Proof.
  induction L as [|x L IH]; cbn [flat_map]; [reflexivity|].
  rewrite mem_app, mem_cons, IH.
  assert (H : mem c (filter (str_eqb x) cols) = str_eqb c x && mem c cols).
  { clear IH. induction cols as [|y cols IHc]; cbn [filter].
    - rewrite andb_false_r. reflexivity.
    - destruct (str_eqb x y) eqn:E; rewrite ?mem_cons, IHc.
      + apply str_eqb_eq in E. subst y.
        destruct (str_eqb c x); reflexivity.
      + destruct (str_eqb c x) eqn:Ec; [|reflexivity].
        apply str_eqb_eq in Ec. subst c.
        rewrite E. reflexivity. }
  rewrite H. destruct (str_eqb c x), (mem c L), (mem c cols); reflexivity.
Qed.

(** [drop_unused_columns] keeps the columns of the frame that are
    [fact_id], a foreign key or a metric and no other, [ingested_at]
    included; it keeps the rows, and under a label it keeps, what each
    row held. *)
Theorem drop_unused_columns_keeps df :
  (forall c, mem c (columns (drop_unused_columns df)) =
             mem c KEEP && mem c (columns df)) /\
  mem (u "ingested_at") (columns (drop_unused_columns df)) = false /\
  List.length (rows (drop_unused_columns df)) = List.length (rows df) /\
  Forall2 (fun r r' => forall c,
             lookup c r' = if mem c KEEP && mem c (columns df)
                           then lookup c r else None)
          (rows df) (rows (drop_unused_columns df)).
Proof.
  assert (Hc : forall c, mem c (columns (drop_unused_columns df)) =
                         mem c KEEP && mem c (columns df)).
  { intros c. unfold drop_unused_columns, select. cbn [columns].
    fold KEEP. rewrite mem_flat_map_filter, mem_filter_present.
    destruct (mem c KEEP), (mem c (columns df)); reflexivity. }
  split; [exact Hc|]. split; [rewrite Hc; reflexivity|].
  unfold drop_unused_columns, select. cbn [rows]. fold KEEP. split.
  - apply length_map.
  - apply Forall2_map_r. intros r _ c.
    rewrite lookup_select, mem_filter_present. reflexivity.
Qed.

End FactOutput.

(** ** What the dimension transformer returns *)

Module DimensionOutput.
Import Text Frames TextFacts ResultFacts FrameFacts Transformer Transformer.Dimension.
Import DimensionFacts.
Local Arguments mem : simpl never.
Local Open Scope result_scope.

(** The first of the three text labels that stands more than once. *)
Definition repeated_text_label (cols : list str) : option str :=
  List.find (fun c => (2 <=? count_label c cols)%nat) CLEANED.

Lemma clean_loop_outcome : forall L df,
  match List.find (fun c => (2 <=? count_label c (columns df))%nat) L with
  | Some c => for_each clean_column L df = Raise (AmbiguousLabel c)
  | None => exists df', for_each clean_column L df = Ok df' /\ columns df' = columns df
  end.
Proof.
  induction L as [|c L IH]; intros df; cbn [List.find for_each]; [eauto|].
  rewrite WhitespaceFacts.clean_column_eq.
  destruct (count_label c (columns df)) as [|[|n]] eqn:E; cbn [Nat.leb bind].
  - apply IH.
  - match goal with |- context [for_each _ L ?d] => specialize (IH d) end.
    cbn [columns] in IH. exact IH.
  - reflexivity.
Qed.

(** The dimension transformer raises only when [key], [title] or
    [description] stands more than once among the renamed labels; a
    frame that lacks these columns is transformed all the same. *)
Theorem dimension_transform_outcome now df :
  match repeated_text_label (columns (rename_columns df)) with
  | Some c => transform now df = Raise (AmbiguousLabel c)
  | None => exists out, transform now df = Ok out
  end.
Proof.
  unfold transform, clean_strings, repeated_text_label.
  pose proof (clean_loop_outcome CLEANED (rename_columns df)) as H.
  unfold CLEANED in *.
  destruct (List.find _ _) as [c|].
  - rewrite H. reflexivity.
  - destruct H as [df' [H _]]. rewrite H. cbn [bind]. eauto.
Qed.

Lemma dimension_transform_outcome_witness :
  (exists out, transform Samples.now Samples.raw_dimension = Ok out) /\
  (exists out, transform Samples.now Samples.raw_fact = Ok out) /\
  transform Samples.now
    (Samples.table [u "Key"; u "key"] [[Samples.s "a"; Samples.s "b"]]) =
    Raise (AmbiguousLabel (u "key")).
Proof.
  split; [|split].
  - exact (dimension_transform_outcome Samples.now Samples.raw_dimension).
  - exact (dimension_transform_outcome Samples.now Samples.raw_fact).
  - exact (dimension_transform_outcome Samples.now
             (Samples.table [u "Key"; u "key"] [[Samples.s "a"; Samples.s "b"]])).
Defined.

(** The transformed dimension has the renamed columns in their order,
    with [ingested_at] added at the end when it was not there; it has as
    many rows as the input, and every row carries the one reading of
    the clock. *)
Theorem dimension_transform_shape now df out :
  transform now df = Ok out ->
  columns out =
    (let cols := map (rename_label COLUMN_MAPPING) (columns df) in
     if mem (u "ingested_at") cols then cols else cols ++ [u "ingested_at"]) /\
  List.length (rows out) = List.length (rows df) /\
  Forall (fun r => row_get (u "ingested_at") r = VTime now) (rows out).
Proof.
  intros H. apply dimension_transform_view in H. destruct H as [Hc V].
  split; [exact Hc|]. split.
  - apply FactOutput.Forall2_same_length in V. rewrite <- V.
    unfold rename_columns, rename. cbn [rows]. apply length_map.
  - apply Forall_forall. intros r Hr.
    destruct (@Forall2_In_r _ _ _ _ _ _ V Hr) as [r0 [_ W]].
    rewrite row_get_lookup, (W (u "ingested_at")). reflexivity.
Qed.

Lemma dimension_transform_shape_witness :
  columns Samples.dimension_out =
    [u "key"; u "title"; u "description"; u "ingested_at"] /\
  List.length (rows Samples.dimension_out) = 2%nat.
Proof.
  destruct (@dimension_transform_shape Samples.now Samples.raw_dimension
              Samples.dimension_out) as [H1 [H2 _]].
  - vm_compute. reflexivity.
  - split; [exact H1 | exact H2].
Defined.


Lemma strip_not_blank s : strip s <> u " ".
Proof.
  intros H. pose proof (strip_idem s) as I. rewrite H in I.
  vm_compute in I. discriminate I.
Qed.

Lemma nullified_cleaned v :
  nullified (cleaned v) =
  (let t := strip (py_str v) in
   if mem t [u "nan"; u "None"; []] then VNone else VStr t).
Proof.
  unfold nullified, cleaned, strip_cell. cbv zeta.
  set (t := strip (py_str v)).
  assert (Hb : str_eqb t (u " ") = false).
  { apply str_eqb_neq. intros E. symmetry in E. revert E. unfold t.
    intros E. apply (@strip_not_blank (py_str v)). symmetry. exact E. }
  unfold replace_with_none at 2. rewrite !mem_cons.
  destruct (str_eqb t (u "nan")); [reflexivity|].
  destruct (str_eqb t (u "None")); [reflexivity|].
  cbn [orb]. change (mem t []) with false. cbv iota.
  unfold replace_with_none. rewrite !mem_cons, Hb.
  change (mem t []) with false. rewrite !orb_false_r. reflexivity.
Qed.

(** What the transformed dimension holds in [key], [title] and
    [description]: the text of the raw value without the whitespace
    around it, and null when that text is empty or is [nan] or [None],
    which is what a missing raw value reads as. *)
Theorem dimension_text_fields now df out i r c :
  transform now df = Ok out ->
  nth_error (rows (rename_columns df)) i = Some r ->
  In c [u "key"; u "title"; u "description"] ->
  mem c (columns (rename_columns df)) = true ->
  exists r', nth_error (rows out) i = Some r' /\
    row_get c r' =
      (let t := strip (py_str (row_get c r)) in
       if mem t [u "nan"; u "None"; []] then VNone else VStr t).
Proof.
  intros H Hi Hc Hm.
  apply dimension_transform_view in H. destruct H as [_ V].
  destruct (@Forall2_nth_error _ _ _ _ _ _ _ V Hi) as [r' [Hi' W]].
  exists r'. split; [exact Hi'|].
  assert (Hne : str_eqb c (u "ingested_at") = false).
  { simpl in Hc. destruct Hc as [<-|[<-|[<-|[]]]]; reflexivity. }
  apply mem_In in Hc. fold CLEANED in Hc.
  rewrite (row_get_lookup c r'), (W c), Hne, Hc, Hm. cbn [andb option_map].
  apply nullified_cleaned.
Qed.

Lemma dimension_text_fields_witness :
  exists r', nth_error (rows Samples.dimension_out) 0 = Some r' /\
             row_get (u "key") r' = VStr (u "P1").
Proof.
  apply (@dimension_text_fields Samples.now Samples.raw_dimension Samples.dimension_out
           0%nat (Samples.first_row (rename_columns Samples.raw_dimension)) (u "key")).
  - vm_compute. reflexivity.
  - vm_compute. reflexivity.
  - left. reflexivity.
  - vm_compute. reflexivity.
Defined.

(** Outside [key], [title], [description] and [ingested_at] the
    transformer keeps the cells as they are, except that the empty
    string and the text of one space become null. *)
Theorem dimension_other_fields now df out i r c :
  transform now df = Ok out ->
  nth_error (rows (rename_columns df)) i = Some r ->
  ~ In c [u "key"; u "title"; u "description"; u "ingested_at"] ->
  exists r', nth_error (rows out) i = Some r' /\
    lookup c r' =
      option_map (fun v => match v with
                           | VStr s => if str_eqb s [] || str_eqb s (u " ")
                                       then VNone else v
                           | _ => v
                           end) (lookup c r).
Proof.
  intros H Hi Hc.
  apply dimension_transform_view in H. destruct H as [_ V].
  destruct (@Forall2_nth_error _ _ _ _ _ _ _ V Hi) as [r' [Hi' W]].
  exists r'. split; [exact Hi'|].
  assert (Hne : str_eqb c (u "ingested_at") = false).
  { apply str_eqb_neq. intros ->. apply Hc. simpl. auto. }
  assert (Hcl : mem c CLEANED = false).
  { apply mem_false. intros Hin. apply Hc. unfold CLEANED in Hin. simpl in *. tauto. }
  rewrite (W c), Hne, Hcl. cbn [andb].
  destruct (lookup c r) as [v|]; [|reflexivity]. cbn [option_map]. f_equal.
  unfold nullified, replace_with_none. destruct v; try reflexivity.
  rewrite !mem_cons. unfold mem. cbn [existsb]. rewrite orb_false_r. reflexivity.
Qed.

Lemma dimension_other_fields_witness :
  exists r', nth_error (rows (Samples.frame_of (transform Samples.now Samples.raw_fact))) 0
               = Some r' /\
             lookup (u "Trips_1") r' = Some (VStr (u ".")).
Proof.
  apply (@dimension_other_fields Samples.now Samples.raw_fact
           (Samples.frame_of (transform Samples.now Samples.raw_fact))
           0%nat (Samples.first_row (rename_columns Samples.raw_fact)) (u "Trips_1")).
  - vm_compute. reflexivity.
  - vm_compute. reflexivity.
  - simpl. intros H. repeat (destruct H as [H|H]; [discriminate H|]). exact H.
Defined.

End DimensionOutput.

(** ** What the validation returns *)

Module ValidatorOutput.
Import Text Frames TextFacts ResultFacts FrameFacts Validator ValidatorFacts.
Local Arguments mem : simpl never.
Local Open Scope result_scope.

Lemma validated_so_far : forall dims acc out,
  for_each (fun validated (item : str * frame) =>
              df <- validate dimension_schema (snd item) ;;
              Ok (Dict.set (fst item) df validated)) dims acc = Ok out ->
  NoDup (map fst dims) ->
  (forall k, In k (map fst dims) -> Dict.get k acc = None) ->
  out = acc ++ dims.
Proof.
  induction dims as [|[name df] rest IH]; intros acc out H Hnd Hfresh;
    cbn [for_each] in H.
  - inversion H. rewrite app_nil_r. reflexivity.
  - apply bind_ok in H. destruct H as [acc' [H1 H2]].
    apply bind_ok in H1. destruct H1 as [df' [Hv Hs]].
    apply validate_iff in Hv. destruct Hv as [-> _].
    cbn [fst snd] in Hs. inversion Hs; subst acc'; clear Hs.
    cbn [map fst] in Hnd, Hfresh. inversion Hnd; subst.
    rewrite ParserFacts.dict_set_absent in H2 by (apply Hfresh; left; reflexivity).
    apply IH in H2; [|assumption|].
    + rewrite H2, <- app_assoc. reflexivity.
    + intros k Hk. rewrite ParserFacts.dict_get_app_absent
        by (apply Hfresh; right; exact Hk).
      cbn. destruct (str_eqb name k) eqn:E; [|reflexivity].
      apply str_eqb_eq in E. subst k. contradiction.
Qed.

(** A validation that passes hands back what it was given: the schema
    returns the frame unchanged, and [validate_dimensions] returns the
    mapping of the tables as it is. *)
Theorem validation_returns_its_input :
  (forall schema df out, validate schema df = Ok out -> out = df) /\
  (forall dims fact out, validate_fact dims fact = Ok out -> out = fact) /\
  (forall dims out, validate_dimensions dims = Ok out ->
     NoDup (map fst dims) -> out = dims).
Proof.
  split; [|split].
  - intros schema df out H. apply validate_iff in H. tauto.
  - intros dims fact out H. unfold validate_fact in H.
    apply bind_ok in H. destruct H as [sch [_ H]].
    apply validate_iff in H. tauto.
  - intros dims out H Hnd.
    apply (validated_so_far dims [] H Hnd). reflexivity.
Qed.

Lemma validation_returns_its_input_witness :
  validate_dimensions Samples.six_dimensions = Ok Samples.six_dimensions.
Proof.
  destruct validation_returns_its_input as [_ [_ H]].
  destruct (validate_dimensions Samples.six_dimensions) as [out|e] eqn:E.
  - f_equal. apply H; [exact E|].
    vm_compute.
    repeat (constructor; [intros K;
      repeat (destruct K as [K|K]; [discriminate K|]); exact K |]).
    constructor.
  - vm_compute in E. discriminate E.
Defined.

Lemma valid_prefix : forall pre acc,
  Forall (fun item : str * frame => dimension_ok (snd item)) pre ->
  exists acc',
    for_each (fun validated (item : str * frame) =>
                df <- validate dimension_schema (snd item) ;;
                Ok (Dict.set (fst item) df validated)) pre acc = Ok acc'.
Proof.
  induction pre as [|[name df] pre IH]; intros acc H; cbn [for_each]; [eauto|].
  inversion H; subst. cbn [snd fst] in *.
  assert (E : validate dimension_schema df = Ok df)
    by (apply dimension_schema_iff; auto).
  rewrite E. cbn [bind]. apply IH. assumption.
Qed.

(** The validation stops at the first dimension table that is not in
    order, with the error of that table: the tables after it are not
    looked at, nor is the fact table, nor whether a dimension is
    missing. *)
Theorem first_invalid_dimension_raises pre name df rest e fact :
  Forall (fun item : str * frame => dimension_ok (snd item)) pre ->
  validate dimension_schema df = Raise e ->
  validate_dimensions (pre ++ (name, df) :: rest) = Raise e /\
  validate_all (pre ++ (name, df) :: rest) fact = Raise e.
Proof.
  intros Hpre He.
  assert (H : validate_dimensions (pre ++ (name, df) :: rest) = Raise e).
  { unfold validate_dimensions. rewrite for_each_app.
    destruct (valid_prefix [] Hpre) as [acc' ->]. cbn [bind for_each snd].
    rewrite He. reflexivity. }
  split; [exact H|]. unfold validate_all. rewrite H. reflexivity.
Qed.

Lemma first_invalid_dimension_raises_witness :
  validate_all
    (firstn 2 Samples.six_dimensions ++
     (u "TravelModes", Samples.raw_dimension) :: skipn 4 Samples.six_dimensions)
    Samples.canonical_fact =
  Raise (SchemaError (u "key") (u "column not in dataframe")).
Proof.
  apply (@first_invalid_dimension_raises (firstn 2 Samples.six_dimensions)
           (u "TravelModes") Samples.raw_dimension (skipn 4 Samples.six_dimensions)
           (SchemaError (u "key") (u "column not in dataframe")) Samples.canonical_fact).
  - destruct ValidationRules.validate_all_iff with
      (dimensions := Samples.six_dimensions) (fact := Samples.canonical_fact) as [H _].
    destruct H as [H _]; [vm_compute; reflexivity|].
    inversion H as [|a l H1 H2]; subst. inversion H2 as [|b m H3 H4]; subst.
    apply Forall_cons; [exact H1|]. apply Forall_cons; [exact H3|]. apply Forall_nil.
  - vm_compute. reflexivity.
Defined.

(** Columns outside the schema never matter: two frames with the same
    labels counted and the same values under the labels of the schema
    get the same verdict. *)
Theorem columns_outside_the_schema_are_ignored schema df df' :
  (forall c, In c (map fst schema) ->
     count_label c (columns df') = count_label c (columns df) /\
     column c df' = column c df) ->
  ((exists out, validate schema df = Ok out) <->
   (exists out, validate schema df' = Ok out)).
Proof.
  intros H.
  assert (G : forall a b,
            (forall c, In c (map fst schema) ->
               count_label c (columns b) = count_label c (columns a) /\
               column c b = column c a) ->
            (exists out, validate schema a = Ok out) ->
            exists out, validate schema b = Ok out).
  { intros a b Hab [out Ho]. apply validate_iff in Ho. destruct Ho as [_ Ho].
    exists b. apply validate_iff. split; [reflexivity|].
    rewrite Forall_forall in *. intros nc Hnc.
    destruct (Hab (fst nc) (in_map fst _ _ Hnc)) as [E1 E2].
    rewrite E1, E2. apply Ho. exact Hnc. }
  split; apply G; [exact H|].
  intros c Hc. destruct (H c Hc) as [E1 E2]. split; congruence.
Qed.

(** A dimension table with a column the schema does not list. *)
Definition annotated_dimension : frame :=
  Samples.table (map u ["key"; "note"; "title"; "description"; "ingested_at"]%string)
    [[Samples.s "P1"; VInt 7; Samples.s "title"; VNone; VTime Samples.now]].

Lemma columns_outside_the_schema_are_ignored_witness :
  exists out, validate dimension_schema annotated_dimension = Ok out.
Proof.
  apply (@columns_outside_the_schema_are_ignored dimension_schema
           (Samples.dimension ["P1"%string]) annotated_dimension).
  - intros c Hc. simpl in Hc.
    repeat (destruct Hc as [<-|Hc]; [split; vm_compute; reflexivity|]).
    contradiction.
  - eexists. vm_compute. reflexivity.
Defined.

End ValidatorOutput.

(** ** What the parser returns *)

Module ParserOutput.
Import Text Frames TextFacts ResultFacts FrameFacts Parser RegexFacts ParserFacts.
Import SectionTolerance.
Local Arguments mem : simpl never.

Section WithReader.

Variable read_csv : str -> forall (sep : str) (skiprows : nat) (quotechar : char), result frame.
Variables sep content : str.

Lemma last_read_some m df : forall secs,
  last_read read_csv sep content m secs = Some df ->
  In m secs /\ exists rest, outcome read_csv sep content m rest = Some (Ok df).
Proof.
  induction secs as [|x rest IH]; cbn [last_read]; [discriminate|].
  destruct (last_read read_csv sep content m rest) as [d|] eqn:L.
  - intros H. inversion H; subst d. destruct (IH eq_refl) as [Hin Ho].
    split; [right; exact Hin | exact Ho].
  - destruct (str_eqb x m) eqn:E; [|discriminate].
    apply str_eqb_eq in E. subst x.
    destruct (outcome read_csv sep content m rest) as [[d|e]|] eqn:O; try discriminate.
    intros H. inversion H; subst d. split; [left; reflexivity | eauto].
Qed.

Lemma set_length {V} k (v : V) d :
  (List.length (Dict.set k v d) <= S (List.length d))%nat.
Proof.
  induction d as [|[k' v'] d IH]; cbn [Dict.set List.length]; [lia|].
  destruct (str_eqb k' k); cbn [List.length]; lia.
Qed.

Lemma parse_sections_size : forall secs st,
  (List.length (dataframes (parse_sections read_csv sep content secs st)) +
   List.length (printed (parse_sections read_csv sep content secs st))
   <= List.length (dataframes st) + List.length (printed st) + List.length secs)%nat.
Proof.
  induction secs as [|x rest IH]; intros st; cbn [parse_sections List.length]; [lia|].
  specialize (IH (parse_section read_csv sep content x rest st)).
  rewrite parse_section_outcome in *.
  destruct (outcome read_csv sep content x rest) as [[d|e]|];
    cbn [dataframes printed] in *.
  - pose proof (set_length x d (dataframes st)). lia.
  - rewrite length_app in IH. cbn [List.length] in IH. lia.
  - lia.
Qed.

End WithReader.

(** Whatever the reader does, every name under which [parse] returns a
    frame is a name the header search found: it is not empty, holds no
    quote, and stands in the document between two quotes followed by a
    line feed; and the frames returned and the failures printed are
    together no more than the names found. *)
Theorem returned_sections_are_headers
  (read_csv : str -> forall (sep : str) (skiprows : nat) (quotechar : char), result frame)
  (content sep : str) st :
  parse read_csv (Some content) sep = Ok st ->
  (forall m df, Dict.get m (dataframes st) = Some df ->
     In m (_find_sections content) /\ m <> [] /\ ~ In QUOTE m /\
     exists pre post, content = pre ++ (full_marker m ++ [NL]) ++ post) /\
  (List.length (dataframes st) + List.length (printed st)
   <= List.length (_find_sections content))%nat.
Proof.
  intros H. cbn [parse] in H. inversion H; subst st; clear H. split.
  - intros m df G. rewrite parse_sections_get in G.
    destruct (last_read read_csv sep content m (_find_sections content)) as [d|] eqn:L;
      [|discriminate G].
    inversion G; subst d.
    apply last_read_some in L. destruct L as [Hin [rest O]].
    split; [exact Hin|].
    destruct (find_sections_sound _ _ Hin) as [pre [piece [post [_ [_ [Hh _]]]]]].
    destruct Hh as [ws [bom [ws2 [_ [_ [_ [Hne [Hq _]]]]]]]].
    split; [exact Hne|]. split; [exact Hq|].
    unfold outcome in O.
    destruct (block_start content m =? -1)%Z eqn:B; [discriminate|].
    apply Z.eqb_neq in B.
    destruct (@block_shape content m rest B) as [p [q [E _]]]. eauto.
  - pose proof (parse_sections_size read_csv sep content
                  (_find_sections content) (PState [] [])) as S.
    cbn [dataframes printed List.length] in S. lia.
Qed.

Lemma returned_sections_are_headers_witness :
  In (u "Periods") (_find_sections Samples.three_sections) /\
  u "Periods" <> [].
Proof.
  destruct (@returned_sections_are_headers Csv.read_csv Samples.three_sections (u ";") _
              eq_refl) as [H _].
  destruct (Dict.get (u "Periods")
              (dataframes (parse_sections Csv.read_csv (u ";") Samples.three_sections
                             (_find_sections Samples.three_sections) (PState [] []))))
    as [df|] eqn:G.
  - destruct (H _ _ G) as [H1 [H2 _]]. split; assumption.
  - vm_compute in G. discriminate G.
Defined.

(** A document without any double quote, the empty document included,
    has no section: [parse] returns the empty mapping and prints
    nothing, without calling the reader. *)
Theorem document_without_quotes
  (read_csv : str -> forall (sep : str) (skiprows : nat) (quotechar : char), result frame)
  (content sep : str) :
  ~ In QUOTE content ->
  _find_sections content = [] /\
  parse read_csv (Some content) sep = Ok (PState [] []).
Proof.
  intros Hq.
  assert (E : _find_sections content = []).
  { destruct (_find_sections content) as [|name l] eqn:F; [reflexivity|].
    exfalso.
    destruct (find_sections_sound content name) as [pre [piece [post [Ec [_ [Hh _]]]]]].
    { rewrite F. left. reflexivity. }
    destruct Hh as [ws [bom [ws2 [Ep _]]]].
    apply Hq. rewrite Ec, Ep.
    apply in_or_app. right. apply in_or_app. left.
    apply in_or_app. right. apply in_or_app. right.
    apply in_or_app. left. left. reflexivity. }
  split; [exact E|]. cbn [parse]. rewrite E. reflexivity.
Qed.

Lemma document_without_quotes_witness :
  parse Csv.read_csv (Some (u "key;title" ++ Samples.NL ++ u "1;a")) (u ";") =
    Ok (PState [] []).
Proof.
  apply (@document_without_quotes Csv.read_csv
           (u "key;title" ++ Samples.NL ++ u "1;a") (u ";")).
  vm_compute. intros H.
  repeat (destruct H as [H|H]; [discriminate H|]). exact H.
Defined.

End ParserOutput.

(** ** What a load leaves in the store *)

Module LoaderOutput.
Import Text Frames TextFacts ResultFacts FrameFacts Loader LoaderFacts.
Local Arguments mem : simpl never.
Local Open Scope result_scope.

(** ** The tables a load touches *)

Lemma execute_elsewhere q records db db' name :
  execute q records db = Ok db' -> name <> target q ->
  Dict.get name db' = Dict.get name db.
Proof.
  unfold execute. destruct (Dict.get (target q) db) as [t|]; [|discriminate].
  intros H Hne. apply bind_ok in H. destruct H as [t' [_ H]].
  inversion H; subst db'.
  apply MissingDimensionFacts.dict_get_set_other. congruence.
Qed.

Lemma load_dimensions_elsewhere SCHEMA name : forall dims results db,
  (forall src tbl, In (src, tbl) TABLE_MAPPING ->
                   name <> target (dimension_query SCHEMA tbl)) ->
  Dict.get name (snd (load_dimensions SCHEMA dims results db)) = Dict.get name db.
Proof.
  induction dims as [|[src df] rest IH]; intros results db Hn;
    cbn [load_dimensions]; [reflexivity|].
  destruct (lookup src TABLE_MAPPING) as [tbl|] eqn:L; [|apply IH; exact Hn].
  unfold _upsert_table.
  destruct (execute (dimension_query SCHEMA tbl) (rows df) db) as [db'|e] eqn:E;
    cbn [bind]; [|reflexivity].
  rewrite IH by exact Hn.
  apply (execute_elsewhere _ _ _ E). apply (Hn src).
  clear - L. induction TABLE_MAPPING as [|[k v] l IHl]; cbn [lookup] in L; [discriminate|].
  destruct (str_eqb k src) eqn:K.
  - apply str_eqb_eq in K. inversion L; subst. left. reflexivity.
  - right. apply IHl. exact L.
Qed.

(** The load of the facts reports the number of rows of the frame and
    changes no table but the fact table; the load of the dimensions,
    whether it returns or raises, changes no table but those of the
    six dimensions. *)
Theorem loads_touch_only_their_tables :
  (forall SCHEMA df db n db',
     load_fact SCHEMA df db = Ok (n, db') ->
     n = List.length (rows df) /\
     forall name, name <> target (fact_query SCHEMA) ->
                  Dict.get name db' = Dict.get name db) /\
  (forall SCHEMA dims results db name,
     (forall src tbl, In (src, tbl) TABLE_MAPPING ->
                      name <> target (dimension_query SCHEMA tbl)) ->
     Dict.get name (snd (load_dimensions SCHEMA dims results db)) = Dict.get name db).
Proof.
  split.
  - intros SCHEMA df db n db' H. unfold load_fact in H.
    apply bind_ok in H. destruct H as [d [E H]]. inversion H; subst. split; [reflexivity|].
    intros name Hne. apply (execute_elsewhere _ _ _ E Hne).
  - intros. apply load_dimensions_elsewhere. assumption.
Qed.

Lemma loads_touch_only_their_tables_witness :
  Dict.get (u "public.dim_periods") Samples.loaded_once =
  Dict.get (u "public.dim_periods") Samples.empty_store.
Proof.
  destruct loads_touch_only_their_tables as [H _].
  destruct (H (u "public") Samples.canonical_fact Samples.empty_store 1%nat
              Samples.loaded_once) as [_ K].
  - vm_compute. reflexivity.
  - apply K. vm_compute. discriminate.
Defined.


(** ** Keys and rows under the upsert *)

Lemma cell_eqb_eq a b : cell_eqb a b = true <-> a = b.
Proof.
  destruct a as [s|x|[n c e|n]| | |s], b as [t|y|[n' c' e'|n']| | |t];
    cbn [cell_eqb];
    try (split; [discriminate | intros H; discriminate H]);
    try (split; reflexivity).
  - rewrite str_eqb_eq. split; [congruence | intros H; inversion H; auto].
  - rewrite Z.eqb_eq. split; [congruence | intros H; inversion H; auto].
  - rewrite !andb_true_iff, Bool.eqb_true_iff, N.eqb_eq, Z.eqb_eq.
    split; [intros [[-> ->] ->]; reflexivity | intros H; inversion H; auto].
  - rewrite Bool.eqb_true_iff. split; [intros ->; reflexivity | intros H; inversion H; auto].
  - rewrite str_eqb_eq. split; [congruence | intros H; inversion H; auto].
Qed.

(** A statement whose conflict column is inserted and not updated, and
    whose update columns are inserted: the two statements of the
    loaders are such. *)
Definition well_formed (q : statement) : Prop :=
  In (conflict_column q) (insert_columns q) /\
  ~ In (conflict_column q) (update_columns q) /\
  incl (update_columns q) (insert_columns q).

Lemma fact_query_well_formed SCHEMA : well_formed (fact_query SCHEMA).
Proof.
  unfold well_formed, fact_query, _build_upsert_query.
  cbn [conflict_column insert_columns update_columns]. split; [|split].
  - left. reflexivity.
  - apply mem_false. reflexivity.
  - intros c H. apply mem_In. simpl in H.
    repeat (destruct H as [<-|H]; [reflexivity|]). contradiction.
Qed.

Lemma dimension_query_well_formed SCHEMA tbl : well_formed (dimension_query SCHEMA tbl).
Proof.
  unfold well_formed, dimension_query, _build_upsert_query.
  cbn [conflict_column insert_columns update_columns]. split; [|split].
  - left. reflexivity.
  - apply mem_false. reflexivity.
  - intros c H. apply mem_In. simpl in H.
    repeat (destruct H as [<-|H]; [reflexivity|]). contradiction.
Qed.

(** The conflict values of the stored rows. *)
Definition keys (q : statement) (t : table) : list cell :=
  map (row_get (conflict_column q)) t.

Lemma proposed_get q rec c :
  In c (insert_columns q) -> row_get c (proposed q rec) = row_get c rec.
Proof.
  unfold proposed. induction (insert_columns q) as [|x l IH]; [intros []|].
  intros H. cbn [map row_get].
  destruct (str_eqb x c) eqn:E.
  - apply str_eqb_eq in E. subst. reflexivity.
  - destruct H as [->|H]; [rewrite str_eqb_refl in E; discriminate|]. apply IH. exact H.
Qed.

Lemma do_update_get q new old c :
  row_get c (do_update q new old) =
  if mem c (update_columns q) then row_get c new else row_get c old.
Proof.
  rewrite (row_get_lookup c (do_update q new old)), do_update_lookup.
  destruct (mem c (update_columns q)); [reflexivity|].
  symmetry. apply row_get_lookup.
Qed.

Lemma do_update_key q new old :
  ~ In (conflict_column q) (update_columns q) ->
  row_get (conflict_column q) (do_update q new old) = row_get (conflict_column q) old.
Proof.
  intros H. rewrite do_update_get. apply mem_false in H. rewrite H. reflexivity.
Qed.

Lemma conflicts_key q new old :
  conflicts q new old = true <->
  isna (row_get (conflict_column q) new) = false /\
  row_get (conflict_column q) old = row_get (conflict_column q) new.
Proof.
  unfold conflicts, notnull. rewrite andb_true_iff, negb_true_iff, cell_eqb_eq.
  reflexivity.
Qed.

(** An upsert leaves the keys as they are when a stored row has the
    key, and adds the key at the end otherwise. *)
Lemma upsert_row_keys q new t :
  ~ In (conflict_column q) (update_columns q) ->
  keys q (upsert_row q new t) =
  if existsb (conflicts q new) t then keys q t
  else keys q t ++ [row_get (conflict_column q) new].
Proof.
  intros Hq. unfold keys. induction t as [|old t IH]; cbn [upsert_row existsb map app];
    [reflexivity|].
  destruct (conflicts q new old) eqn:C; cbn [orb map].
  - rewrite do_update_key by exact Hq. reflexivity.
  - rewrite IH. destruct (existsb (conflicts q new) t); reflexivity.
Qed.

Lemma existsb_conflicts q new t :
  existsb (conflicts q new) t = true <->
  isna (row_get (conflict_column q) new) = false /\
  In (row_get (conflict_column q) new) (keys q t).
Proof.
  unfold keys. rewrite existsb_exists. split.
  - intros [old [Hin C]]. apply conflicts_key in C. destruct C as [N E].
    split; [exact N|]. rewrite <- E. apply in_map. exact Hin.
  - intros [N Hin]. apply in_map_iff in Hin. destruct Hin as [old [E Hin]].
    exists old. split; [exact Hin|]. apply conflicts_key. auto.
Qed.

(** The key of a record, as the statement sees it. *)
Definition key_of (q : statement) (rec : row) : cell :=
  row_get (conflict_column q) rec.

Lemma execute_one_ok q t rec t' :
  execute_one q t rec = Ok t' ->
  forallb (fun c => has_label c rec) (insert_columns q) = true /\
  t' = upsert_row q (proposed q rec) t.
Proof.
  unfold execute_one.
  destruct (forallb (fun c => has_label c rec) (insert_columns q)); [|discriminate].
  intros H. inversion H. auto.
Qed.

Lemma load_keys q : well_formed q -> forall records t t',
  for_each (execute_one q) records t = Ok t' ->
  exists added,
    keys q t' = keys q t ++ added /\
    (List.length added <= List.length records)%nat /\
    forall k, In k added -> exists rec, In rec records /\ k = key_of q rec.
Proof.
  intros [Hin [Hup _]]. induction records as [|rec records IH]; intros t t' H;
    cbn [for_each] in H.
  - inversion H; subst. exists []. rewrite app_nil_r. repeat split; [simpl; lia|].
    intros k [].
  - apply bind_ok in H. destruct H as [t1 [H1 H2]].
    apply execute_one_ok in H1. destruct H1 as [_ ->].
    destruct (IH _ _ H2) as [added [E [L K]]].
    rewrite upsert_row_keys in E by exact Hup.
    destruct (existsb (conflicts q (proposed q rec)) t).
    + exists added. split; [exact E|]. split; [simpl; lia|].
      intros k Hk. destruct (K k Hk) as [r [Hr Ek]]. exists r. split; [right|]; assumption.
    + exists (row_get (conflict_column q) (proposed q rec) :: added).
      split; [rewrite E, <- app_assoc; reflexivity|]. split; [simpl; lia|].
      intros k [<-|Hk].
      * exists rec. split; [left; reflexivity|]. apply proposed_get. exact Hin.
      * destruct (K k Hk) as [r [Hr Ek]]. exists r. split; [right|]; assumption.
Qed.

(** A load removes no row and no key: the stored keys stay in their
    places and the load adds, after them, at most one key per record,
    each the key of a record. *)
Theorem load_never_removes_rows q records db db' :
  well_formed q ->
  execute q records db = Ok db' ->
  exists t t' added,
    Dict.get (target q) db = Some t /\ Dict.get (target q) db' = Some t' /\
    keys q t' = keys q t ++ added /\
    (List.length t <= List.length t' <= List.length t + List.length records)%nat /\
    forall k, In k added -> exists rec, In rec records /\ k = key_of q rec.
Proof.
  intros Hq H. unfold execute in H.
  destruct (Dict.get (target q) db) as [t|] eqn:G; [|discriminate].
  apply bind_ok in H. destruct H as [t' [H1 H2]]. inversion H2; subst db'.
  destruct (load_keys Hq _ _ H1) as [added [E [L K]]].
  exists t, t', added. split; [reflexivity|].
  split; [apply dict_get_set_same|]. split; [exact E|]. split; [|exact K].
  assert (Len : List.length (keys q t') = (List.length (keys q t) + List.length added)%nat)
    by (rewrite E; apply length_app).
  unfold keys in Len. rewrite !length_map in Len. lia.
Qed.

Lemma load_never_removes_rows_witness :
  exists t t' added,
    Dict.get (target (fact_query (u "public"))) Samples.loaded_once = Some t /\
    Dict.get (target (fact_query (u "public"))) Samples.loaded_twice = Some t' /\
    keys (fact_query (u "public")) t' = keys (fact_query (u "public")) t ++ added /\
    (List.length t <= List.length t'
     <= List.length t + List.length (rows Samples.canonical_fact))%nat /\
    forall k, In k added ->
      exists rec, In rec (rows Samples.canonical_fact) /\
                  k = key_of (fact_query (u "public")) rec.
Proof.
  apply (@load_never_removes_rows (fact_query (u "public")) (rows Samples.canonical_fact)
           Samples.loaded_once Samples.loaded_twice).
  - apply fact_query_well_formed.
  - vm_compute. reflexivity.
Defined.

Lemma loaded_keys_present q : well_formed q -> forall records t t',
  for_each (execute_one q) records t = Ok t' ->
  forall rec, In rec records -> isna (key_of q rec) = false ->
  In (key_of q rec) (keys q t').
Proof.
  intros Hq. pose proof Hq as [Hin [Hup _]].
  induction records as [|r records IH]; intros t t' H rec Hrec Hn; [destruct Hrec|].
  cbn [for_each] in H. apply bind_ok in H. destruct H as [t1 [H1 H2]].
  destruct Hrec as [->|Hrec]; [|apply (IH _ _ H2 rec Hrec Hn)].
  apply execute_one_ok in H1. destruct H1 as [_ ->].
  destruct (load_keys Hq _ _ H2) as [added [E _]]. rewrite E.
  apply in_or_app. left. rewrite upsert_row_keys by exact Hup.
  assert (Ek : row_get (conflict_column q) (proposed q rec) = key_of q rec)
    by (apply proposed_get; exact Hin).
  destruct (existsb (conflicts q (proposed q rec)) t) eqn:X.
  - apply existsb_conflicts in X. destruct X as [_ X]. rewrite Ek in X. exact X.
  - apply in_or_app. right. left. exact Ek.
Qed.

Lemma reload_keys q : well_formed q -> forall records t t',
  (forall rec, In rec records ->
     isna (key_of q rec) = false /\ In (key_of q rec) (keys q t)) ->
  for_each (execute_one q) records t = Ok t' ->
  keys q t' = keys q t.
Proof.
  intros [Hin [Hup _]]. induction records as [|r records IH]; intros t t' Hk H;
    cbn [for_each] in H.
  - inversion H. reflexivity.
  - apply bind_ok in H. destruct H as [t1 [H1 H2]].
    apply execute_one_ok in H1. destruct H1 as [_ ->].
    assert (E1 : keys q (upsert_row q (proposed q r) t) = keys q t).
    { rewrite upsert_row_keys by exact Hup.
      destruct (Hk r (or_introl eq_refl)) as [N I].
      assert (X : existsb (conflicts q (proposed q r)) t = true).
      { apply existsb_conflicts. rewrite proposed_get by exact Hin. auto. }
      rewrite X. reflexivity. }
    rewrite <- E1. apply IH; [|exact H2].
    intros rec Hrec. rewrite E1. apply Hk. right. exact Hrec.
Qed.

Lemma load_again_returns q records : forall t t',
  for_each (execute_one q) records t = Ok t' ->
  forall t0, exists t0', for_each (execute_one q) records t0 = Ok t0'.
Proof.
  induction records as [|r records IH]; intros t t' H t0; cbn [for_each] in *; [eauto|].
  apply bind_ok in H. destruct H as [t1 [H1 H2]].
  apply execute_one_ok in H1. destruct H1 as [F _].
  unfold execute_one at 1. rewrite F. cbn [bind]. apply (@IH _ _ H2).
Qed.

(** Loading the same records again adds no row: when the keys of the
    records are not null, the second load returns and leaves the stored
    keys, hence the number of rows, as the first load left them. *)
Theorem second_load_adds_no_row q records db db1 :
  well_formed q ->
  Forall (fun rec => isna (key_of q rec) = false) records ->
  execute q records db = Ok db1 ->
  exists db2 t1 t2,
    execute q records db1 = Ok db2 /\
    Dict.get (target q) db1 = Some t1 /\ Dict.get (target q) db2 = Some t2 /\
    keys q t2 = keys q t1 /\ List.length t2 = List.length t1.
Proof.
  intros Hq Hn H. unfold execute in H.
  destruct (Dict.get (target q) db) as [t|] eqn:G; [|discriminate].
  apply bind_ok in H. destruct H as [t1 [H1 H2]]. inversion H2; subst db1.
  destruct (@load_again_returns q records t t1 H1 t1) as [t2 H3].
  assert (K : keys q t2 = keys q t1).
  { apply (reload_keys Hq records); [|exact H3].
    intros rec Hrec. rewrite Forall_forall in Hn. split; [apply Hn; exact Hrec|].
    apply (loaded_keys_present Hq _ _ H1 rec Hrec). apply Hn. exact Hrec. }
  exists (Dict.set (target q) t2 (Dict.set (target q) t1 db)), t1, t2.
  split; [|split; [apply dict_get_set_same | split; [apply dict_get_set_same|]]].
  - unfold execute. rewrite dict_get_set_same, H3. reflexivity.
  - split; [exact K|]. unfold keys in K.
    apply (f_equal (@List.length cell)) in K. rewrite !length_map in K. exact K.
Qed.

Lemma second_load_adds_no_row_witness :
  exists db2 t1 t2,
    execute (fact_query (u "public")) (rows Samples.canonical_fact) Samples.loaded_once
      = Ok db2 /\
    Dict.get (target (fact_query (u "public"))) Samples.loaded_once = Some t1 /\
    Dict.get (target (fact_query (u "public"))) db2 = Some t2 /\
    keys (fact_query (u "public")) t2 = keys (fact_query (u "public")) t1 /\
    List.length t2 = List.length t1.
Proof.
  apply (@second_load_adds_no_row (fact_query (u "public")) (rows Samples.canonical_fact)
           Samples.empty_store Samples.loaded_once).
  - apply fact_query_well_formed.
  - constructor; [vm_compute; reflexivity | constructor].
  - vm_compute. reflexivity.
Defined.

(** The row at place [i] of [t] is the first one with the key of [rec],
    and holds the values of [rec] in the update columns. *)
Definition holds (q : statement) (rec : row) (t : table) (i : nat) (r : row) : Prop :=
  nth_error t i = Some r /\
  key_of q r = key_of q rec /\
  (forall j o, (j < i)%nat -> nth_error t j = Some o -> key_of q o <> key_of q rec) /\
  forall c, In c (update_columns q) -> row_get c r = row_get c rec.

Lemma holds_cons q rec old t i r :
  key_of q old <> key_of q rec ->
  holds q rec t i r -> holds q rec (old :: t) (S i) r.
Proof.
  intros Hold [H1 [H2 [H3 H4]]]. split; [exact H1|]. split; [exact H2|].
  split; [|exact H4]. intros [|j] o Hj Ho.
  - cbn in Ho. inversion Ho; subst. exact Hold.
  - cbn in Ho. apply (H3 j o); [lia | exact Ho].
Qed.

Lemma holds_tail q rec old t i r :
  holds q rec (old :: t) (S i) r ->
  key_of q old <> key_of q rec /\ holds q rec t i r.
Proof.
  intros [H1 [H2 [H3 H4]]]. split.
  - apply (H3 0%nat old); [lia | reflexivity].
  - split; [exact H1|]. split; [exact H2|]. split; [|exact H4].
    intros j o Hj Ho. apply (H3 (S j) o); [lia | exact Ho].
Qed.

Lemma upsert_row_holds q rec : well_formed q ->
  isna (key_of q rec) = false ->
  forall t, exists i r, holds q rec (upsert_row q (proposed q rec) t) i r.
Proof.
  intros [Hin [Hup Hincl]] Hn.
  assert (Ek : key_of q (proposed q rec) = key_of q rec)
    by (apply proposed_get; exact Hin).
  induction t as [|old t IH]; cbn [upsert_row].
  - exists 0%nat, (proposed q rec). split; [reflexivity|]. split; [exact Ek|].
    split; [intros j o Hj; lia|].
    intros c Hc. apply proposed_get. apply Hincl. exact Hc.
  - destruct (conflicts q (proposed q rec) old) eqn:C.
    + apply conflicts_key in C. destruct C as [_ C].
      exists 0%nat, (do_update q (proposed q rec) old).
      split; [reflexivity|]. split.
      { unfold key_of. rewrite do_update_key by exact Hup.
        rewrite C. exact Ek. }
      split; [intros j o Hj; lia|].
      intros c Hc. rewrite do_update_get. apply mem_In in Hc. rewrite Hc.
      apply proposed_get. apply Hincl. apply mem_In. exact Hc.
    + destruct IH as [i [r H]]. exists (S i), r. apply holds_cons; [|exact H].
      intros E. assert (X : conflicts q (proposed q rec) old = true).
      { apply conflicts_key. fold (key_of q (proposed q rec)).
        rewrite Ek. split; [exact Hn | exact E]. }
      congruence.
Qed.

Lemma upsert_row_keeps q rec new : well_formed q ->
  key_of q new <> key_of q rec ->
  forall t i r, holds q rec t i r -> holds q rec (upsert_row q new t) i r.
Proof.
  intros [Hin [Hup Hincl]] Hne.
  induction t as [|old t IH]; intros i r H.
  - destruct H as [H _]. destruct i; discriminate H.
  - cbn [upsert_row]. destruct (conflicts q new old) eqn:C.
    + apply conflicts_key in C. destruct C as [_ C]. fold (key_of q old) in C.
      fold (key_of q new) in C.
      destruct i as [|i].
      * destruct H as [H1 [H2 _]]. cbn in H1. inversion H1; subst r.
        exfalso. apply Hne. congruence.
      * apply holds_tail in H. destruct H as [Hold H].
        apply holds_cons; [|exact H].
        unfold key_of. rewrite do_update_key by exact Hup. exact Hold.
    + destruct i as [|i].
      * destruct H as [H1 [H2 [_ H4]]]. split; [exact H1|]. split; [exact H2|].
        split; [intros j o Hj; lia | exact H4].
      * apply holds_tail in H. destruct H as [Hold H].
        apply holds_cons; [exact Hold|]. apply IH. exact H.
Qed.

Lemma load_keeps q rec : well_formed q -> forall post t t',
  Forall (fun r => key_of q r <> key_of q rec) post ->
  for_each (execute_one q) post t = Ok t' ->
  forall i r, holds q rec t i r -> holds q rec t' i r.
Proof.
  intros Hq. pose proof Hq as [Hin _].
  induction post as [|x post IH]; intros t t' Hp H i r Hh; cbn [for_each] in H.
  - inversion H; subst. exact Hh.
  - apply bind_ok in H. destruct H as [t1 [H1 H2]].
    apply execute_one_ok in H1. destruct H1 as [_ ->].
    inversion Hp as [|x' post' Hx Hpost]; subst.
    apply (IH _ _ Hpost H2). apply upsert_row_keeps; [exact Hq | | exact Hh].
    unfold key_of. rewrite proposed_get by exact Hin. exact Hx.
Qed.

(** After a load each key loaded is in the table with the values of
    the last record that carried it: the first stored row with the key
    of a record holds, in the update columns, the values of that record
    when no later record of the load has the same key. *)
Theorem last_record_wins q records db db' pre rec post :
  well_formed q ->
  execute q records db = Ok db' ->
  records = pre ++ rec :: post ->
  isna (key_of q rec) = false ->
  Forall (fun r => key_of q r <> key_of q rec) post ->
  exists t' i r,
    Dict.get (target q) db' = Some t' /\ nth_error t' i = Some r /\
    key_of q r = key_of q rec /\
    (forall j o, (j < i)%nat -> nth_error t' j = Some o ->
                 key_of q o <> key_of q rec) /\
    forall c, In c (update_columns q) -> row_get c r = row_get c rec.
Proof.
  intros Hq H -> Hn Hp. unfold execute in H.
  destruct (Dict.get (target q) db) as [t|] eqn:G; [|discriminate].
  apply bind_ok in H. destruct H as [t' [H1 H2]]. inversion H2; subst db'.
  rewrite for_each_app in H1. apply bind_ok in H1. destruct H1 as [t1 [_ H1]].
  cbn [for_each] in H1. apply bind_ok in H1. destruct H1 as [t2 [Hu H1]].
  apply execute_one_ok in Hu. destruct Hu as [_ ->].
  destruct (@upsert_row_holds q rec Hq Hn t1) as [i [r Hh]].
  pose proof (@load_keeps q rec Hq post _ _ Hp H1 i r Hh) as [K1 [K2 [K3 K4]]].
  exists t', i, r. split; [apply dict_get_set_same|]. auto.
Qed.

Lemma last_record_wins_witness :
  exists t' i r,
    Dict.get (target (fact_query (u "public"))) Samples.loaded_once = Some t' /\
    nth_error t' i = Some r /\
    key_of (fact_query (u "public")) r =
      key_of (fact_query (u "public")) (Samples.first_row Samples.canonical_fact) /\
    (forall j o, (j < i)%nat -> nth_error t' j = Some o ->
       key_of (fact_query (u "public")) o <>
       key_of (fact_query (u "public")) (Samples.first_row Samples.canonical_fact)) /\
    forall c, In c (update_columns (fact_query (u "public"))) ->
      row_get c r = row_get c (Samples.first_row Samples.canonical_fact).
Proof.
  apply (@last_record_wins (fact_query (u "public")) (rows Samples.canonical_fact)
           Samples.empty_store Samples.loaded_once []
           (Samples.first_row Samples.canonical_fact) []).
  - apply fact_query_well_formed.
  - vm_compute. reflexivity.
  - reflexivity.
  - vm_compute. reflexivity.
  - constructor.
Defined.

End LoaderOutput.

(** ** What the stages leave behind *)

Module PipelineOutput.
Import Text Frames TextFacts ResultFacts FrameFacts Etl EtlFacts.
Local Arguments mem : simpl never.
Local Open Scope pipeline_scope.

Lemma transform_dimensions_raw_facts dims : forall p,
  raw_facts (snd (transform_dimensions dims p)) = raw_facts p.
Proof.
  induction dims as [|[n df] rest IH]; intros p; cbn [transform_dimensions];
    [reflexivity|].
  destruct (mem n DIMENSION_NAMES); [|apply IH].
  unfold bindM, read_clock, lift, set_transformed_dimension.
  destruct (Transformer.Dimension.transform (clock p (ticks p)) df) as [out|e];
    cbn [snd raw_facts]; [|reflexivity].
  rewrite IH. reflexivity.
Qed.

(** A stage called on a pipeline that lacks what the stage before it
    leaves does not return: [transform] without extracted facts, and
    [validate] and [load] without transformed facts, raise. *)
Theorem stages_need_their_input :
  (forall p, raw_facts p = None -> is_ok (fst (transform p)) = false) /\
  (forall p, transformed_facts p = None -> is_ok (fst (validate p)) = false) /\
  (forall cfg p, transformed_facts p = None -> is_ok (fst (load cfg p)) = false).
Proof.
  split; [|split].
  - intros p H. unfold transform, bindM, log_stage, get. cbn [raw_dimensions fst snd].
    set (p0 := Pipeline _ _ _ _ _ _ _ _).
    pose proof (transform_dimensions_raw_facts (raw_dimensions p) p0) as R.
    destruct (transform_dimensions (raw_dimensions p) p0) as [[[]|e] p1];
      cbn [fst snd] in *; [|reflexivity].
    unfold p0 in R. cbn [raw_facts] in R. rewrite R, H. reflexivity.
  - intros p H. unfold validate, bindM, log_stage, get.
    cbn [transformed_facts fst snd]. rewrite H. reflexivity.
  - intros cfg p H. unfold load, bindM, log_stage, get, set_store, lift.
    cbn [fst snd transformed_dimensions store transformed_facts].
    destruct (Loader.load_dimensions (SCHEMA cfg) (transformed_dimensions p) [] (store p))
      as [[r|e] db1]; cbn [fst snd transformed_facts]; [|reflexivity].
    rewrite H. reflexivity.
Qed.

Lemma stages_need_their_input_witness :
  is_ok (fst (transform Samples.fresh_pipeline)) = false /\
  is_ok (fst (validate Samples.fresh_pipeline)) = false /\
  is_ok (fst (load (Samples.run_config "TM1") Samples.fresh_pipeline)) = false.
Proof.
  destruct stages_need_their_input as [H1 [H2 H3]].
  split; [apply H1; reflexivity|]. split; [apply H2; reflexivity|].
  apply H3. reflexivity.
Defined.

(** The two loads are two transactions: when the load of the facts
    raises after the dimensions were loaded, the rows of the dimensions
    stay written; and when the load of the dimensions raises, what it
    had written before stays written and the facts are not loaded. *)
Theorem load_is_not_one_transaction cfg p :
  (forall r db1 facts e,
     Loader.load_dimensions (SCHEMA cfg) (transformed_dimensions p) [] (store p)
       = (Ok r, db1) ->
     transformed_facts p = Some facts ->
     Loader.load_fact (SCHEMA cfg) facts db1 = Raise e ->
     fst (load cfg p) = Raise e /\ store (snd (load cfg p)) = db1) /\
  (forall e db1,
     Loader.load_dimensions (SCHEMA cfg) (transformed_dimensions p) [] (store p)
       = (Raise e, db1) ->
     fst (load cfg p) = Raise e /\ store (snd (load cfg p)) = db1).
Proof.
  split.
  - intros r db1 facts e Hd Hf He.
    unfold load, bindM, log_stage, get, set_store, lift, need_frame, ret.
    cbn [fst snd transformed_dimensions store transformed_facts].
    rewrite Hd. cbn [fst snd transformed_facts]. rewrite Hf, He. split; reflexivity.
  - intros e db1 Hd.
    unfold load, bindM, log_stage, get, set_store, lift.
    cbn [fst snd transformed_dimensions store transformed_facts].
    rewrite Hd. split; reflexivity.
Qed.

(** A pipeline whose transformed facts lack the columns of the fact
    table. *)
Definition half_loaded : pipeline :=
  Pipeline [] None Samples.six_dimensions (Some Samples.raw_dimension)
           Samples.empty_store (fun _ => Samples.now) O [].

Definition dimensions_loaded : Loader.database := Eval vm_compute in
    snd (Loader.load_dimensions (u "public") Samples.six_dimensions [] Samples.empty_store).

Lemma load_is_not_one_transaction_witness :
  exists e,
    fst (load (Samples.run_config "TM1") half_loaded) = Raise e /\
    store (snd (load (Samples.run_config "TM1") half_loaded)) = dimensions_loaded.
Proof.
  destruct (load_is_not_one_transaction (Samples.run_config "TM1") half_loaded) as [H _].
  eexists.
  apply (H (match fst (Loader.load_dimensions (u "public") Samples.six_dimensions []
                         Samples.empty_store) with
            | Ok d => d
            | Raise _ => []
            end)
           dimensions_loaded Samples.raw_dimension).
  - vm_compute. reflexivity.
  - reflexivity.
  - vm_compute. reflexivity.
Defined.

Lemma transform_dimensions_unknown name dims : forall p,
  mem name DIMENSION_NAMES = false ->
  Dict.get name (transformed_dimensions p) = None ->
  Dict.get name (transformed_dimensions (snd (transform_dimensions dims p))) = None.
Proof.
  induction dims as [|[n df] rest IH]; intros p Hn Hp; cbn [transform_dimensions].
  - exact Hp.
  - destruct (mem n DIMENSION_NAMES) eqn:M; [|apply IH; assumption].
    unfold bindM, read_clock, lift, set_transformed_dimension.
    destruct (Transformer.Dimension.transform (clock p (ticks p)) df) as [out|e];
      cbn [snd transformed_dimensions]; [|exact Hp].
    apply IH; [exact Hn|]. cbn [transformed_dimensions].
    rewrite MissingDimensionFacts.dict_get_set_other; [exact Hp|].
    intros ->. congruence.
Qed.

(** A section of the metadata that is none of the six dimensions is
    not transformed: under its name the transformed dimensions hold
    nothing after the stage, whatever was parsed under it. *)
Theorem unknown_sections_are_not_transformed name p :
  ~ In name DIMENSION_NAMES ->
  Dict.get name (transformed_dimensions p) = None ->
  Dict.get name (transformed_dimensions (snd (transform p))) = None.
Proof.
  intros Hn Ht. apply mem_false in Hn.
  unfold transform, bindM, log_stage, get. cbn [raw_dimensions fst snd].
  set (p0 := Pipeline _ _ _ _ _ _ _ _).
  pose proof (@transform_dimensions_unknown name (raw_dimensions p) p0 Hn Ht) as H.
  destruct (transform_dimensions (raw_dimensions p) p0) as [[[]|e] p1];
    cbn [snd] in *; [|exact H].
  destruct (raw_facts p1) as [facts|]; cbn [need_frame ret raise snd]; [|exact H].
  unfold read_clock, lift, set_transformed_facts.
  destruct (Transformer.Fact.transform (clock p1 (ticks p1)) facts) as [out|e];
    cbn [snd transformed_dimensions]; exact H.
Qed.

(** A pipeline that has extracted a section outside the model. *)
Definition with_unknown_section : pipeline :=
  Pipeline [(u "Topics", Samples.raw_dimension); (u "Periods", Samples.raw_dimension)]
           (Some Samples.raw_fact) [] None
           Samples.empty_store (fun _ => Samples.now) O [].

Lemma unknown_sections_are_not_transformed_witness :
  Dict.get (u "Topics")
    (transformed_dimensions (snd (transform with_unknown_section))) = None /\
  Dict.get (u "Periods")
    (transformed_dimensions (snd (transform with_unknown_section))) <> None.
Proof.
  split.
  - apply unknown_sections_are_not_transformed; [|reflexivity].
    vm_compute. intros H. repeat (destruct H as [H|H]; [discriminate H|]). exact H.
  - vm_compute. discriminate.
Defined.

Lemma validate_ok p p' :
  validate p = (Ok tt, p') ->
  transformed_dimensions p' = transformed_dimensions p /\
  transformed_facts p' = transformed_facts p /\
  exists facts, transformed_facts p = Some facts /\
    Validator.validate_all (transformed_dimensions p) facts = Ok true.
Proof.
  unfold validate, bindM, log_stage, get, need_frame, lift, ret, raise.
  cbn [fst snd transformed_dimensions transformed_facts].
  destruct (transformed_facts p) as [facts|] eqn:F; [|discriminate].
  destruct (Validator.validate_all (transformed_dimensions p) facts) as [b|e] eqn:V;
    [|discriminate].
  intros H. inversion H; subst p'. cbn [transformed_dimensions transformed_facts].
  split; [reflexivity|]. split; [reflexivity|]. exists facts. split; [reflexivity|].
  destruct (ValidationRules.validate_all_outcomes (transformed_dimensions p) facts)
    as [K|[e K]]; congruence.
Qed.

Lemma load_ok cfg p res p' :
  load cfg p = (Ok res, p') ->
  exists facts, transformed_facts p = Some facts /\
                facts_loaded res = List.length (rows facts).
Proof.
  unfold load, bindM, log_stage, get, set_store, lift, need_frame, ret, raise.
  cbn [fst snd transformed_dimensions store transformed_facts].
  destruct (Loader.load_dimensions (SCHEMA cfg) (transformed_dimensions p) [] (store p))
    as [[r|e] db1]; cbn [fst snd transformed_facts]; [|discriminate].
  destruct (transformed_facts p) as [facts|]; [|discriminate].
  unfold Loader.load_fact.
  destruct (Loader.execute (Loader.fact_query (SCHEMA cfg)) (rows facts) db1) as [db2|e];
    cbn [bind fst snd]; [|discriminate].
  intros H. inversion H. exists facts. split; reflexivity.
Qed.

Lemma transform_ok p p' :
  transform p = (Ok tt, p') ->
  exists facts now out,
    raw_facts p = Some facts /\
    Transformer.Fact.transform now facts = Ok out /\
    transformed_facts p' = Some out.
Proof.
  unfold transform, bindM, log_stage, get. cbn [raw_dimensions fst snd].
  set (p0 := Pipeline _ _ _ _ _ _ _ _).
  pose proof (transform_dimensions_raw_facts (raw_dimensions p) p0) as R.
  destruct (transform_dimensions (raw_dimensions p) p0) as [[[]|e] p1];
    cbn [fst snd] in *; [|discriminate].
  unfold p0 in R. cbn [raw_facts] in R. rewrite R.
  destruct (raw_facts p) as [facts|]; cbn [need_frame ret raise]; [|discriminate].
  unfold read_clock, lift, set_transformed_facts.
  destruct (Transformer.Fact.transform (clock p1 (ticks p1)) facts) as [out|e] eqn:T;
    [|discriminate].
  intros H. inversion H; subst p'. cbn [transformed_facts].
  exists facts, (clock p1 (ticks p1)), out. auto.
Qed.

Section WithReader.

Variable read_csv : str -> forall (sep : str) (skiprows : nat) (quotechar : char), result frame.

Lemma extract_ok cfg p p' :
  extract read_csv cfg p = (Ok tt, p') ->
  exists parsed facts,
    Parser.parse read_csv (METADATA_PATH cfg) (u ";") = Ok parsed /\
    datasource_read read_csv cfg = Ok facts /\
    raw_dimensions p' = Parser.dataframes parsed /\ raw_facts p' = Some facts.
Proof.
  unfold extract, bindM, log_stage, lift, set_raw. cbn [fst snd].
  destruct (Parser.parse read_csv (METADATA_PATH cfg) (u ";")) as [parsed|e];
    [|discriminate].
  destruct (datasource_read read_csv cfg) as [facts|e]; [|discriminate].
  intros H. inversion H; subst p'. cbn [raw_dimensions raw_facts].
  exists parsed, facts. auto.
Qed.

(** A run that returns has read the data file, has transformed it into
    a table that the validation accepted together with the transformed
    dimensions, and reports as [facts_loaded] the number of rows of the
    data file. *)
Theorem run_reports_the_rows_read cfg p res :
  fst (run read_csv cfg p) = Ok res ->
  exists facts now out dims,
    datasource_read read_csv cfg = Ok facts /\
    Transformer.Fact.transform now facts = Ok out /\
    Validator.validate_all dims out = Ok true /\
    facts_loaded res = List.length (rows facts).
Proof.
  unfold run, bindM.
  destruct (extract read_csv cfg p) as [[[]|e1] p1] eqn:E1; [|discriminate].
  destruct (transform p1) as [[[]|e2] p2] eqn:E2; [|discriminate].
  destruct (validate p2) as [[[]|e3] p3] eqn:E3; [|discriminate].
  destruct (load cfg p3) as [[r|e4] p4] eqn:E4; cbn [fst]; [|discriminate].
  intros H. inversion H; subst r.
  apply extract_ok in E1. destruct E1 as [parsed [facts [_ [Hd [_ Hraw]]]]].
  apply transform_ok in E2. destruct E2 as [facts' [now [out [Hraw' [Ht Hout]]]]].
  rewrite Hraw in Hraw'. inversion Hraw'; subst facts'.
  apply validate_ok in E3. destruct E3 as [_ [Hkeep [out' [Hout' Hv]]]].
  rewrite Hout in Hout'. inversion Hout'; subst out'.
  apply load_ok in E4. destruct E4 as [out'' [Hout'' Hn]].
  rewrite Hkeep, Hout in Hout''. inversion Hout''; subst out''.
  exists facts, now, out, (transformed_dimensions p2).
  split; [exact Hd|]. split; [exact Ht|]. split; [exact Hv|].
  rewrite Hn.
  apply FactFacts.transform_view in Ht. destruct Ht as [_ [_ [nf [_ V]]]].
  apply FactOutput.Forall2_same_length in V. rewrite <- V.
  unfold Transformer.Fact.rename_columns, rename. cbn [rows]. apply length_map.
Qed.

End WithReader.

(** What the run on the sample files returns. *)
Definition sample_result : ETLResult := Eval vm_compute in
    match fst (run Csv.read_csv (Samples.run_config "TM1") Samples.fresh_pipeline) with
    | Ok r => r
    | Raise _ => MkResult [] O
    end.

Lemma run_reports_the_rows_read_witness :
  exists facts now out dims,
    datasource_read Csv.read_csv (Samples.run_config "TM1") = Ok facts /\
    Transformer.Fact.transform now facts = Ok out /\
    Validator.validate_all dims out = Ok true /\
    facts_loaded sample_result = List.length (rows facts).
Proof.
  apply (@run_reports_the_rows_read Csv.read_csv (Samples.run_config "TM1")
           Samples.fresh_pipeline sample_result).
  vm_compute. reflexivity.
Defined.

End PipelineOutput.

(** ** Whole numbers in a metric column *)

Module MetricTypes.
Import Text Frames TextFacts ResultFacts FrameFacts Transformer Transformer.Fact.
Import FactFacts.
Local Arguments mem : simpl never.
Local Open Scope result_scope.


















End MetricTypes.

(** ** What the loads report *)

Module LoadReports.
Import Text Frames TextFacts ResultFacts FrameFacts Loader LoaderFacts LoaderOutput.
Local Arguments mem : simpl never.
Local Open Scope result_scope.

(** A statement built without update columns updates every inserted
    column but the conflict column, so it is well formed as soon as the
    conflict column is inserted. *)
Theorem default_statement_is_well_formed SCHEMA table_name cols conflict :
  In conflict cols ->
  well_formed (_build_upsert_query SCHEMA table_name cols conflict None) /\
  forall c, In c (update_columns (_build_upsert_query SCHEMA table_name cols conflict None))
            <-> In c cols /\ c <> conflict.
Proof.
  intros Hin.
  assert (U : forall c,
            In c (update_columns (_build_upsert_query SCHEMA table_name cols conflict None))
            <-> In c cols /\ c <> conflict).
  { intros c. unfold _build_upsert_query. cbn [update_columns].
    rewrite filter_In, negb_true_iff. split; intros [H1 H2]; split; try exact H1.
    - apply str_eqb_neq. exact H2.
    - apply str_eqb_neq. exact H2. }
  split; [|exact U]. split; [exact Hin|]. split.
  - intros H. apply U in H. destruct H as [_ H]. apply H. reflexivity.
  - intros c H. apply U in H. exact (proj1 H).
Qed.

Lemma default_statement_is_well_formed_witness :
  well_formed (_build_upsert_query (u "public") (u "dim_periods") DIMENSION_COLUMNS
                 (u "key") None).
Proof.
  apply (@default_statement_is_well_formed (u "public") (u "dim_periods")
           DIMENSION_COLUMNS (u "key")).
  left. reflexivity.
Defined.

Lemma lookup_In {V} k (v : V) l : lookup k l = Some v -> In (k, v) l.
Proof.
  induction l as [|[k' v'] l IH]; cbn [lookup]; [discriminate|].
  destruct (str_eqb k' k) eqn:E.
  - apply str_eqb_eq in E. intros H. inversion H; subst. left. reflexivity.
  - intros H. right. apply IH. exact H.
Qed.

Lemma dict_get_set_cases {V} k k' (v : V) d :
  Dict.get k' (Dict.set k v d) = if str_eqb k k' then Some v else Dict.get k' d.
Proof.
  destruct (str_eqb k k') eqn:E.
  - apply str_eqb_eq in E. subst. apply dict_get_set_same.
  - apply MissingDimensionFacts.dict_get_set_other. apply str_eqb_neq. exact E.
Qed.

Lemma load_dimensions_counts SCHEMA : forall dims results db r db',
  load_dimensions SCHEMA dims results db = (Ok r, db') ->
  forall tbl n, Dict.get tbl r = Some n ->
  Dict.get tbl results = Some n \/
  exists src df, In (src, df) dims /\ In (src, tbl) TABLE_MAPPING /\
                 n = List.length (rows df).
Proof.
  induction dims as [|[src df] rest IH]; intros results db r db' H tbl n G;
    cbn [load_dimensions] in H.
  - inversion H; subst. left. exact G.
  - destruct (lookup src TABLE_MAPPING) as [t|] eqn:L.
    + unfold _upsert_table in H.
      destruct (execute (dimension_query SCHEMA t) (rows df) db) as [db1|e];
        cbn [bind] in H; [|discriminate].
      destruct (@IH _ _ _ _ H tbl n G) as [K|[s [d [K1 [K2 K3]]]]].
      * rewrite dict_get_set_cases in K. destruct (str_eqb t tbl) eqn:E.
        -- apply str_eqb_eq in E. subst t. inversion K; subst n.
           right. exists src, df. split; [left; reflexivity|].
           split; [apply lookup_In; exact L | reflexivity].
        -- left. exact K.
      * right. exists s, d. split; [right; exact K1 | auto].
    + destruct (@IH _ _ _ _ H tbl n G) as [K|[s [d [K1 [K2 K3]]]]].
      * left. exact K.
      * right. exists s, d. split; [right; exact K1 | auto].
Qed.

(** What the load of the dimensions reports: every table it names is
    the table of a source among the dimensions given, and the number
    reported for it is the number of rows of that source's frame. *)
Theorem dimension_load_reports_row_counts SCHEMA dims db r db' :
  load_dimensions SCHEMA dims [] db = (Ok r, db') ->
  forall tbl n, Dict.get tbl r = Some n ->
  exists src df, In (src, df) dims /\ In (src, tbl) TABLE_MAPPING /\
                 n = List.length (rows df).
Proof.
  intros H tbl n G.
  destruct (@load_dimensions_counts SCHEMA dims [] db r db' H tbl n G) as [K|K];
    [discriminate K | exact K].
Qed.

Definition sample_counts : Dict.dict nat := Eval vm_compute in
    match fst (load_dimensions (u "public") Samples.six_dimensions [] Samples.empty_store)
    with Ok r => r | Raise _ => [] end.

Lemma dimension_load_reports_row_counts_witness :
  exists src df, In (src, df) Samples.six_dimensions /\
                 In (src, u "dim_periods") TABLE_MAPPING /\
                 2%nat = List.length (rows df).
Proof.
  refine (@dimension_load_reports_row_counts (u "public") Samples.six_dimensions
            Samples.empty_store sample_counts PipelineOutput.dimensions_loaded _
            (u "dim_periods") 2%nat _).
  - vm_compute. reflexivity.
  - vm_compute. reflexivity.
Defined.

End LoadReports.

Module RunStores.
Import Text Frames TextFacts ResultFacts FrameFacts Etl EtlFacts PipelineOutput.
Local Arguments mem : simpl never.
Local Open Scope pipeline_scope.

Lemma load_ok_store cfg p res p' :
  load cfg p = (Ok res, p') ->
  exists facts db1,
    transformed_facts p = Some facts /\ transformed_facts p' = Some facts /\
    Loader.load_fact (SCHEMA cfg) facts db1 = Ok (facts_loaded res, store p').
Proof.
  unfold load, bindM, log_stage, get, set_store, lift, need_frame, ret, raise.
  cbn [fst snd transformed_dimensions store transformed_facts].
  destruct (Loader.load_dimensions (SCHEMA cfg) (transformed_dimensions p) [] (store p))
    as [[r|e] db1]; cbn [fst snd transformed_facts]; [|discriminate].
  destruct (transformed_facts p) as [facts|]; [|discriminate].
  destruct (Loader.load_fact (SCHEMA cfg) facts db1) as [[n db2]|e] eqn:L;
    cbn [fst snd]; [|discriminate].
  intros H. inversion H; subst. cbn [transformed_facts store facts_loaded].
  exists facts, db1. auto.
Qed.

Section WithReader.

Variable read_csv : str -> forall (sep : str) (skiprows : nat) (quotechar : char), result frame.

(** After a run that returns, every row of the transformed facts is in
    the fact table of the store: the table holds a row with its
    [fact_id]; and the number of facts reported is the number of those
    rows. *)
Theorem run_stores_every_fact cfg p res :
  fst (run read_csv cfg p) = Ok res ->
  exists out t,
    transformed_facts (snd (run read_csv cfg p)) = Some out /\
    Dict.get (Loader.target (Loader.fact_query (SCHEMA cfg)))
             (store (snd (run read_csv cfg p))) = Some t /\
    facts_loaded res = List.length (rows out) /\
    forall r, In r (rows out) ->
      In (row_get (u "fact_id") r)
         (LoaderOutput.keys (Loader.fact_query (SCHEMA cfg)) t).
Proof.
  unfold run, bindM.
  destruct (extract read_csv cfg p) as [[[]|e1] p1] eqn:E1; [|discriminate].
  destruct (transform p1) as [[[]|e2] p2] eqn:E2; [|discriminate].
  destruct (validate p2) as [[[]|e3] p3] eqn:E3; [|discriminate].
  destruct (load cfg p3) as [[r|e4] p4] eqn:E4; cbn [fst snd]; [|discriminate].
  intros H. inversion H; subst r.
  apply validate_ok in E3. destruct E3 as [Hd [Hkeep [out [Hout Hv]]]].
  apply load_ok_store in E4. destruct E4 as [out' [db1 [Ho [Ho' Hl]]]].
  rewrite Hkeep, Hout in Ho. inversion Ho; subst out'.
  exists out. unfold Loader.load_fact in Hl.
  destruct (Loader.execute (Loader.fact_query (SCHEMA cfg)) (rows out) db1)
    as [db2|e] eqn:X; cbn [bind] in Hl; [|discriminate].
  injection Hl as Hn Hs. unfold Loader.execute in X.
  destruct (Dict.get (Loader.target (Loader.fact_query (SCHEMA cfg))) db1) as [t|];
    [|discriminate].
  apply bind_ok in X. destruct X as [t' [X1 X2]]. injection X2 as X2.
  exists t'. split; [exact Ho'|].
  split; [rewrite <- Hs, <- X2; apply LoaderFacts.dict_get_set_same|].
  split; [symmetry; exact Hn|].
  intros r Hr.
  apply (@LoaderOutput.loaded_keys_present (Loader.fact_query (SCHEMA cfg))
           (LoaderOutput.fact_query_well_formed (SCHEMA cfg)) (rows out) t t' X1 r Hr).
  apply ValidationRules.validate_all_iff in Hv. destruct Hv as [_ [_ [[_ Ht] _]]].
  rewrite Forall_forall in Ht.
  destruct (Ht (row_get (u "fact_id") r)) as [s0 E].
  { unfold ValidatorFacts.column. apply in_map. exact Hr. }
  unfold LoaderOutput.key_of. cbn [Loader.conflict_column Loader.fact_query
                                     Loader._build_upsert_query].
  rewrite E. reflexivity.
Qed.

End WithReader.

Lemma run_stores_every_fact_witness :
  exists out t,
    transformed_facts (snd (run Csv.read_csv (Samples.run_config "TM1")
                              Samples.fresh_pipeline)) = Some out /\
    Dict.get (Loader.target (Loader.fact_query (u "public")))
             (store (snd (run Csv.read_csv (Samples.run_config "TM1")
                            Samples.fresh_pipeline))) = Some t /\
    facts_loaded sample_result = List.length (rows out) /\
    forall r, In r (rows out) ->
      In (row_get (u "fact_id") r)
         (LoaderOutput.keys (Loader.fact_query (u "public")) t).
Proof.
  apply (@run_stores_every_fact Csv.read_csv (Samples.run_config "TM1")
           Samples.fresh_pipeline sample_result).
  vm_compute. reflexivity.
Defined.

End RunStores.

(** ** The header search is complete *)

Module HeaderSearch.
Import Text Frames TextFacts ResultFacts FrameFacts Parser RegexFacts.
Local Arguments mem : simpl never.

(** ** Lists cut at a quote *)

Lemma app_same_length {A} (a b c d : list A) :
  a ++ b = c ++ d -> List.length a = List.length c -> a = c /\ b = d.
Proof.
  revert c. induction a as [|x a IH]; intros [|y c] H L; simpl in *; try discriminate.
  - auto.
  - inversion H; subst. destruct (IH c H2) as [-> ->]; [lia | auto].
Qed.

Lemma cut_at_marker (q : char) a b d e :
  a ++ q :: b = d ++ q :: e -> ~ In q a ->
  (a = d /\ b = e) \/ exists m, d = a ++ q :: m /\ b = m ++ q :: e.
Proof.
  intros H Ha. apply app_eq_app in H. destruct H as [l [[E1 E2]|[E1 E2]]].
  - destruct l as [|x l].
    + rewrite app_nil_r in E1. simpl in E2. inversion E2. left. auto.
    + exfalso. apply Ha. rewrite E1. simpl in E2. inversion E2; subst.
      apply in_or_app. right. left. reflexivity.
  - destruct l as [|x l].
    + rewrite app_nil_r in E1. simpl in E2. inversion E2. left. auto.
    + simpl in E2. inversion E2; subst. right. exists l. auto.
Qed.

Lemma spaces_no_quote ws : forallb isspace ws = true -> ~ In QUOTE ws.
Proof.
  intros H Hin. rewrite forallb_forall in H. specialize (H _ Hin).
  vm_compute in H. discriminate H.
Qed.


Lemma app_split_le {A} (a x b y : list A) :
  a ++ x = b ++ y -> (List.length a <= List.length b)%nat ->
  exists m, b = a ++ m /\ x = m ++ y.
Proof.
  revert b. induction a as [|c a IH]; intros b H L.
  - exists b. auto.
  - destruct b as [|d b]; [simpl in L; lia|].
    simpl in H. inversion H; subst d.
    destruct (IH b H2) as [m [-> ->]]; [simpl in L; lia|].
    exists m. auto.
Qed.

Lemma app_split_mid {A} (a x b l y : list A) :
  a ++ x = b ++ l ++ y ->
  (List.length b <= List.length a <= List.length b + List.length l)%nat ->
  exists l1 l2, l = l1 ++ l2 /\ a = b ++ l1 /\ x = l2 ++ y.
Proof.
  intros H [L1 L2]. symmetry in H.
  destruct (@app_split_le _ _ _ _ _ H L1) as [m [Ea Ex]]. subst a.
  rewrite length_app in L2.
  destruct (@app_split_le _ m x l y) as [m2 [El Ey]]; [auto | lia |].
  exists m, m2. auto.
Qed.

(** ** When the pattern matches *)

Lemma or_else_first {A} (x : option A) y : x <> None -> or_else x y <> None.
Proof. destruct x; [discriminate | congruence]. Qed.

Lemma or_else_second {A} (x : option A) y : y tt <> None -> or_else x y <> None.
Proof. destruct x; [discriminate | auto]. Qed.

(** A greedy repetition followed by [p] matches as soon as [p] matches
    after some admissible number of characters of the class. *)
Lemma run_many_some cls least p st taken rest :
  after st = taken ++ rest -> forallb cls taken = true ->
  (least <= List.length taken)%nat ->
  run p (with_cursor st (rev taken ++ before st) rest) <> None ->
  run (Many cls least :: p) st <> None.
Proof.
  intros Ea Ht Hl Hr. cbn [run]. rewrite Ea.
  assert (G : forall tk bef n,
    forallb cls tk = true -> (least <= n + List.length tk)%nat ->
    run p (with_cursor st (rev tk ++ bef) rest) <> None ->
    (fix many (bef aft : str) (n : nat) {struct aft} : option mstate :=
       let stop := fun _ : unit =>
         if (least <=? n)%nat then run p (with_cursor st bef aft) else None in
       match aft with
       | c :: t => if cls c then or_else (many (c :: bef) t (S n)) stop else stop tt
       | [] => stop tt
       end) bef (tk ++ rest) n <> None).
  { induction tk as [|c tk IH]; intros bef n Hc Hn Hp.
    - cbn [rev app List.length] in *.
      assert (L : (least <=? n)%nat = true) by (apply Nat.leb_le; lia).
      destruct rest as [|c t].
      + rewrite L. exact Hp.
      + destruct (cls c).
        * apply or_else_second. rewrite L. exact Hp.
        * rewrite L. exact Hp.
    - cbn [forallb] in Hc. apply andb_true_iff in Hc. destruct Hc as [Hc Hk].
      cbn [app]. rewrite Hc. apply or_else_first. apply IH.
      + exact Hk.
      + cbn [List.length] in Hn. lia.
      + cbn [rev] in Hp. rewrite <- app_assoc in Hp. exact Hp. }
  apply G; auto.
Qed.

Lemma line_start_at_bol bef a g t :
  line_start (rev bef) -> at_bol (MState bef a g t) = true.
Proof.
  unfold line_start, at_bol. cbn [before]. destruct bef as [|c b]; [reflexivity|].
  cbn [rev]. intros [H|[p H]].
  - destruct (rev b); discriminate.
  - apply app_inj_tail in H. destruct H as [_ ->]. reflexivity.
Qed.

Lemma line_end_at_eol b post g t :
  line_end post -> at_eol (MState b post g t) = true.
Proof.
  unfold line_end, at_eol. cbn [after]. intros [->|[p ->]]; reflexivity.
Qed.

Lemma all_not_quote name :
  ~ In QUOTE name -> forallb (fun c => negb (N.eqb c QUOTE)) name = true.
Proof.
  intros H. apply forallb_forall. intros c Hc.
  destruct (N.eqb_spec c QUOTE) as [->|]; [contradiction | reflexivity].
Qed.

Lemma run_one_eq cls p b c a g t :
  run (One cls :: p) (MState b (c :: a) g t) =
  if cls c then run p (MState (c :: b) a g t) else None.
Proof. reflexivity. Qed.

Lemma run_opt_skip cls p b c a g t :
  cls c = false ->
  run (Opt cls :: p) (MState b (c :: a) g t) = run p (MState b (c :: a) g t).
Proof. intros H. cbn [run after]. rewrite H. reflexivity. Qed.

Lemma run_opt_take cls p b c a g t :
  cls c = true -> run p (MState (c :: b) a g t) <> None ->
  run (Opt cls :: p) (MState b (c :: a) g t) <> None.
Proof.
  intros H R. cbn [run after]. rewrite H. apply or_else_first. exact R.
Qed.

Lemma run_bol_eq p st : run (Bol :: p) st = if at_bol st then run p st else None.
Proof. reflexivity. Qed.

Lemma run_eol_eq p st : run (Eol :: p) st = if at_eol st then run p st else None.
Proof. reflexivity. Qed.

Lemma quoted_name_matches b g t name ws2 post :
  name <> [] -> ~ In QUOTE name -> forallb isspace ws2 = true -> line_end post ->
  run (One (N.eqb QUOTE)
       :: GroupOpen :: Many (fun c => negb (N.eqb c QUOTE)) 1 :: GroupClose
       :: One (N.eqb QUOTE) :: Many isspace 0 :: [Eol])
      (MState b ([QUOTE] ++ name ++ [QUOTE] ++ ws2 ++ post) g t) <> None.
Proof.
  intros Hn Hq Hw He.
  cbn [app]. rewrite run_one_eq, N.eqb_refl, run_open.
  apply run_many_some with (taken := name) (rest := QUOTE :: ws2 ++ post).
  - reflexivity.
  - apply all_not_quote. exact Hq.
  - destruct name; [congruence | simpl; lia].
  - rewrite run_close. unfold with_cursor. cbn [after before gstart gtext].
    rewrite run_one_eq, N.eqb_refl.
    apply run_many_some with (taken := ws2) (rest := post).
    + reflexivity.
    + exact Hw.
    + lia.
    + rewrite run_eol_eq. unfold with_cursor.
      rewrite line_end_at_eol by exact He. discriminate.
Qed.

(** The pattern matches where a header stands at the start of a line. *)
Lemma header_here bef name piece post :
  line_start (rev bef) -> header_text name piece -> line_end post ->
  run header_pattern (MState bef (piece ++ post) 0 []) <> None.
Proof.
  intros Hs [ws [bom [ws2 [Ep [Hws [Hb [Hn [Hq Hw2]]]]]]]] He. subst piece.
  unfold header_pattern. rewrite run_bol_eq, line_start_at_bol by exact Hs.
  apply run_many_some
    with (taken := ws) (rest := bom ++ [QUOTE] ++ name ++ [QUOTE] ++ ws2 ++ post).
  - cbn [after]. rewrite <- !app_assoc. reflexivity.
  - exact Hws.
  - lia.
  - unfold with_cursor. cbn [after before gstart gtext].
    destruct Hb as [->| ->].
    + cbn [app]. rewrite run_opt_skip by reflexivity.
      apply (@quoted_name_matches (rev ws ++ bef) 0 [] name ws2 post Hn Hq Hw2 He).
    + cbn [app]. apply run_opt_take; [reflexivity|].
      apply (@quoted_name_matches (BOM :: rev ws ++ bef) 0 [] name ws2 post Hn Hq Hw2 He).
Qed.

(** ** Matches before a header *)

Lemma prefix_without_marker (q : char) a x d e :
  a ++ x = d ++ q :: e -> ~ In q a -> (List.length a <= List.length d)%nat.
Proof.
  revert d. induction a as [|c a IH]; intros d H Ha; [simpl; lia|].
  destruct d as [|c' d].
  - simpl in H. inversion H; subst. exfalso. apply Ha. left. reflexivity.
  - simpl in H. inversion H; subst c'. simpl. apply le_n_S.
    apply (IH d H2). intros Hin. apply Ha. right. exact Hin.
Qed.

Lemma lead_no_quote ws bom :
  forallb isspace ws = true -> (bom = [] \/ bom = [BOM]) -> ~ In QUOTE (ws ++ bom).
Proof.
  intros Hw Hb Hin. apply in_app_or in Hin. destruct Hin as [Hin|Hin].
  - exact (spaces_no_quote _ Hw Hin).
  - destruct Hb as [->| ->]; [contradiction|].
    destruct Hin as [Hin|[]]. discriminate Hin.
Qed.

(** No line ends between a closing quote and the end of a name that
    follows it on the same line. *)
Lemma no_line_end_in_name ws2' rest' name tail :
  ws2' ++ rest' = name ++ QUOTE :: tail ->
  forallb isspace ws2' = true -> line_end rest' -> ~ In NL name -> False.
Proof.
  intros E Hw He Hn. destruct He as [->|[r ->]].
  - rewrite app_nil_r in E. apply (spaces_no_quote _ Hw). rewrite E.
    apply in_or_app. right. left. reflexivity.
  - symmetry in E. apply app_eq_app in E. destruct E as [l [[E1 E2]|[E1 E2]]].
    + destruct l as [|x l]; [discriminate E2|].
      simpl in E2. inversion E2; subst. apply Hn.
      apply in_or_app. right. left. reflexivity.
    + destruct l as [|x l]; [discriminate E2|].
      simpl in E2. inversion E2; subst. apply (spaces_no_quote _ Hw).
      apply in_or_app. right. left. reflexivity.
Qed.

Lemma no_line_end_in_lead l1 l2 tail :
  line_end (l2 ++ QUOTE :: tail) -> ~ In NL (l1 ++ l2) -> False.
Proof.
  intros [H|[p H]] Hn.
  - destruct l2; discriminate H.
  - destruct l2 as [|x l2]; [discriminate H|].
    simpl in H. inversion H; subst. apply Hn. apply in_or_app. right. left. reflexivity.
Qed.

(** A match found at or before the line of a header either captures the
    name of the header or ends before that line. *)
Lemma match_before_header pre name piece post bef aft st' :
  header_text name piece -> ~ In NL piece ->
  rev bef ++ aft = pre ++ piece ++ post ->
  (List.length bef <= List.length pre)%nat ->
  run header_pattern (MState bef aft 0 []) = Some st' ->
  (List.length bef < pos st')%nat /\
  (gtext st' = name \/ (pos st' <= List.length pre)%nat).
Proof.
  intros [ws [bom [ws2 [Ep [Hws [Hb [Hn [Hq Hw2]]]]]]]] Hnl E L R.
  apply header_match in R.
  destruct R as [piece' [Ea [[ws' [bom' [ws2' [Ep' [Hws' [Hb' [Hn' [Hq' Hw2']]]]]]]]
                         [_ [He' Hpos]]]]].
  assert (Lp : (2 <= List.length piece')%nat).
  { rewrite Ep'. repeat (rewrite length_app; cbn [List.length]). lia. }
  split; [lia|].
  destruct (@app_split_le _ (rev bef) aft pre (piece ++ post)) as [pre2 [Epre Eaft]];
    [exact E | rewrite length_rev; exact L |].
  set (name' := gtext st') in *.
  assert (Hl : ~ In QUOTE (ws ++ bom)) by (apply lead_no_quote; assumption).
  assert (Hl' : ~ In QUOTE (ws' ++ bom')) by (apply lead_no_quote; assumption).
  assert (Hnl_lead : ~ In NL (ws ++ bom)).
  { intros Hin. apply Hnl. rewrite Ep. apply in_app_or in Hin.
    destruct Hin as [Hin|Hin]; apply in_or_app; [left; exact Hin|].
    right. apply in_or_app. left. exact Hin. }
  assert (Hnl_name : ~ In NL name).
  { intros Hin. apply Hnl. rewrite Ep.
    apply in_or_app. right. apply in_or_app. right. apply in_or_app. right.
    apply in_or_app. left. exact Hin. }
  assert (Eq : (ws' ++ bom') ++ QUOTE :: (name' ++ QUOTE :: (ws2' ++ after st')) =
               (pre2 ++ ws ++ bom) ++ QUOTE :: (name ++ QUOTE :: (ws2 ++ post))).
  { transitivity aft.
    - rewrite Ea, Ep'. cbn [app]. rewrite <- !app_assoc. cbn [app].
      rewrite <- !app_assoc. reflexivity.
    - rewrite Eaft, Ep. cbn [app]. rewrite <- !app_assoc. cbn [app].
      rewrite <- !app_assoc. reflexivity. }
  destruct (@cut_at_marker _ _ _ _ _ Eq Hl') as [[E1 E2]|[m [E1 E2]]].
  - left. destruct (@cut_at_marker _ _ _ _ _ E2 Hq') as [[E3 _]|[m [E3 _]]].
    + exact E3.
    + exfalso. apply Hq. rewrite E3. apply in_or_app. right. left. reflexivity.
  - destruct (@cut_at_marker _ _ _ _ _ E2 Hq') as [[E3 E4]|[m2 [E3 E4]]].
    + exfalso. exact (@no_line_end_in_name _ _ _ _ E4 Hw2' He' Hnl_name).
    + right. rewrite Hpos, Epre, length_app, length_rev.
      assert (Lw : (List.length ws2' <= List.length m2)%nat).
      { apply (@prefix_without_marker _ _ _ _ _ E4). apply spaces_no_quote. exact Hw2'. }
      assert (Lt : (List.length piece' <= List.length pre2 + List.length (ws ++ bom))%nat).
      { rewrite <- length_app, E1, E3, Ep'.
        repeat (rewrite length_app; cbn [List.length]). lia. }
      destruct (Nat.le_gt_cases (List.length piece') (List.length pre2)) as [Hle|Hgt];
        [lia|].
      exfalso.
      destruct (@app_split_mid _ piece' (after st') pre2 (ws ++ bom)
                  (QUOTE :: name ++ QUOTE :: ws2 ++ post)) as [l1 [l2 [El [_ Ex]]]].
      * rewrite <- Ea, Eaft, Ep. cbn [app]. rewrite <- !app_assoc. cbn [app].
        rewrite <- !app_assoc. reflexivity.
      * lia.
      * rewrite Ex in He'. rewrite El in Hnl_lead.
        exact (@no_line_end_in_lead _ _ _ He' Hnl_lead).
Qed.

(** ** The search reaches every header line *)

Lemma scan_reaches_header pre name piece post :
  line_start pre -> header_text name piece -> ~ In NL piece -> line_end post ->
  forall aft bef skip,
    rev bef ++ aft = pre ++ piece ++ post ->
    (List.length bef + skip <= List.length pre)%nat ->
    In name (scan header_pattern bef aft skip).
Proof.
  intros Hs Hh Hnl He.
  assert (Lp : (2 <= List.length piece)%nat).
  { destruct Hh as [ws [bom [ws2 [Ep _]]]]. rewrite Ep.
    repeat (rewrite length_app; cbn [List.length]). lia. }
  induction aft as [|c t IH]; intros bef skip E L.
  - exfalso. apply (f_equal (@List.length char)) in E.
    rewrite !length_app, length_rev in E. cbn [List.length] in E. lia.
  - assert (En : rev (c :: bef) ++ t = pre ++ piece ++ post).
    { cbn [rev]. rewrite <- app_assoc. exact E. }
    destruct skip as [|k]; cbn [scan].
    + destruct (run header_pattern (MState bef (c :: t) 0 [])) as [st'|] eqn:R.
      * destruct (@match_before_header pre name piece post bef (c :: t) st' Hh Hnl E)
          as [Hlt [Hg|Hle]]; [lia | exact R | left; exact Hg |].
        right. apply IH; [exact En | cbn [List.length]; lia].
      * destruct (Nat.eq_dec (List.length bef) (List.length pre)) as [Heq|Hne].
        -- exfalso.
           destruct (@app_same_length _ (rev bef) (c :: t) pre (piece ++ post) E)
             as [Eb Ea]; [rewrite length_rev; exact Heq|].
           rewrite Ea in R. rewrite <- Eb in Hs.
           exact (@header_here bef name piece post Hs Hh He R).
        -- apply IH; [exact En | cbn [List.length]; lia].
    + apply IH; [exact En | cbn [List.length]; lia].
Qed.

(** Every line of the document that holds a name between double quotes,
    with nothing but whitespace around them (and possibly U+FEFF before
    the opening quote), is a section: [_find_sections] reports its name. *)
Theorem header_lines_are_found content pre name piece post :
  content = pre ++ piece ++ post ->
  line_start pre -> header_text name piece -> ~ In NL piece -> line_end post ->
  In name (_find_sections content).
Proof.
  intros E Hs Hh Hnl He. unfold _find_sections, findall.
  apply (@scan_reaches_header pre name piece post Hs Hh Hnl He content [] 0).
  - rewrite E. reflexivity.
  - simpl. lia.
Qed.

Definition two_headers : str :=
  u "ODIN" ++ [NL] ++ [QUOTE] ++ u "Motief" ++ [QUOTE] ++ [NL] ++ u "Key;Title"
  ++ [NL] ++ u "  " ++ [QUOTE] ++ u "Perioden" ++ [QUOTE] ++ u " " ++ [NL]
  ++ u "Key;Title".

Lemma header_lines_are_found_witness :
  In (u "Perioden") (_find_sections two_headers).
Proof.
  apply (@header_lines_are_found two_headers
           (u "ODIN" ++ [NL] ++ [QUOTE] ++ u "Motief" ++ [QUOTE] ++ [NL]
            ++ u "Key;Title" ++ [NL])
           (u "Perioden")
           (u "  " ++ [QUOTE] ++ u "Perioden" ++ [QUOTE] ++ u " ")
           ([NL] ++ u "Key;Title")).
  - reflexivity.
  - right. exists (u "ODIN" ++ [NL] ++ [QUOTE] ++ u "Motief" ++ [QUOTE] ++ [NL]
                   ++ u "Key;Title"). reflexivity.
  - exists (u "  "), [], (u " ").
    split; [reflexivity|]. split; [reflexivity|]. split; [left; reflexivity|].
    split; [discriminate|]. split; [|reflexivity].
    vm_compute. intros H. repeat (destruct H as [H|H]; [discriminate H|]). exact H.
  - vm_compute. intros H. repeat (destruct H as [H|H]; [discriminate H|]). exact H.
  - right. exists (u "Key;Title"). reflexivity.
Defined.

(** ** Headers that are found and then skipped *)

Lemma find_from_occurs p post : forall pre i,
  (0 <= i)%Z -> find_from i (pre ++ p ++ post) p <> (-1)%Z.
Proof.
  induction pre as [|c pre IH]; intros i Hi.
  - cbn [app]. assert (S : starts_with p (p ++ post) = true)
      by (apply starts_with_app; eauto).
    destruct (p ++ post); cbn [find_from]; rewrite S; lia.
  - cbn [app find_from]. destruct (starts_with p (c :: pre ++ p ++ post)); [lia|].
    apply IH. lia.
Qed.

Lemma no_block_without_line_feed content marker :
  find content [QUOTE; NL] = (-1)%Z -> block_start content marker = (-1)%Z.
Proof.
  intros H. destruct (Z.eq_dec (block_start content marker) (-1)) as [E|E]; [exact E|].
  exfalso. unfold block_start, find in E.
  apply find_from_found in E; [|lia].
  destruct E as [pre [post [E _]]].
  assert (F : find content [QUOTE; NL] <> (-1)%Z).
  { unfold find. rewrite E. unfold full_marker.
    replace (pre ++ (([QUOTE] ++ marker ++ [QUOTE]) ++ [NL]) ++ post)
      with ((pre ++ QUOTE :: marker) ++ [QUOTE; NL] ++ post)
      by (cbn [app]; repeat (rewrite <- app_assoc; cbn [app]); reflexivity).
    apply find_from_occurs. lia. }
  contradiction.
Qed.

(** [parse] takes up a header only where its closing quote is directly
    followed by a line feed. In a document where no double quote is
    directly followed by a line feed (headers with blanks after them, or
    one header on a last line that is not terminated) it returns the
    empty mapping and prints nothing, whatever headers the search
    found and whatever the reader would do. *)
Theorem headers_need_a_line_feed
  (read_csv : str -> forall (sep : str) (skiprows : nat) (quotechar : char), result frame)
  (content sep : str) :
  find content [QUOTE; NL] = (-1)%Z ->
  parse read_csv (Some content) sep = Ok (PState [] []).
Proof.
  intros H. cbn [parse]. f_equal.
  generalize (_find_sections content). intros secs.
  induction secs as [|m rest IH]; cbn [parse_sections]; [reflexivity|].
  unfold parse_section at 1.
  rewrite (@no_block_without_line_feed content m H). cbv iota. change (-1 =? -1)%Z with true.
  exact IH.
Qed.

Definition header_with_blank : str :=
  [QUOTE] ++ u "Motief" ++ [QUOTE] ++ u " " ++ [NL] ++ u "Key;Title" ++ [NL]
  ++ u "1;Work".

Lemma headers_need_a_line_feed_witness :
  _find_sections header_with_blank = [u "Motief"] /\
  parse Csv.read_csv (Some header_with_blank) (u ";") = Ok (PState [] []).
Proof.
  split; [vm_compute; reflexivity|].
  apply (@headers_need_a_line_feed Csv.read_csv header_with_blank (u ";")).
  vm_compute. reflexivity.
Defined.

End HeaderSearch.

(** ** Where a section is cut *)

Module SectionCut.
Import Text Frames TextFacts Parser RegexFacts ParserFacts.

(** A reader that reads nothing and raises with the text it was given:
    the lines [parse] prints then show each block as it was cut. *)
Definition echo (text sep : str) (skiprows : nat) (quotechar : char) : result frame :=
  Raise (ReadError text).

(** C3.  The body of a section is the slice of the document between
    its header line and the next header line.  The parser does not cut
    it there on the document [entangled_document], whose first section
    has a row that ends in the quoted name of the second one.  The
    header search finds the two header lines, and between them stand
    the two lines of the first section; but the block the parser hands
    to the reader for the first section stops inside its row, before
    the quoted name, and the block of the second section starts inside
    that row, so that it begins with two lines holding the quoted
    name: the end of a block is looked up as the first place where the
    quoted name of the next section is followed by a line feed, which
    here is the end of the row and not the header line. *)
Theorem block_is_cut_inside_a_row :
  _find_sections Samples.entangled_document = [u "A"; u "B"] /\
  Claimed.section_bodies Samples.entangled_document =
    [(u "A", [u "k;t"; u "1;" ++ Samples.quoted "B"]);
     (u "B", [u "k;t"; u "2;x"; []])] /\
  block_text Samples.entangled_document (u "A") [u "B"] =
    Samples.quoted "A" ++ Samples.NL ++ u "k;t" ++ Samples.NL ++ u "1;" /\
  block_text Samples.entangled_document (u "B") [] =
    Samples.quoted "B" ++ Samples.NL ++ Samples.quoted "B" ++ Samples.NL ++
    u "k;t" ++ Samples.NL ++ u "2;x" /\
  parse echo (Some Samples.entangled_document) (u ";") =
    Ok (PState []
          [u "Error while parsing section 'A': " ++
             Samples.quoted "A" ++ Samples.NL ++ u "k;t" ++ Samples.NL ++ u "1;";
           u "Error while parsing section 'B': " ++
             Samples.quoted "B" ++ Samples.NL ++ Samples.quoted "B" ++ Samples.NL ++
             u "k;t" ++ Samples.NL ++ u "2;x"]).
Proof.
  split; [vm_compute; reflexivity|]. split; [vm_compute; reflexivity|].
  split; [vm_compute; reflexivity|]. split; vm_compute; reflexivity.
Qed.

End SectionCut.

(** ** The rows an upsert overwrites *)

Module UpsertEffect.
Import Text Frames TextFacts ResultFacts FrameFacts Loader LoaderFacts LoaderOutput.
Local Arguments mem : simpl never.
Local Open Scope result_scope.

(** ** What a load does to the stored rows

    [t] is the target table before the records are loaded and [t']
    after.  No stored row is lost or moved.  A stored row keeps every
    column that is not an update column; it stays as it is when no
    record has its key; and when it is the first row with its key and
    records carry that key, its update columns hold the values of the
    last such record. *)
Definition upserted (q : statement) (records : list row) (t t' : table) : Prop :=
  (List.length t <= List.length t')%nat /\
  forall i old, nth_error t i = Some old ->
  exists r, nth_error t' i = Some r /\
    (forall c, ~ In c (update_columns q) -> lookup c r = lookup c old) /\
    ((forall rec, In rec records -> key_of q rec <> key_of q old) -> r = old) /\
    (forall pre rec post,
       records = pre ++ rec :: post ->
       isna (key_of q rec) = false -> key_of q rec = key_of q old ->
       Forall (fun x => key_of q x <> key_of q rec) post ->
       (forall j o, (j < i)%nat -> nth_error t j = Some o ->
                    key_of q o <> key_of q old) ->
       forall c, In c (update_columns q) -> row_get c r = row_get c rec).

Lemma key_of_proposed q rec :
  well_formed q -> key_of q (proposed q rec) = key_of q rec.
Proof. intros [Hin _]. apply proposed_get. exact Hin. Qed.

(** A record leaves the rows with another key as they are. *)
Lemma upsert_row_other q new : forall t i old,
  nth_error t i = Some old -> key_of q new <> key_of q old ->
  nth_error (upsert_row q new t) i = Some old.
Proof.
  induction t as [|r t IH]; intros i old H Hne; [destruct i; discriminate|].
  cbn [upsert_row]. destruct (conflicts q new r) eqn:C.
  - destruct i as [|i]; [|exact H].
    cbn in H. inversion H; subst r. apply conflicts_key in C.
    destruct C as [_ C]. exfalso. apply Hne. unfold key_of. congruence.
  - destruct i as [|i]; [exact H|]. cbn in H |- *. apply IH; assumption.
Qed.

Lemma load_other q : well_formed q -> forall records t t',
  for_each (execute_one q) records t = Ok t' ->
  forall i old, nth_error t i = Some old ->
  (forall rec, In rec records -> key_of q rec <> key_of q old) ->
  nth_error t' i = Some old.
Proof.
  intros Hq. induction records as [|rec records IH]; intros t t' H i old Hi Hk;
    cbn [for_each] in H.
  - inversion H; subst. exact Hi.
  - apply bind_ok in H. destruct H as [t1 [H1 H2]].
    apply execute_one_ok in H1. destruct H1 as [_ ->].
    apply (IH _ _ H2).
    + apply upsert_row_other; [exact Hi|].
      rewrite key_of_proposed by exact Hq. apply Hk. left. reflexivity.
    + intros r Hr. apply Hk. right. exact Hr.
Qed.

Lemma key_kept q old r :
  well_formed q -> keeps_outside q old r -> key_of q r = key_of q old.
Proof.
  intros [_ [Hup _]] K. unfold key_of.
  rewrite (row_get_lookup (conflict_column q) r), (row_get_lookup (conflict_column q) old).
  rewrite (K _ Hup). reflexivity.
Qed.

(** The stored row that is the first with the key of a record holds,
    after the load, the values of the last record with that key. *)
Lemma load_overwrites q : well_formed q -> forall pre rec post t t' i old,
  for_each (execute_one q) (pre ++ rec :: post) t = Ok t' ->
  isna (key_of q rec) = false -> key_of q rec = key_of q old ->
  Forall (fun x => key_of q x <> key_of q rec) post ->
  nth_error t i = Some old ->
  (forall j o, (j < i)%nat -> nth_error t j = Some o -> key_of q o <> key_of q old) ->
  exists r, nth_error t' i = Some r /\
            forall c, In c (update_columns q) -> row_get c r = row_get c rec.
Proof.
  intros Hq pre rec post t t' i old H Hn Hk Hp Hi Hfirst.
  pose proof (@execute_many_frame q (pre ++ rec :: post) t t' H) as Frame.
  rewrite for_each_app in H. apply bind_ok in H. destruct H as [t1 [_ H]].
  cbn [for_each] in H. apply bind_ok in H. destruct H as [t2 [Hu H]].
  apply execute_one_ok in Hu. destruct Hu as [_ ->].
  destruct (@upsert_row_holds q rec Hq Hn t1) as [i' [r Hh]].
  pose proof (@load_keeps q rec Hq post _ _ Hp H i' r Hh) as [K1 [K2 [K3 K4]]].
  destruct (Frame i old Hi) as [o' [Ho' Ko']].
  assert (Ek : key_of q o' = key_of q rec)
    by (rewrite (@key_kept q old o' Hq Ko'); symmetry; exact Hk).
  destruct (Nat.lt_trichotomy i' i) as [Hlt|[Heq|Hgt]].
  - exfalso.
    assert (Hlen : (i' < List.length t)%nat).
    { apply Nat.lt_trans with i; [exact Hlt|]. apply nth_error_Some. congruence. }
    destruct (nth_error t i') as [o|] eqn:No;
      [|apply nth_error_None in No; lia].
    destruct (Frame i' o No) as [o2 [Ho2 Ko2]].
    rewrite K1 in Ho2. inversion Ho2; subst o2.
    apply (Hfirst i' o Hlt No).
    rewrite <- (@key_kept q o r Hq Ko2), K2. exact Hk.
  - subst i'. exists r. split; [exact K1 | exact K4].
  - exfalso. apply (K3 i o' Hgt Ho'). exact Ek.
Qed.

Lemma load_upserted q : well_formed q -> forall records t t',
  for_each (execute_one q) records t = Ok t' -> upserted q records t t'.
Proof.
  intros Hq records t t' H. split.
  - destruct (load_keys Hq _ _ H) as [added [E _]].
    apply (f_equal (@List.length cell)) in E.
    rewrite length_app in E. unfold keys in E. rewrite !length_map in E. lia.
  - intros i old Hi.
    destruct (@execute_many_frame q records t t' H i old Hi) as [r [Hr Kr]].
    exists r. split; [exact Hr|]. split; [exact Kr|]. split.
    + intros Hk. pose proof (@load_other q Hq records t t' H i old Hi Hk) as E.
      congruence.
    + intros pre rec post -> Hn Hk Hp Hfirst c Hc.
      destruct (@load_overwrites q Hq pre rec post t t' i old H Hn Hk Hp Hi Hfirst)
        as [r' [Hr' K]].
      rewrite Hr in Hr'. inversion Hr'; subst r'. apply K. exact Hc.
Qed.

Lemma execute_upserted q records db db' :
  well_formed q -> execute q records db = Ok db' ->
  exists t t', Dict.get (target q) db = Some t /\
               Dict.get (target q) db' = Some t' /\ upserted q records t t'.
Proof.
  intros Hq H. unfold execute in H.
  destruct (Dict.get (target q) db) as [t|] eqn:G; [|discriminate].
  apply bind_ok in H. destruct H as [t' [H1 H2]]. inversion H2; subst db'.
  exists t, t'. split; [reflexivity|]. split; [apply dict_get_set_same|].
  apply load_upserted; assumption.
Qed.

(** C6.  The dimension upsert has [key] as its conflict key and on
    conflict overwrites exactly [title], [description] and
    [ingested_at]; the fact upsert has [fact_id] as its conflict key and
    on conflict overwrites exactly the six metrics and [ingested_at],
    never one of the six foreign keys and never [fact_id].  That is:
    when [_upsert_table], or the load of the facts, returns, every
    stored row is still in its place, with all columns but those
    unchanged; a stored row whose key no record carries is unchanged
    altogether; and the first stored row with the key of a record holds
    in those columns the values of the last record with that key.  So
    loading the same fact table twice leaves [fact_id] and the foreign
    keys of the stored rows unchanged. *)
Theorem upserts_overwrite_exactly :
  (forall SCHEMA df table_name db n db',
     _upsert_table SCHEMA df table_name db = Ok (n, db') ->
     conflict_column (dimension_query SCHEMA table_name) = u "key" /\
     update_columns (dimension_query SCHEMA table_name) =
       [u "title"; u "description"; u "ingested_at"] /\
     exists t t',
       Dict.get (target (dimension_query SCHEMA table_name)) db = Some t /\
       Dict.get (target (dimension_query SCHEMA table_name)) db' = Some t' /\
       upserted (dimension_query SCHEMA table_name) (rows df) t t') /\
  (forall SCHEMA df db n db',
     load_fact SCHEMA df db = Ok (n, db') ->
     conflict_column (fact_query SCHEMA) = u "fact_id" /\
     update_columns (fact_query SCHEMA) =
       Transformer.Fact.METRIC_COLUMNS ++ [u "ingested_at"] /\
     (forall c, In c (u "fact_id" :: Transformer.Fact.FK_COLUMNS) ->
                ~ In c (update_columns (fact_query SCHEMA))) /\
     exists t t',
       Dict.get (target (fact_query SCHEMA)) db = Some t /\
       Dict.get (target (fact_query SCHEMA)) db' = Some t' /\
       upserted (fact_query SCHEMA) (rows df) t t') /\
  (forall SCHEMA df db n1 db1 n2 db2,
     load_fact SCHEMA df db = Ok (n1, db1) ->
     load_fact SCHEMA df db1 = Ok (n2, db2) ->
     exists t1 t2,
       Dict.get (target (fact_query SCHEMA)) db1 = Some t1 /\
       Dict.get (target (fact_query SCHEMA)) db2 = Some t2 /\
       forall i r1, nth_error t1 i = Some r1 ->
       exists r2, nth_error t2 i = Some r2 /\
                  forall c, In c (u "fact_id" :: Transformer.Fact.FK_COLUMNS) ->
                            lookup c r2 = lookup c r1).
Proof.
  split; [|split].
  - intros SCHEMA df table_name db n db' H. unfold _upsert_table in H.
    apply bind_ok in H. destruct H as [d [E R]]. inversion R; subst; clear R.
    split; [reflexivity|]. split; [reflexivity|].
    apply execute_upserted; [apply dimension_query_well_formed | exact E].
  - intros SCHEMA df db n db' H. unfold load_fact in H.
    apply bind_ok in H. destruct H as [d [E R]]. inversion R; subst; clear R.
    split; [reflexivity|]. split; [reflexivity|].
    split; [apply fact_keys_not_updated|].
    apply execute_upserted; [apply fact_query_well_formed | exact E].
  - intros SCHEMA df db n1 db1 n2 db2 H1 H2.
    unfold load_fact in H1, H2.
    apply bind_ok in H1. destruct H1 as [d1 [E1 R1]]. inversion R1; subst; clear R1.
    apply bind_ok in H2. destruct H2 as [d2 [E2 R2]]. inversion R2; subst; clear R2.
    apply execute_frame in E1, E2.
    destruct E1 as [t0 [t1 [_ [G1 _]]]].
    destruct E2 as [t1' [t2 [G1' [G2 K]]]].
    rewrite G1 in G1'. inversion G1'; subst t1'.
    exists t1, t2. split; [exact G1|]. split; [exact G2|].
    intros i r1 Hi. destruct (K i r1 Hi) as [r2 [Hi2 K2]].
    exists r2. split; [exact Hi2|]. intros c Hc. apply K2.
    apply fact_keys_not_updated. exact Hc.
Qed.

(** A stored dimension table with two rows, and a frame that carries the
    key of the second one. *)
Definition old_population : table :=
  rows (Samples.table DIMENSION_COLUMNS
          [[Samples.s "P0"; Samples.s "Zero"; VNone; VTime Samples.now];
           [Samples.s "P1"; Samples.s "Old title"; VNone; VTime Samples.now]]).

Definition new_population : frame :=
  Samples.table DIMENSION_COLUMNS
    [[Samples.s "P1"; Samples.s "New title"; Samples.s "New text"; VTime Samples.later]].

Definition population_store : database :=
  Dict.set (u "public.dim_population") old_population Samples.empty_store.

Definition population_reloaded : database := Eval vm_compute in
    Samples.store_of (_upsert_table (u "public") new_population (u "dim_population")
                        population_store).

(** The canonical fact under its [fact_id], measured again, and with
    another travel motive. *)
Definition fact_again : frame :=
  Samples.table Samples.FACT_LABELS
    [[Samples.s "f1"; Samples.s "TM2"; Samples.s "P1"; Samples.s "M1"; Samples.s "MG1";
      Samples.s "R1"; Samples.s "2023JJ00"; VFloat (Finite false 205 (-1));
      VNaN; VNaN; VNaN; VNaN; VNaN; VTime Samples.later]].

Definition fact_reloaded : database := Eval vm_compute in
    Samples.store_of (load_fact (u "public") fact_again Samples.loaded_once).

Lemma upserts_overwrite_exactly_witness :
  (exists t' r0 r1,
     Dict.get (u "public.dim_population") population_reloaded = Some t' /\
     nth_error t' 0 = Some r0 /\ nth_error old_population 0 = Some r0 /\
     nth_error t' 1 = Some r1 /\
     lookup (u "key") r1 = Some (Samples.s "P1") /\
     row_get (u "title") r1 = Samples.s "New title" /\
     row_get (u "description") r1 = Samples.s "New text" /\
     row_get (u "ingested_at") r1 = VTime Samples.later) /\
  (exists t' r,
     Dict.get (u "public.fact_mobility") fact_reloaded = Some t' /\
     nth_error t' 0 = Some r /\
     lookup (u "fact_id") r = Some (Samples.s "f1") /\
     lookup (u "travel_motive_key") r = Some (Samples.s "TM1") /\
     row_get (u "trips_daily") r = VFloat (Finite false 205 (-1)) /\
     row_get (u "ingested_at") r = VTime Samples.later).
Proof.
  destruct upserts_overwrite_exactly as [HD [HF _]]. split.
  - destruct (HD (u "public") new_population (u "dim_population") population_store
                1%nat population_reloaded) as [_ [_ [t [t' [G [G' [_ U]]]]]]];
      [vm_compute; reflexivity|].
    vm_compute in G. injection G as <-.
    destruct (U 0%nat (hd [] old_population)) as [r0 [N0 [_ [Same _]]]];
      [reflexivity|].
    destruct (U 1%nat (nth 1 old_population [])) as [r1 [N1 [Keep [_ Over]]]];
      [reflexivity|].
    exists t', r0, r1. split; [exact G'|]. split; [exact N0|].
    split.
    { rewrite Same; [reflexivity|]. intros rec [<-|[]]. vm_compute. discriminate. }
    split; [exact N1|].
    assert (O : forall c, In c (update_columns (dimension_query (u "public")
                                                  (u "dim_population"))) ->
                row_get c r1 = row_get c (Samples.first_row new_population)).
    { apply (Over [] (Samples.first_row new_population) []).
      - reflexivity.
      - vm_compute. reflexivity.
      - vm_compute. reflexivity.
      - constructor.
      - intros [|[|j]] o Hj Ho; [|lia|lia].
        vm_compute in Ho. injection Ho as <-. vm_compute. discriminate. }
    split.
    { rewrite Keep; [vm_compute; reflexivity|]. vm_compute.
      intros H. repeat (destruct H as [H|H]; [discriminate H|]). exact H. }
    split; [apply O; vm_compute; auto 10|].
    split; apply O; vm_compute; auto 10.
  - destruct (HF (u "public") fact_again Samples.loaded_once 1%nat fact_reloaded)
      as [_ [_ [_ [t [t' [G [G' [_ U]]]]]]]]; [vm_compute; reflexivity|].
    vm_compute in G. injection G as <-.
    destruct (U 0%nat (Samples.first_row Samples.canonical_fact))
      as [r [N [Keep [_ Over]]]]; [reflexivity|].
    exists t', r. split; [exact G'|]. split; [exact N|].
    assert (O : forall c, In c (update_columns (fact_query (u "public"))) ->
                row_get c r = row_get c (Samples.first_row fact_again)).
    { apply (Over [] (Samples.first_row fact_again) []).
      - reflexivity.
      - vm_compute. reflexivity.
      - vm_compute. reflexivity.
      - constructor.
      - intros j o Hj. lia. }
    split.
    { rewrite Keep; [vm_compute; reflexivity|]. vm_compute.
      intros H. repeat (destruct H as [H|H]; [discriminate H|]). exact H. }
    split.
    { rewrite Keep; [vm_compute; reflexivity|]. vm_compute.
      intros H. repeat (destruct H as [H|H]; [discriminate H|]). exact H. }
    split; apply O; vm_compute; auto 12.
Defined.

End UpsertEffect.
